(** * Tenant connection cache of nestjs-multitenant-core

    A shallow embedding of
    [packages/nestjs-multitenant-core/src/services/tenant-connection.service.ts]
    (class [TenantConnectionService]) together with the exception classes,
    constants and interfaces it uses, followed by the properties of the
    connection cache.

    The service is asynchronous JavaScript: every method runs atomically
    from one [await] to the next.  Each method is therefore embedded as the
    sequence of its atomic segments; running the segments back to back gives
    the behaviour of one call that nobody interleaves with, and a scheduler
    over suspended calls gives the behaviour under concurrent callers. *)

From Stdlib Require Import List String ZArith Bool Lia Arith PeanoNat.
From Stdlib Require Import Permutation.
From Stdlib Require Import DecimalString.
Import ListNotations.
Local Open Scope string_scope.

(** ** JavaScript [Map<string, V>]

    A [Map] iterates in insertion order ([Array.from(map.keys())] is used by
    the service), so it is kept as an association list: [set] overwrites the
    value of a present key in place and appends an absent one. *)

Module JsMap.
Section Ops.
Variable V : Type.

Definition t := list (string * V).

Definition empty : t := [].

Fixpoint get (k : string) (m : t) : option V :=
  match m with
  | [] => None
  | (k', v) :: m' => if String.eqb k k' then Some v else get k m'
  end.

Definition has (k : string) (m : t) : bool :=
  match get k m with Some _ => true | None => false end.

Fixpoint set (k : string) (v : V) (m : t) : t :=
  match m with
  | [] => [(k, v)]
  | (k', v') :: m' =>
      if String.eqb k k' then (k', v) :: m' else (k', v') :: set k v m'
  end.

Fixpoint delete (k : string) (m : t) : t :=
  match m with
  | [] => []
  | (k', v') :: m' =>
      if String.eqb k k' then delete k m' else (k', v') :: delete k m'
  end.

Definition keys (m : t) : list string := map fst m.

Definition values (m : t) : list V := map snd m.

Definition size (m : t) : nat := List.length m.
End Ops.
End JsMap.

Arguments JsMap.empty {V}.
Arguments JsMap.get {V} k m.
Arguments JsMap.has {V} k m.
Arguments JsMap.set {V} k v m.
Arguments JsMap.delete {V} k m.
Arguments JsMap.keys {V} m.
Arguments JsMap.values {V} m.
Arguments JsMap.size {V} m.

(** ** constants/tokens.ts *)

Definition DEFAULT_CONNECTION_POOL_SIZE : Z := 10.
Definition DEFAULT_CONNECTION_TIMEOUT : Z := 30000.
Definition DEFAULT_IDLE_TIMEOUT : Z := 300000.

Module ERROR_MESSAGES.
Definition TENANT_NOT_FOUND := "Tenant not found".
Definition TENANT_INACTIVE := "Tenant is inactive".
Definition CONNECTION_FAILED := "Failed to establish tenant connection".
Definition UNSUPPORTED_DATABASE_DRIVER := "Unsupported database driver".
End ERROR_MESSAGES.

(** ** interfaces/tenant-config.interface.ts *)

(** [enum TenancyDriver]: at run time the members are these strings, and a
    configuration object can carry any string in [driver]. *)
Module TenancyDriver.
Definition MYSQL := "mysql".
Definition POSTGRESQL := "postgresql".
Definition MONGODB := "mongodb".
End TenancyDriver.

(** [TenantConfig], restricted to the fields the connection service reads.
    The optional fields are [None] when absent. *)
Record TenantConfig := {
  driver : string;
  cacheConnections : option bool;
  maxConnections : option Z;
  connectionTimeout : option Z;
  idleTimeout : option Z
}.

(** [TenantConnectionInfo]; [connectionOptions] stands for
    [metadata?.connectionOptions] (empty when absent). *)
Record TenantConnectionInfo := {
  id : string;
  name : string;
  host : string;
  port : Z;
  username : string;
  password : string;
  database : string;
  schema : option string;
  isActive : bool;
  createdAt : Z;
  updatedAt : Z;
  connectionOptions : list (string * string)
}.

(** ** Backend handles

    Options handed to [new DataSource(...)] and to
    [mongoose.createConnection]. *)
Record DataSourceOptions := {
  ds_type : string;
  ds_host : string;
  ds_port : Z;
  ds_username : string;
  ds_password : string;
  ds_database : string;
  ds_schema : option string;
  ds_poolSize : Z;
  ds_connectTimeoutMS : Z;
  ds_idleTimeoutMillis : Z;
  ds_extra : list (string * string)
}.

Record MongoOptions := {
  mg_maxPoolSize : Z;
  mg_serverSelectionTimeoutMS : Z;
  mg_socketTimeoutMS : Z;
  mg_extra : list (string * string)
}.

(** A connection object.  [oid] is its identity as a heap object: two
    objects built by two calls are different objects even when their
    options agree. *)
Inductive Connection :=
| DataSource (oid : nat) (options : DataSourceOptions)
| MongoConnection (oid : nat) (connectionString : string) (options : MongoOptions).

Definition oid_of (c : Connection) : nat :=
  match c with
  | DataSource n _ => n
  | MongoConnection n _ _ => n
  end.

Record TenantContext := {
  tenantId : string;
  tenantInfo : TenantConnectionInfo;
  connection : Connection
}.

(** ** exceptions/tenant.exceptions.ts *)

(** A thrown [Error]; only its message is ever read. *)
Record JsError := { message : string }.

(** The exception classes; [TenantConnectionException] keeps
    [originalError?.message] in its response body. *)
Inductive HttpException :=
| TenantNotFoundException (tenantId : string)
| TenantInactiveException (tenantId : string)
| InvalidTenantIdException (tenantId : string)
| TenantConnectionException (tenantId : string) (originalError : string)
| UnsupportedDatabaseDriverException (driver : string).

Definition exception_message (e : HttpException) : string :=
  match e with
  | TenantNotFoundException _ => ERROR_MESSAGES.TENANT_NOT_FOUND
  | TenantInactiveException _ => ERROR_MESSAGES.TENANT_INACTIVE
  | InvalidTenantIdException _ => "Invalid tenant ID"
  | TenantConnectionException _ _ => ERROR_MESSAGES.CONNECTION_FAILED
  | UnsupportedDatabaseDriverException _ =>
      ERROR_MESSAGES.UNSUPPORTED_DATABASE_DRIVER
  end.

Definition statusCode (e : HttpException) : Z :=
  match e with
  | TenantNotFoundException _ => 404
  | TenantInactiveException _ => 403
  | InvalidTenantIdException _ => 400
  | TenantConnectionException _ _ => 500
  | UnsupportedDatabaseDriverException _ => 500
  end.

(** How a promise settles. *)
Inductive Settled (A : Type) :=
| Resolved (a : A)
| Rejected (e : HttpException).

Arguments Resolved {A} a.
Arguments Rejected {A} e.

(** ** Collaborators

    What [repository.findOne] does for a tenant id: it throws, or it yields
    a row or [null]. *)
Inductive DirResult :=
| DirThrows (e : JsError)
| DirRow (row : option TenantConnectionInfo).

(** The outside world as one call sees it.  [None] from an opening or
    closing operation means that its promise resolved, [Some e] that it
    rejected with [e]. *)
Record Env := {
  findOne : string -> DirResult;
  initialize : DataSourceOptions -> option JsError;
  createConnection : string -> MongoOptions -> option JsError;
  destroy : Connection -> option JsError;
  close : Connection -> option JsError
}.

(** ** Service state *)

Inductive LogLevel := Debug | Log | Error.

Record LogLine := {
  level : LogLevel;
  text : string;
  detail : option JsError
}.

(** [connectionCache] and [connectionTimers] are the two private maps of
    the class.  A [NodeJS.Timeout] is a number; [timeouts] is the timer
    queue of the event loop: the timeouts that were set and have neither
    fired nor been cleared, each with the tenant id its callback closes over
    and its delay.  The three call lists record, in order, the calls made to
    the directory, to the connector and to the handles' closing method. *)
Record State := {
  connectionCache : JsMap.t Connection;
  connectionTimers : JsMap.t nat;
  timeouts : list (nat * (string * Z));
  nextTimer : nat;
  nextOid : nat;
  findOneCalls : list string;
  openCalls : list Connection;
  closeCalls : list Connection;
  logs : list LogLine
}.

Definition initialState : State :=
  {| connectionCache := JsMap.empty;
     connectionTimers := JsMap.empty;
     timeouts := [];
     nextTimer := 0;
     nextOid := 0;
     findOneCalls := [];
     openCalls := [];
     closeCalls := [];
     logs := [] |}.

Definition with_cache (m : JsMap.t Connection) (s : State) : State :=
  {| connectionCache := m;
     connectionTimers := connectionTimers s;
     timeouts := timeouts s;
     nextTimer := nextTimer s;
     nextOid := nextOid s;
     findOneCalls := findOneCalls s;
     openCalls := openCalls s;
     closeCalls := closeCalls s;
     logs := logs s |}.

Definition with_timers (m : JsMap.t nat) (s : State) : State :=
  {| connectionCache := connectionCache s;
     connectionTimers := m;
     timeouts := timeouts s;
     nextTimer := nextTimer s;
     nextOid := nextOid s;
     findOneCalls := findOneCalls s;
     openCalls := openCalls s;
     closeCalls := closeCalls s;
     logs := logs s |}.

Definition with_timeouts (q : list (nat * (string * Z))) (s : State) : State :=
  {| connectionCache := connectionCache s;
     connectionTimers := connectionTimers s;
     timeouts := q;
     nextTimer := nextTimer s;
     nextOid := nextOid s;
     findOneCalls := findOneCalls s;
     openCalls := openCalls s;
     closeCalls := closeCalls s;
     logs := logs s |}.

Definition logger (lv : LogLevel) (msg : string) (d : option JsError)
    (s : State) : State :=
  {| connectionCache := connectionCache s;
     connectionTimers := connectionTimers s;
     timeouts := timeouts s;
     nextTimer := nextTimer s;
     nextOid := nextOid s;
     findOneCalls := findOneCalls s;
     openCalls := openCalls s;
     closeCalls := closeCalls s;
     logs := logs s ++ [{| level := lv; text := msg; detail := d |}] |}.

Definition record_findOne (k : string) (s : State) : State :=
  {| connectionCache := connectionCache s;
     connectionTimers := connectionTimers s;
     timeouts := timeouts s;
     nextTimer := nextTimer s;
     nextOid := nextOid s;
     findOneCalls := findOneCalls s ++ [k];
     openCalls := openCalls s;
     closeCalls := closeCalls s;
     logs := logs s |}.

(** A connection object is allocated and its opening call is issued. *)
Definition record_open (c : Connection) (s : State) : State :=
  {| connectionCache := connectionCache s;
     connectionTimers := connectionTimers s;
     timeouts := timeouts s;
     nextTimer := nextTimer s;
     nextOid := S (nextOid s);
     findOneCalls := findOneCalls s;
     openCalls := openCalls s ++ [c];
     closeCalls := closeCalls s;
     logs := logs s |}.

Definition record_close (c : Connection) (s : State) : State :=
  {| connectionCache := connectionCache s;
     connectionTimers := connectionTimers s;
     timeouts := timeouts s;
     nextTimer := nextTimer s;
     nextOid := nextOid s;
     findOneCalls := findOneCalls s;
     openCalls := openCalls s;
     closeCalls := closeCalls s ++ [c];
     logs := logs s |}.

(** ** JavaScript truthiness and [||] on the optional configuration fields *)

Definition truthy (b : option bool) : bool :=
  match b with Some true => true | _ => false end.

(** [x || d] for an optional number: [undefined] and [0] give [d]. *)
Definition or_default (x : option Z) (d : Z) : Z :=
  match x with
  | None => d
  | Some v => if Z.eqb v 0 then d else v
  end.

Definition number_to_string (z : Z) : string :=
  NilZero.string_of_int (Z.to_int z).

(** ** Timers *)

(** [setTimeout(cb, delay)]: a new timeout joins the queue. *)
Definition setTimeout (tenantId : string) (delay : Z) (s : State) : nat * State :=
  (nextTimer s,
   {| connectionCache := connectionCache s;
      connectionTimers := connectionTimers s;
      timeouts := timeouts s ++ [(nextTimer s, (tenantId, delay))];
      nextTimer := S (nextTimer s);
      nextOid := nextOid s;
      findOneCalls := findOneCalls s;
      openCalls := openCalls s;
      closeCalls := closeCalls s;
      logs := logs s |}).

(** [clearTimeout(t)]: the timeout leaves the queue, if it is still there. *)
Definition clearTimeout (t : nat) (s : State) : State :=
  with_timeouts (filter (fun e => negb (Nat.eqb (fst e) t)) (timeouts s)) s.

Definition setConnectionTimer (cfg : TenantConfig) (tenantId : string)
    (s : State) : State :=
  let timeout := or_default (idleTimeout cfg) DEFAULT_IDLE_TIMEOUT in
  let '(timer, s1) := setTimeout tenantId timeout s in
  with_timers (JsMap.set tenantId timer (connectionTimers s1)) s1.

Definition resetConnectionTimer (cfg : TenantConfig) (tenantId : string)
    (s : State) : State :=
  let existingTimer := JsMap.get tenantId (connectionTimers s) in
  let s1 := match existingTimer with
            | Some t => clearTimeout t s
            | None => s
            end in
  setConnectionTimer cfg tenantId s1.

(** ** getTenantInfo

    [findOne] is issued by the caller's segment; this is what [getTenantInfo]
    does once it has settled: a throw is logged and turned into [null]. *)
Definition getTenantInfo_settled (tenantId : string) (r : DirResult)
    (s : State) : option TenantConnectionInfo * State :=
  match r with
  | DirRow tenant => (tenant, s)
  | DirThrows error =>
      (None,
       logger Error ("Failed to get tenant info for " ++ tenantId ++ ":")
         (Some error) s)
  end.

Definition getTenantInfo (env : Env) (tenantId : string) (s : State)
    : option TenantConnectionInfo * State :=
  getTenantInfo_settled tenantId (findOne env tenantId)
    (record_findOne tenantId s).

(** ** createTenantConnection *)

Definition sqlOptions (cfg : TenantConfig) (tenantInfo : TenantConnectionInfo)
    : DataSourceOptions :=
  {| ds_type := driver cfg;
     ds_host := host tenantInfo;
     ds_port := port tenantInfo;
     ds_username := username tenantInfo;
     ds_password := password tenantInfo;
     ds_database := database tenantInfo;
     ds_schema := schema tenantInfo;
     ds_poolSize := or_default (maxConnections cfg) DEFAULT_CONNECTION_POOL_SIZE;
     ds_connectTimeoutMS :=
       or_default (connectionTimeout cfg) DEFAULT_CONNECTION_TIMEOUT;
     ds_idleTimeoutMillis := or_default (idleTimeout cfg) DEFAULT_IDLE_TIMEOUT;
     ds_extra := connectionOptions tenantInfo |}.

Definition mongoConnectionString (tenantInfo : TenantConnectionInfo) : string :=
  "mongodb://" ++ username tenantInfo ++ ":" ++ password tenantInfo ++ "@"
  ++ host tenantInfo ++ ":" ++ number_to_string (port tenantInfo) ++ "/"
  ++ database tenantInfo.

Definition mongoOptions (cfg : TenantConfig) (tenantInfo : TenantConnectionInfo)
    : MongoOptions :=
  {| mg_maxPoolSize := or_default (maxConnections cfg) DEFAULT_CONNECTION_POOL_SIZE;
     mg_serverSelectionTimeoutMS :=
       or_default (connectionTimeout cfg) DEFAULT_CONNECTION_TIMEOUT;
     mg_socketTimeoutMS := or_default (idleTimeout cfg) DEFAULT_IDLE_TIMEOUT;
     mg_extra := connectionOptions tenantInfo |}.

(** A call of [getTenantConnection] suspended on the connector: the object
    being opened and how the opening settles. *)
Record AwaitOpen := {
  ao_tenantId : string;
  ao_tenantInfo : TenantConnectionInfo;
  ao_connection : Connection;
  ao_opened : option JsError
}.

(** [createSqlConnection] up to [await dataSource.initialize()]. *)
Definition createSqlConnection_begin (env : Env) (cfg : TenantConfig)
    (tenantInfo : TenantConnectionInfo) (s : State)
    : (Connection * option JsError) * State :=
  let dataSource := DataSource (nextOid s) (sqlOptions cfg tenantInfo) in
  ((dataSource, initialize env (sqlOptions cfg tenantInfo)),
   record_open dataSource s).

(** [createMongoConnection] up to [await mongoose.createConnection(...)]. *)
Definition createMongoConnection_begin (env : Env) (cfg : TenantConfig)
    (tenantInfo : TenantConnectionInfo) (s : State)
    : (Connection * option JsError) * State :=
  let connectionString := mongoConnectionString tenantInfo in
  let connection :=
    MongoConnection (nextOid s) connectionString (mongoOptions cfg tenantInfo) in
  ((connection,
    createConnection env connectionString (mongoOptions cfg tenantInfo)),
   record_open connection s).

Definition failed_to_create (tenantInfo : TenantConnectionInfo) (error : JsError)
    (s : State) : Settled Connection * State :=
  (Rejected (TenantConnectionException (id tenantInfo) (message error)),
   logger Error ("Failed to create connection for tenant " ++ id tenantInfo ++ ":")
     (Some error) s).

(** [createTenantConnection] up to the [await] inside the [switch]; the
    [default] branch throws inside the [try], so its [Error] is caught and
    wrapped at once. *)
Definition createTenantConnection_begin (env : Env) (cfg : TenantConfig)
    (tenantInfo : TenantConnectionInfo) (s : State)
    : (Settled Connection + (Connection * option JsError)) * State :=
  if String.eqb (driver cfg) TenancyDriver.MYSQL
     || String.eqb (driver cfg) TenancyDriver.POSTGRESQL then
    let '(w, s1) := createSqlConnection_begin env cfg tenantInfo s in
    (inr w, s1)
  else if String.eqb (driver cfg) TenancyDriver.MONGODB then
    let '(w, s1) := createMongoConnection_begin env cfg tenantInfo s in
    (inr w, s1)
  else
    let '(r, s1) :=
      failed_to_create tenantInfo
        {| message := "Unsupported driver: " ++ driver cfg |} s in
    (inl r, s1).

Definition established (c : Connection) (tenantInfo : TenantConnectionInfo)
    : string :=
  match c with
  | DataSource _ _ => "SQL connection established for tenant: " ++ id tenantInfo
  | MongoConnection _ _ _ =>
      "MongoDB connection established for tenant: " ++ id tenantInfo
  end.

(** [createTenantConnection] after the opening settled. *)
Definition createTenantConnection_settled (tenantInfo : TenantConnectionInfo)
    (c : Connection) (opened : option JsError) (s : State)
    : Settled Connection * State :=
  match opened with
  | Some error => failed_to_create tenantInfo error s
  | None => (Resolved c, logger Log (established c tenantInfo) None s)
  end.

(** ** getTenantConnection *)

(** The cache test of line 38: [cacheConnections && connectionCache.has(id)],
    together with the value [connectionCache.get(id)] that the hit returns. *)
Definition cached (cfg : TenantConfig) (tenantId : string) (s : State)
    : option Connection :=
  if truthy (cacheConnections cfg)
  then JsMap.get tenantId (connectionCache s)
  else None.

(** A call suspended on [getTenantInfo]. *)
Record AwaitInfo := {
  ai_tenantId : string;
  ai_found : DirResult
}.

(** First segment: the cache test; on a miss [findOne] is issued. *)
Definition getTenantConnection_begin (env : Env) (cfg : TenantConfig)
    (tenantId : string) (s : State) : (Settled Connection + AwaitInfo) * State :=
  match cached cfg tenantId s with
  | Some c =>
      let s1 :=
        logger Debug ("Using cached connection for tenant: " ++ tenantId) None s in
      let s2 := resetConnectionTimer cfg tenantId s1 in
      (inl (Resolved c), s2)
  | None =>
      (inr {| ai_tenantId := tenantId; ai_found := findOne env tenantId |},
       record_findOne tenantId s)
  end.

(** Second segment: the directory answered; the two checks, then the
    connector is called. *)
Definition getTenantConnection_found (env : Env) (cfg : TenantConfig)
    (w : AwaitInfo) (s : State) : (Settled Connection + AwaitOpen) * State :=
  let tenantId := ai_tenantId w in
  let '(tenantInfo, s1) := getTenantInfo_settled tenantId (ai_found w) s in
  match tenantInfo with
  | None => (inl (Rejected (TenantNotFoundException tenantId)), s1)
  | Some tenantInfo =>
      if negb (isActive tenantInfo) then
        (inl (Rejected (TenantInactiveException tenantId)), s1)
      else
        match createTenantConnection_begin env cfg tenantInfo s1 with
        | (inl r, s2) => (inl r, s2)
        | (inr (c, opened), s2) =>
            (inr {| ao_tenantId := tenantId;
                    ao_tenantInfo := tenantInfo;
                    ao_connection := c;
                    ao_opened := opened |}, s2)
        end
  end.

(** Third segment: the connector answered; the connection is cached when
    caching is on. *)
Definition getTenantConnection_opened (cfg : TenantConfig) (w : AwaitOpen)
    (s : State) : Settled Connection * State :=
  let tenantId := ao_tenantId w in
  match createTenantConnection_settled (ao_tenantInfo w) (ao_connection w)
          (ao_opened w) s with
  | (Rejected e, s1) => (Rejected e, s1)
  | (Resolved connection, s1) =>
      if truthy (cacheConnections cfg) then
        let s2 :=
          with_cache (JsMap.set tenantId connection (connectionCache s1)) s1 in
        let s3 := setConnectionTimer cfg tenantId s2 in
        (Resolved connection,
         logger Debug ("Cached connection for tenant: " ++ tenantId) None s3)
      else (Resolved connection, s1)
  end.

(** One call run from start to end with nothing interleaved. *)
Definition getTenantConnection (env : Env) (cfg : TenantConfig)
    (tenantId : string) (s : State) : Settled Connection * State :=
  match getTenantConnection_begin env cfg tenantId s with
  | (inl r, s1) => (r, s1)
  | (inr w, s1) =>
      match getTenantConnection_found env cfg w s1 with
      | (inl r, s2) => (r, s2)
      | (inr w', s2) => getTenantConnection_opened cfg w' s2
      end
  end.

(** ** getTenantContext *)

Definition getTenantContext (env : Env) (cfg : TenantConfig)
    (tenantId : string) (s : State) : Settled TenantContext * State :=
  let '(tenantInfo, s1) := getTenantInfo env tenantId s in
  match tenantInfo with
  | None => (Rejected (TenantNotFoundException tenantId), s1)
  | Some tenantInfo =>
      match getTenantConnection env cfg tenantId s1 with
      | (Rejected e, s2) => (Rejected e, s2)
      | (Resolved connection, s2) =>
          (Resolved {| tenantId := tenantId;
                       tenantInfo := tenantInfo;
                       connection := connection |}, s2)
      end
  end.

(** ** closeConnection *)

(** A call suspended on [destroy()] or [close()]. *)
Record AwaitClose := {
  acl_tenantId : string;
  acl_connection : Connection;
  acl_closed : option JsError
}.

(** First segment: the lookup; a [DataSource] is destroyed, anything else
    is closed. *)
Definition closeConnection_begin (env : Env) (tenantId : string) (s : State)
    : option AwaitClose * State :=
  match JsMap.get tenantId (connectionCache s) with
  | None => (None, s)
  | Some connection =>
      let closed :=
        match connection with
        | DataSource _ _ => destroy env connection
        | MongoConnection _ _ _ => close env connection
        end in
      (Some {| acl_tenantId := tenantId;
               acl_connection := connection;
               acl_closed := closed |},
       record_close connection s)
  end.

(** Second segment: the rest of the [try] block, or the [catch]. *)
Definition closeConnection_settled (w : AwaitClose) (s : State) : State :=
  let tenantId := acl_tenantId w in
  match acl_closed w with
  | None =>
      let s1 := with_cache (JsMap.delete tenantId (connectionCache s)) s in
      let s2 := with_timers (JsMap.delete tenantId (connectionTimers s1)) s1 in
      logger Debug ("Connection closed for tenant: " ++ tenantId) None s2
  | Some error =>
      logger Error ("Failed to close connection for tenant " ++ tenantId ++ ":")
        (Some error) s
  end.

Definition closeConnection (env : Env) (tenantId : string) (s : State)
    : Settled unit * State :=
  match closeConnection_begin env tenantId s with
  | (None, s1) => (Resolved tt, s1)
  | (Some w, s1) => (Resolved tt, closeConnection_settled w s1)
  end.

(** ** closeAllConnections and onModuleDestroy *)

(** [keys.map(tenantId => this.closeConnection(tenantId))]: every call runs
    to its [await] before any of them is resumed. *)
Fixpoint closeConnection_begin_all (env : Env) (tenantIds : list string)
    (s : State) : list AwaitClose * State :=
  match tenantIds with
  | [] => ([], s)
  | tenantId :: rest =>
      let '(w, s1) := closeConnection_begin env tenantId s in
      let '(ws, s2) := closeConnection_begin_all env rest s1 in
      (match w with Some x => x :: ws | None => ws end, s2)
  end.

Definition closeAllConnections_begin (env : Env) (s : State)
    : list AwaitClose * State :=
  closeConnection_begin_all env (JsMap.keys (connectionCache s)) s.

(** [await Promise.all(closePromises)]: the suspended calls settle. *)
Definition closeConnection_settle_all (ws : list AwaitClose) (s : State) : State :=
  fold_left (fun st w => closeConnection_settled w st) ws s.

Definition closeAllConnections (env : Env) (s : State) : Settled unit * State :=
  let '(ws, s1) := closeAllConnections_begin env s in
  let s2 := closeConnection_settle_all ws s1 in
  (Resolved tt, logger Log "All tenant connections closed" None s2).

Definition onModuleDestroy (env : Env) (s : State) : Settled unit * State :=
  closeAllConnections env s.

(** ** getConnectionStats *)

Record ConnectionStats := {
  totalConnections : nat;
  activeTenants : list string
}.

Definition getConnectionStats (s : State) : ConnectionStats :=
  {| totalConnections := JsMap.size (connectionCache s);
     activeTenants := JsMap.keys (connectionCache s) |}.

(** ** The idle timer fires

    The callback of [setConnectionTimer] runs [closeConnection] for the
    tenant id it closed over.  A timeout that is no longer queued cannot
    fire. *)
Fixpoint queued (t : nat) (q : list (nat * (string * Z))) : option (string * Z) :=
  match q with
  | [] => None
  | (t', e) :: q' => if Nat.eqb t' t then Some e else queued t q'
  end.

Definition timeout_fires_begin (env : Env) (t : nat) (s : State)
    : option (option AwaitClose * State) :=
  match queued t (timeouts s) with
  | None => None
  | Some (tenantId, _) =>
      Some (closeConnection_begin env tenantId (clearTimeout t s))
  end.

Definition timeout_fires (env : Env) (t : nat) (s : State) : option State :=
  match queued t (timeouts s) with
  | None => None
  | Some (tenantId, _) => Some (snd (closeConnection env tenantId (clearTimeout t s)))
  end.

(** ** Concurrent callers

    Calls in flight are kept as suspended tasks; the event loop either
    starts a call (its first segment runs at once), fires a queued timeout,
    or resumes one suspended task for one segment.  What an awaited
    operation answers is read from the world when the operation is issued
    and handed to the task when it is resumed.  The closes that
    [closeAllConnections] waits for settle in the order of the keys, one per
    resumption, and the call is over one resumption after the last. *)

Inductive GetConnTask :=
| GC_AwaitInfo (w : AwaitInfo)
| GC_AwaitOpen (w : AwaitOpen)
| GC_Done (r : Settled Connection).

Definition start_getTenantConnection (env : Env) (cfg : TenantConfig)
    (tenantId : string) (s : State) : GetConnTask * State :=
  match getTenantConnection_begin env cfg tenantId s with
  | (inl r, s1) => (GC_Done r, s1)
  | (inr w, s1) => (GC_AwaitInfo w, s1)
  end.

Definition resume_getTenantConnection (env : Env) (cfg : TenantConfig)
    (g : GetConnTask) (s : State) : GetConnTask * State :=
  match g with
  | GC_AwaitInfo w =>
      match getTenantConnection_found env cfg w s with
      | (inl r, s1) => (GC_Done r, s1)
      | (inr w', s1) => (GC_AwaitOpen w', s1)
      end
  | GC_AwaitOpen w =>
      let '(r, s1) := getTenantConnection_opened cfg w s in (GC_Done r, s1)
  | GC_Done r => (GC_Done r, s)
  end.

Inductive Task :=
| T_getTenantConnection (g : GetConnTask)
| T_getTenantContext_info (w : AwaitInfo)
| T_getTenantContext_connection (tenantId : string)
    (tenantInfo : TenantConnectionInfo) (g : GetConnTask)
| T_getTenantContext_done (r : Settled TenantContext)
| T_closeConnection (w : option AwaitClose)
| T_closeAllConnections (ws : list AwaitClose)
| T_closeAllConnections_done.

Definition resume (env : Env) (cfg : TenantConfig) (task : Task) (s : State)
    : Task * State :=
  match task with
  | T_getTenantConnection g =>
      let '(g', s1) := resume_getTenantConnection env cfg g s in
      (T_getTenantConnection g', s1)
  | T_getTenantContext_info w =>
      let tenantId := ai_tenantId w in
      let '(tenantInfo, s1) := getTenantInfo_settled tenantId (ai_found w) s in
      match tenantInfo with
      | None =>
          (T_getTenantContext_done (Rejected (TenantNotFoundException tenantId)), s1)
      | Some tenantInfo =>
          let '(g, s2) := start_getTenantConnection env cfg tenantId s1 in
          (T_getTenantContext_connection tenantId tenantInfo g, s2)
      end
  | T_getTenantContext_connection tenantId tenantInfo g =>
      match g with
      | GC_Done (Rejected e) => (T_getTenantContext_done (Rejected e), s)
      | GC_Done (Resolved connection) =>
          (T_getTenantContext_done
             (Resolved {| tenantId := tenantId;
                          tenantInfo := tenantInfo;
                          connection := connection |}), s)
      | _ =>
          let '(g', s1) := resume_getTenantConnection env cfg g s in
          (T_getTenantContext_connection tenantId tenantInfo g', s1)
      end
  | T_getTenantContext_done r => (T_getTenantContext_done r, s)
  | T_closeConnection (Some w) =>
      (T_closeConnection None, closeConnection_settled w s)
  | T_closeConnection None => (T_closeConnection None, s)
  | T_closeAllConnections (w :: ws) =>
      (T_closeAllConnections ws, closeConnection_settled w s)
  | T_closeAllConnections [] =>
      (T_closeAllConnections_done,
       logger Log "All tenant connections closed" None s)
  | T_closeAllConnections_done => (T_closeAllConnections_done, s)
  end.

Inductive Event :=
| Call_getTenantConnection (tenantId : string)
| Call_getTenantContext (tenantId : string)
| Call_closeAllConnections
| Timeout_fires (t : nat)
| Resume (i : nat).

Record System := {
  service : State;
  tasks : list Task
}.

Fixpoint replace_nth {A : Type} (i : nat) (x : A) (l : list A) : list A :=
  match l, i with
  | [], _ => []
  | _ :: l', O => x :: l'
  | y :: l', S i' => y :: replace_nth i' x l'
  end.

Definition step (cfg : TenantConfig) (sys : System) (ee : Env * Event) : System :=
  let '(env, ev) := ee in
  let s := service sys in
  match ev with
  | Call_getTenantConnection tenantId =>
      let '(g, s1) := start_getTenantConnection env cfg tenantId s in
      {| service := s1; tasks := tasks sys ++ [T_getTenantConnection g] |}
  | Call_getTenantContext tenantId =>
      {| service := record_findOne tenantId s;
         tasks := tasks sys ++
           [T_getTenantContext_info
              {| ai_tenantId := tenantId; ai_found := findOne env tenantId |}] |}
  | Call_closeAllConnections =>
      let '(ws, s1) := closeAllConnections_begin env s in
      {| service := s1; tasks := tasks sys ++ [T_closeAllConnections ws] |}
  | Timeout_fires t =>
      match timeout_fires_begin env t s with
      | None => sys
      | Some (w, s1) =>
          {| service := s1; tasks := tasks sys ++ [T_closeConnection w] |}
      end
  | Resume i =>
      match nth_error (tasks sys) i with
      | None => sys
      | Some task =>
          let '(task', s1) := resume env cfg task s in
          {| service := s1; tasks := replace_nth i task' (tasks sys) |}
      end
  end.

Definition run (cfg : TenantConfig) (evs : list (Env * Event)) (sys : System)
    : System :=
  fold_left (step cfg) evs sys.

Definition boot : System := {| service := initialState; tasks := [] |}.

(** ** The connector as [createTenantConnection] uses it *)

(** The object that [createTenantConnection] builds for a tenant, [None]
    when the [switch] falls to [default]. *)
Definition new_connection (cfg : TenantConfig) (tenantInfo : TenantConnectionInfo)
    (oid : nat) : option Connection :=
  if String.eqb (driver cfg) TenancyDriver.MYSQL
     || String.eqb (driver cfg) TenancyDriver.POSTGRESQL then
    Some (DataSource oid (sqlOptions cfg tenantInfo))
  else if String.eqb (driver cfg) TenancyDriver.MONGODB then
    Some (MongoConnection oid (mongoConnectionString tenantInfo)
            (mongoOptions cfg tenantInfo))
  else None.

(** How the backend answers when that object is opened. *)
Definition opens (env : Env) (c : Connection) : option JsError :=
  match c with
  | DataSource _ options => initialize env options
  | MongoConnection _ connectionString options =>
      createConnection env connectionString options
  end.

(** How the backend answers when a cached object is closed. *)
Definition closes (env : Env) (c : Connection) : option JsError :=
  match c with
  | DataSource _ _ => destroy env c
  | MongoConnection _ _ _ => close env c
  end.

Definition supported (d : string) : bool :=
  String.eqb d TenancyDriver.MYSQL
  || String.eqb d TenancyDriver.POSTGRESQL
  || String.eqb d TenancyDriver.MONGODB.

(** ** Sample collaborators used in the examples *)

Definition acme (k : string) (active : bool) : TenantConnectionInfo :=
  {| id := k; name := "Acme"; host := "db.local"; port := 3306;
     username := "app"; password := "secret"; database := "acme";
     schema := None; isActive := active; createdAt := 0; updatedAt := 0;
     connectionOptions := [] |}.

(** A directory that throws for ["boom"], has no row for ["ghost"] and a
    row for every other id; a backend whose opening and closing succeed or
    fail as told. *)
Definition world (active opening closing : bool) : Env :=
  {| findOne := fun k =>
       if String.eqb k "boom" then DirThrows {| message := "ECONNRESET" |}
       else if String.eqb k "ghost" then DirRow None
       else DirRow (Some (acme k active));
     initialize := fun _ =>
       if opening then None else Some {| message := "ECONNREFUSED" |};
     createConnection := fun _ _ =>
       if opening then None else Some {| message := "ECONNREFUSED" |};
     destroy := fun _ =>
       if closing then None else Some {| message := "EPIPE" |};
     close := fun _ =>
       if closing then None else Some {| message := "EPIPE" |} |}.

Definition config (d : string) (caching : option bool) : TenantConfig :=
  {| driver := d; cacheConnections := caching; maxConnections := None;
     connectionTimeout := None; idleTimeout := None |}.

(** ** State invariants *)

(** Both maps have one entry per key, the timer queue has one entry per
    timeout, and every timeout handed out so far is below [nextTimer]. *)
Record WellFormed (s : State) : Prop := {
  wf_cache : NoDup (JsMap.keys (connectionCache s));
  wf_timers : NoDup (JsMap.keys (connectionTimers s));
  wf_queue : NoDup (map fst (timeouts s));
  wf_queue_fresh : forall t e, In (t, e) (timeouts s) -> t < nextTimer s;
  wf_timers_fresh : forall k t, In (k, t) (connectionTimers s) -> t < nextTimer s
}.

(** The cached connections are different objects, all allocated already. *)
Record DistinctObjects (s : State) : Prop := {
  do_fresh : forall c, In c (JsMap.values (connectionCache s)) -> oid_of c < nextOid s;
  do_nodup : NoDup (map oid_of (JsMap.values (connectionCache s)))
}.

(** ** Scenarios *)

(** A series of [getTenantConnection] calls, one after the other, each in
    the world of its time. *)
Definition acquire_all (cfg : TenantConfig) (calls : list (Env * string))
    (s : State) : State :=
  fold_left
    (fun st call => snd (getTenantConnection (fst call) cfg (snd call) st))
    calls s.

(** Does closing this cache entry fail? *)
Definition close_fails (env : Env) (e : string * Connection) : bool :=
  match closes env (snd e) with
  | Some _ => true
  | None => false
  end.

(** The timeouts queued for a tenant id. *)
Definition queued_for (tenantId : string) (s : State) : list nat :=
  map fst (filter (fun e => String.eqb (fst (snd e)) tenantId) (timeouts s)).

(** Nothing cached, no timer registered, no timeout queued. *)
Definition CacheUnused (s : State) : Prop :=
  connectionCache s = [] /\ connectionTimers s = [] /\ timeouts s = [].

(** From [s] to [s'] the timer queue only lost timeouts or gained new ones:
    a timeout of [s'] was already queued in [s] or did not exist then. *)
Definition QueueAdvances (s s' : State) : Prop :=
  nextTimer s <= nextTimer s'
  /\ forall t e, In (t, e) (timeouts s') ->
                 In (t, e) (timeouts s) \/ nextTimer s <= t.

(** [n] callers ask for the same tenant before any of them is resumed; then
    each is resumed once (the directory answered), then each once more (the
    connector answered). *)
Definition cold_burst (env : Env) (tenantId : string) (n : nat)
    : list (Env * Event) :=
  (repeat (env, Call_getTenantConnection tenantId) n
   ++ map (fun i => (env, Resume i)) (seq 0 n)
   ++ map (fun i => (env, Resume i)) (seq 0 n))%list.

(** A list of suspended tasks resumed once each, left to right. *)
Fixpoint resume_all (env : Env) (cfg : TenantConfig) (ts : list Task) (s : State)
    : list Task * State :=
  match ts with
  | [] => ([], s)
  | task :: rest =>
      let '(task', s1) := resume env cfg task s in
      let '(rest', s2) := resume_all env cfg rest s1 in
      (task' :: rest', s2)
  end.

(** The tasks of such a burst: suspended on the directory, suspended on the
    connector for the connection [mk i], and served with it. *)
Definition burst_asked (env : Env) (tenantId : string) : Task :=
  T_getTenantConnection
    (GC_AwaitInfo {| ai_tenantId := tenantId; ai_found := findOne env tenantId |}).

Definition burst_opening (env : Env) (tenantId : string)
    (tenantInfo : TenantConnectionInfo) (mk : nat -> Connection) (i : nat) : Task :=
  T_getTenantConnection
    (GC_AwaitOpen {| ao_tenantId := tenantId; ao_tenantInfo := tenantInfo;
                     ao_connection := mk i; ao_opened := opens env (mk i) |}).

Definition burst_served (mk : nat -> Connection) (i : nat) : Task :=
  T_getTenantConnection (GC_Done (Resolved (mk i))).

(** The connection a caller holds: the one being opened for it, or the one
    it was served with. *)
Definition holds (t : Task) : list Connection :=
  match t with
  | T_getTenantConnection (GC_AwaitOpen w) => [ao_connection w]
  | T_getTenantConnection (GC_Done (Resolved c)) => [c]
  | _ => []
  end.

Definition is_served (t : Task) : bool :=
  match t with
  | T_getTenantConnection (GC_Done (Resolved _)) => true
  | _ => false
  end.

(** What stays true of a burst on a fresh service, whatever the order in
    which its callers are resumed: every task is at one of the three
    stages; the connector was called once for each connection held by a
    caller, and these are exactly the objects allocated so far; and the
    cache entry of the key, once some caller was served, is the connection
    of a served caller. *)
Definition BurstInv (env : Env) (tenantId : string)
    (tenantInfo : TenantConnectionInfo) (mk : nat -> Connection)
    (s : State) (ts : list Task) : Prop :=
  Forall (fun t => t = burst_asked env tenantId
                   \/ exists i, t = burst_opening env tenantId tenantInfo mk i
                                \/ t = burst_served mk i) ts
  /\ openCalls s = map mk (seq 0 (nextOid s))
  /\ Permutation (flat_map holds ts) (map mk (seq 0 (nextOid s)))
  /\ ((exists i, In (burst_served mk i) ts
                 /\ JsMap.get tenantId (connectionCache s) = Some (mk i))
      \/ (JsMap.get tenantId (connectionCache s) = None
          /\ forallb (fun t => negb (is_served t)) ts = true)).

(** * Around the connection service

    The callers of the service (the tenant detection middleware and the
    parameter decorators) and the service that owns the central connection
    it reads the directory from. *)

(** ** Values thrown outside the connection service

    [TenantIdentifierNotFoundException], [CentralDatabaseConnectionException]
    and [TenantConfigMissingException] are the remaining classes of
    exceptions/tenant.exceptions.ts; the decorators and the central service
    also throw plain [Error]s. *)
Inductive Thrown :=
| Thrown_Http (e : HttpException)
| TenantIdentifierNotFoundException (identifierType key : string)
| CentralDatabaseConnectionException (originalError : string)
| TenantConfigMissingException
| Thrown_Error (e : JsError).

(** The HTTP status of what was thrown; a plain [Error] has none. *)
Definition thrown_statusCode (t : Thrown) : option Z :=
  match t with
  | Thrown_Http e => Some (statusCode e)
  | TenantIdentifierNotFoundException _ _ => Some 400%Z
  | CentralDatabaseConnectionException _ => Some 500%Z
  | TenantConfigMissingException => Some 500%Z
  | Thrown_Error _ => None
  end.

Inductive Outcome (A : Type) :=
| Returned (a : A)
| Threw (t : Thrown).

Arguments Returned {A} a.
Arguments Threw {A} t.

Definition of_settled {A : Type} (r : Settled A) : Outcome A :=
  match r with
  | Resolved a => Returned a
  | Rejected e => Threw (Thrown_Http e)
  end.

(** [v || null] on an optional string: [undefined] and [""] give [null]. *)
Definition string_or_null (v : option string) : option string :=
  match v with
  | Some EmptyString => None
  | other => other
  end.

(** ** The request as the middleware and the decorators see it

    [req_headers] is [req.headers] (Node stores the names in lower case),
    [req_query] is [req.query] with string values, [req_path] is [req.path];
    [req_tenantId] and [req_tenantContext] are the two properties the
    middleware adds. *)
Record Request := {
  req_headers : JsMap.t string;
  req_query : JsMap.t string;
  req_path : string;
  req_tenantId : option string;
  req_tenantContext : option TenantContext
}.

Definition lower_ascii (a : Ascii.ascii) : Ascii.ascii :=
  let n := Ascii.nat_of_ascii a in
  if ((65 <=? n)%nat && (n <=? 90)%nat)%bool then Ascii.ascii_of_nat (n + 32) else a.

(** [toLowerCase] on the ASCII letters. *)
Fixpoint toLowerCase (s : string) : string :=
  match s with
  | EmptyString => EmptyString
  | String a rest => String (lower_ascii a) (toLowerCase rest)
  end.

(** Express's [req.get(name)]: the header under the lower-cased name. *)
Definition req_get (req : Request) (headerName : string) : option string :=
  JsMap.get (toLowerCase headerName) (req_headers req).

(** ** middleware: TenantDetectionMiddleware *)

Module TenantIdentifierType.
Definition HEADER := "header".
Definition SUBDOMAIN := "subdomain".
Definition QUERY_PARAM := "query_param".
End TenantIdentifierType.

(** [tenantConfig.tenantIdentifier]. *)
Record TenantIdentifierConfig := {
  identifier_type : string;
  identifier_key : string;
  identifier_pattern : option string
}.

(** What [new RegExp(pattern)] followed by [host.match(regex)] gives: the
    constructor throws, or there is no match, or there is one, whose first
    group may be [undefined]. *)
Inductive RegexResult :=
| RegexInvalid (e : JsError)
| RegexNoMatch
| RegexMatch (group1 : option string).

Definition RegExp := string -> string -> RegexResult.

(** A line of the middleware's own logger. *)
Record MiddlewareLog := {
  mw_level : LogLevel;
  mw_text : string;
  mw_error : option Thrown
}.

Module TenantDetectionMiddleware.

Definition extractFromHeader (req : Request) (headerName : string)
    : option string :=
  string_or_null (JsMap.get (toLowerCase headerName) (req_headers req)).

Definition extractFromSubdomain (regexp : RegExp) (req : Request)
    (pattern : string) : option string * list MiddlewareLog :=
  match string_or_null (req_get req "host") with
  | None => (None, [])
  | Some host =>
      match regexp pattern host with
      | RegexInvalid error =>
          (None,
           [{| mw_level := Error;
               mw_text := "Invalid subdomain pattern: " ++ pattern;
               mw_error := Some (Thrown_Error error) |}])
      | RegexNoMatch => (None, [])
      | RegexMatch group1 => (group1, [])
      end
  end.

Definition extractFromQueryParam (req : Request) (paramName : string)
    : option string :=
  string_or_null (JsMap.get paramName (req_query req)).

Definition extractTenantId (regexp : RegExp) (ident : TenantIdentifierConfig)
    (req : Request) : option string * list MiddlewareLog :=
  if String.eqb (identifier_type ident) TenantIdentifierType.HEADER then
    (extractFromHeader req (identifier_key ident), [])
  else if String.eqb (identifier_type ident) TenantIdentifierType.SUBDOMAIN then
    extractFromSubdomain regexp req
      match string_or_null (identifier_pattern ident) with
      | Some pattern => pattern
      | None => "^([a-zA-Z0-9-]+)\."
      end
  else if String.eqb (identifier_type ident) TenantIdentifierType.QUERY_PARAM then
    (extractFromQueryParam req (identifier_key ident), [])
  else
    (None,
     [{| mw_level := Error;
         mw_text := "Unsupported tenant identifier type: " ++ identifier_type ident;
         mw_error := None |}]).

Definition in_range (lo hi : nat) (a : Ascii.ascii) : bool :=
  ((lo <=? Ascii.nat_of_ascii a)%nat && (Ascii.nat_of_ascii a <=? hi)%nat)%bool.

(** The character class [[a-zA-Z0-9_-]], by character codes: [a-z] is
    97-122, [A-Z] is 65-90, [0-9] is 48-57, [_] is 95 and [-] is 45. *)
Definition tenant_id_char (a : Ascii.ascii) : bool :=
  in_range 97 122 a || in_range 65 90 a || in_range 48 57 a
  || Nat.eqb (Ascii.nat_of_ascii a) 95 || Nat.eqb (Ascii.nat_of_ascii a) 45.

Fixpoint all_chars (p : Ascii.ascii -> bool) (s : string) : bool :=
  match s with
  | EmptyString => true
  | String a rest => p a && all_chars p rest
  end.

(** [/^[a-zA-Z0-9_-]+$/.test(s)]. *)
Definition validPattern_test (s : string) : bool :=
  match s with
  | EmptyString => false
  | String _ _ => all_chars tenant_id_char s
  end.

(** Strings are byte strings here and UTF-16 in JavaScript.  The two
    lengths agree on every string the pattern accepts, and a string whose
    byte length exceeds its UTF-16 length has a character the pattern
    rejects, so the result is the same. *)
Definition isValidTenantId (tenantId : string) : bool :=
  if String.eqb tenantId "" then false
  else if ((String.length tenantId <? 1)%nat || (100 <? String.length tenantId)%nat)%bool
  then false
  else validPattern_test tenantId.

Definition preloadRoutes : list string := ["/api/"; "/graphql"].

Definition shouldPreloadContext (req : Request) : bool :=
  existsb (fun route => String.prefix route (req_path req)) preloadRoutes.

(** What [use] leaves behind: the request, the argument it gave to [next]
    ([None] for a plain [next()]) and the lines it logged. *)
Record Detection := {
  det_request : Request;
  det_next : option Thrown;
  det_logs : list MiddlewareLog
}.

Definition with_tenantId (tenantId : string) (req : Request) : Request :=
  {| req_headers := req_headers req;
     req_query := req_query req;
     req_path := req_path req;
     req_tenantId := Some tenantId;
     req_tenantContext := req_tenantContext req |}.

Definition with_tenantContext (ctx : TenantContext) (req : Request) : Request :=
  {| req_headers := req_headers req;
     req_query := req_query req;
     req_path := req_path req;
     req_tenantId := req_tenantId req;
     req_tenantContext := Some ctx |}.

(** The [catch] block. *)
Definition detection_failed (req : Request) (logged : list MiddlewareLog)
    (error : Thrown) : Detection :=
  {| det_request := req;
     det_next := Some error;
     det_logs := logged ++
       [{| mw_level := Error; mw_text := "Tenant detection failed:";
           mw_error := Some error |}] |}.

(** The end of the [try] block. *)
Definition detected (req : Request) (logged : list MiddlewareLog)
    (tenantId : string) : Detection :=
  {| det_request := req;
     det_next := None;
     det_logs := logged ++
       [{| mw_level := Debug; mw_text := "Tenant detected: " ++ tenantId;
           mw_error := None |}] |}.

(** [use(req, res, next)], run without interruption; [next] itself is taken
    not to throw. *)
Definition use (regexp : RegExp) (env : Env) (cfg : TenantConfig)
    (ident : TenantIdentifierConfig) (req : Request) (s : State)
    : Detection * State :=
  let '(extracted, logged) := extractTenantId regexp ident req in
  match string_or_null extracted with
  | None =>
      (detection_failed req logged
         (TenantIdentifierNotFoundException (identifier_type ident)
            (identifier_key ident)), s)
  | Some tenantId =>
      if negb (isValidTenantId tenantId) then
        (detection_failed req logged
           (Thrown_Http (InvalidTenantIdException tenantId)), s)
      else
        let req1 := with_tenantId tenantId req in
        if shouldPreloadContext req1 then
          match getTenantContext env cfg tenantId s with
          | (Rejected e, s1) =>
              (detection_failed req1 logged (Thrown_Http e), s1)
          | (Resolved ctx, s1) =>
              (detected (with_tenantContext ctx req1) logged tenantId, s1)
          end
        else (detected req1 logged tenantId, s)
  end.

End TenantDetectionMiddleware.

(** ** decorators/inject-tenant-connection.decorator.ts

    The callbacks given to [createParamDecorator].  [provided] tells whether
    [app.get(TenantConnectionService)] yields the service. *)

Definition tenant_id_missing : JsError :=
  {| message := "Tenant ID not found in request. Make sure TenantDetectionMiddleware is properly configured." |}.

Definition service_missing : JsError :=
  {| message := "TenantConnectionService not found. Make sure TenancyModule is properly imported." |}.

Definition InjectTenantConnection (provided : bool) (env : Env)
    (cfg : TenantConfig) (request : Request) (s : State)
    : Outcome Connection * State :=
  match string_or_null (req_tenantId request) with
  | None => (Threw (Thrown_Error tenant_id_missing), s)
  | Some tenantId =>
      if negb provided then (Threw (Thrown_Error service_missing), s)
      else
        let '(r, s1) := getTenantConnection env cfg tenantId s in
        (of_settled r, s1)
  end.

Definition InjectTenantContext (provided : bool) (env : Env)
    (cfg : TenantConfig) (request : Request) (s : State)
    : Outcome TenantContext * State :=
  match string_or_null (req_tenantId request) with
  | None => (Threw (Thrown_Error tenant_id_missing), s)
  | Some tenantId =>
      match req_tenantContext request with
      | Some ctx => (Returned ctx, s)
      | None =>
          if negb provided then (Threw (Thrown_Error service_missing), s)
          else
            let '(r, s1) := getTenantContext env cfg tenantId s in
            (of_settled r, s1)
      end
  end.

Definition InjectTenantId (request : Request) : Outcome string :=
  match string_or_null (req_tenantId request) with
  | None => Threw (Thrown_Error tenant_id_missing)
  | Some tenantId => Returned tenantId
  end.

Definition InjectTenantInfo (provided : bool) (env : Env)
    (cfg : TenantConfig) (request : Request) (s : State)
    : Outcome TenantConnectionInfo * State :=
  match string_or_null (req_tenantId request) with
  | None => (Threw (Thrown_Error tenant_id_missing), s)
  | Some tenantId =>
      match req_tenantContext request with
      | Some ctx => (Returned (tenantInfo ctx), s)
      | None =>
          if negb provided then (Threw (Thrown_Error service_missing), s)
          else
            match getTenantContext env cfg tenantId s with
            | (Rejected e, s1) => (Threw (Thrown_Http e), s1)
            | (Resolved context, s1) => (Returned (tenantInfo context), s1)
            end
      end
  end.

(** ** Calls of the connection service, one after the other *)

Inductive Op :=
| Op_getTenantConnection (tenantId : string)
| Op_getTenantContext (tenantId : string)
| Op_timeout (t : nat).

Definition perform (cfg : TenantConfig) (s : State) (eo : Env * Op) : State :=
  match snd eo with
  | Op_getTenantConnection tenantId =>
      snd (getTenantConnection (fst eo) cfg tenantId s)
  | Op_getTenantContext tenantId =>
      snd (getTenantContext (fst eo) cfg tenantId s)
  | Op_timeout t =>
      match timeout_fires (fst eo) t s with
      | Some s' => s'
      | None => s
      end
  end.

Definition perform_all (cfg : TenantConfig) (ops : list (Env * Op)) (s : State)
    : State :=
  fold_left (perform cfg) ops s.

(** Every queued timeout is the one registered for its tenant, and only
    cached tenants have a registered timeout. *)
Definition TimersTidy (s : State) : Prop :=
  (forall t k d, In (t, (k, d)) (timeouts s) ->
                 JsMap.get k (connectionTimers s) = Some t)
  /\ (forall k, JsMap.get k (connectionCache s) = None ->
                JsMap.get k (connectionTimers s) = None).

(** ** services/central-database.service.ts *)

(** [CentralDatabaseConfig], that is [tenantConfig.centralDb]. *)
Record CentralDatabaseConfig := {
  central_host : string;
  central_port : Z;
  central_username : string;
  central_password : string;
  central_database : string;
  central_ssl : option bool;
  central_extra : option (list (string * string))
}.

(** The entity schema literal of [getTenantEntity]. *)
Inductive ColumnDefault :=
| DefaultValue (b : bool)
| DefaultFunction (returns : string).

Record EntityColumn := {
  column_name : string;
  column_type : string;
  column_length : option Z;
  column_primary : option bool;
  column_nullable : option bool;
  column_default : option ColumnDefault;
  column_onUpdate : option string
}.

Record EntityIndex := {
  index_name : string;
  index_columns : list string
}.

Record EntitySchema := {
  entity_name : string;
  entity_columns : list EntityColumn;
  entity_indices : list EntityIndex
}.

(** Options handed to [new DataSource(...)] for the central connection. *)
Record CentralOptions := {
  co_type : string;
  co_host : string;
  co_port : Z;
  co_username : string;
  co_password : string;
  co_database : string;
  co_entities : list EntitySchema;
  co_poolSize : Z;
  co_connectTimeoutMS : Z;
  co_ssl : option bool;
  co_extra : option (list (string * string))
}.

(** The central [DataSource] object: its options and its [isInitialized]
    flag, which TypeORM sets when [initialize()] resolves and clears when
    [destroy()] resolves. *)
Record CentralDataSource := {
  cds_options : CentralOptions;
  isInitialized : bool
}.

(** The database behind the central connection.  [central_hasTable] also
    stands for a throwing [createQueryRunner()], which the code handles in
    the same [catch]. *)
Record CentralEnv := {
  central_initialize : CentralOptions -> option JsError;
  central_hasTable : string -> JsError + bool;
  central_query : string -> option JsError;
  central_release : option JsError;
  central_destroy : option JsError
}.

(** The private field [dataSource] of the class, its logger, and what it
    did to the database: the statements run, the query runners released and
    the calls of [destroy()]. *)
Record CentralState := {
  dataSource : option CentralDataSource;
  central_logs : list LogLine;
  statements : list string;
  releases : nat;
  destroys : nat
}.

Definition central_start : CentralState :=
  {| dataSource := None; central_logs := []; statements := [];
     releases := 0; destroys := 0 |}.

Definition double_quote : string := String (Ascii.ascii_of_nat 34) EmptyString.

Definition mysql_create_table : string :=
  "
        CREATE TABLE tenants (
          id VARCHAR(100) PRIMARY KEY,
          name VARCHAR(255) NOT NULL,
          host VARCHAR(255) NOT NULL,
          port INT NOT NULL,
          username VARCHAR(100) NOT NULL,
          password VARCHAR(255) NOT NULL,
          `database` VARCHAR(100) NOT NULL,
          `schema` VARCHAR(100) NULL,
          isActive BOOLEAN DEFAULT TRUE,
          createdAt TIMESTAMP DEFAULT CURRENT_TIMESTAMP,
          updatedAt TIMESTAMP DEFAULT CURRENT_TIMESTAMP ON UPDATE CURRENT_TIMESTAMP,
          metadata JSON NULL,
          INDEX IDX_TENANT_ACTIVE (isActive),
          INDEX IDX_TENANT_NAME (name)
        ) ENGINE=InnoDB DEFAULT CHARSET=utf8mb4 COLLATE=utf8mb4_unicode_ci;
      ".

Definition postgres_create_table : string :=
  "
        CREATE TABLE tenants (
          id VARCHAR(100) PRIMARY KEY,
          name VARCHAR(255) NOT NULL,
          host VARCHAR(255) NOT NULL,
          port INTEGER NOT NULL,
          username VARCHAR(100) NOT NULL,
          password VARCHAR(255) NOT NULL,
          "
  ++ double_quote ++
  "database"
  ++ double_quote ++
  " VARCHAR(100) NOT NULL,
          "
  ++ double_quote ++
  "schema"
  ++ double_quote ++
  " VARCHAR(100),
          "
  ++ double_quote ++
  "isActive"
  ++ double_quote ++
  " BOOLEAN DEFAULT TRUE,
          "
  ++ double_quote ++
  "createdAt"
  ++ double_quote ++
  " TIMESTAMP DEFAULT CURRENT_TIMESTAMP,
          "
  ++ double_quote ++
  "updatedAt"
  ++ double_quote ++
  " TIMESTAMP DEFAULT CURRENT_TIMESTAMP,
          metadata JSONB,
          CONSTRAINT idx_tenant_active CHECK ("
  ++ double_quote ++
  "isActive"
  ++ double_quote ++
  " IN (TRUE, FALSE))
        );
        
        CREATE INDEX IDX_TENANT_ACTIVE ON tenants ("
  ++ double_quote ++
  "isActive"
  ++ double_quote ++
  ");
        CREATE INDEX IDX_TENANT_NAME ON tenants (name);
        
        CREATE OR REPLACE FUNCTION update_updated_at_column()
        RETURNS TRIGGER AS $$
        BEGIN
          NEW."
  ++ double_quote ++
  "updatedAt"
  ++ double_quote ++
  " = CURRENT_TIMESTAMP;
          RETURN NEW;
        END;
        $$ language 'plpgsql';
        
        CREATE TRIGGER update_tenants_updated_at
          BEFORE UPDATE ON tenants
          FOR EACH ROW
          EXECUTE FUNCTION update_updated_at_column();
      ".

Module CentralDatabaseService.

Definition central_log (lv : LogLevel) (msg : string) (d : option JsError)
    (st : CentralState) : CentralState :=
  {| dataSource := dataSource st;
     central_logs := central_logs st ++ [{| level := lv; text := msg; detail := d |}];
     statements := statements st;
     releases := releases st;
     destroys := destroys st |}.

Definition set_dataSource (ds : option CentralDataSource) (st : CentralState)
    : CentralState :=
  {| dataSource := ds;
     central_logs := central_logs st;
     statements := statements st;
     releases := releases st;
     destroys := destroys st |}.

Definition getDatabaseType (cfg : TenantConfig) : JsError + string :=
  if String.eqb (driver cfg) TenancyDriver.MYSQL then inr "mysql"
  else if String.eqb (driver cfg) TenancyDriver.POSTGRESQL then inr "postgres"
  else inl {| message := "Unsupported driver for central database: " ++ driver cfg |}.

Definition plain_column (n ty : string) (len : option Z) (nullable : option bool)
    : EntityColumn :=
  {| column_name := n; column_type := ty; column_length := len;
     column_primary := None; column_nullable := nullable;
     column_default := None; column_onUpdate := None |}.

Definition getTenantEntity : EntitySchema :=
  {| entity_name := "tenants";
     entity_columns :=
       [ {| column_name := "id"; column_type := "varchar";
            column_length := Some 100%Z; column_primary := Some true;
            column_nullable := None; column_default := None;
            column_onUpdate := None |};
         plain_column "name" "varchar" (Some 255%Z) (Some false);
         plain_column "host" "varchar" (Some 255%Z) (Some false);
         plain_column "port" "int" None (Some false);
         plain_column "username" "varchar" (Some 100%Z) (Some false);
         plain_column "password" "varchar" (Some 255%Z) (Some false);
         plain_column "database" "varchar" (Some 100%Z) (Some false);
         plain_column "schema" "varchar" (Some 100%Z) (Some true);
         {| column_name := "isActive"; column_type := "boolean";
            column_length := None; column_primary := None;
            column_nullable := None;
            column_default := Some (DefaultValue true);
            column_onUpdate := None |};
         {| column_name := "createdAt"; column_type := "timestamp";
            column_length := None; column_primary := None;
            column_nullable := None;
            column_default := Some (DefaultFunction "CURRENT_TIMESTAMP");
            column_onUpdate := None |};
         {| column_name := "updatedAt"; column_type := "timestamp";
            column_length := None; column_primary := None;
            column_nullable := None;
            column_default := Some (DefaultFunction "CURRENT_TIMESTAMP");
            column_onUpdate := Some "CURRENT_TIMESTAMP" |};
         plain_column "metadata" "json" None (Some true) ];
     entity_indices :=
       [ {| index_name := "IDX_TENANT_ACTIVE"; index_columns := ["isActive"] |};
         {| index_name := "IDX_TENANT_NAME"; index_columns := ["name"] |} ] |}.

(** The [catch] of [createCentralConnection]. *)
Definition connection_failed (error : JsError) (st : CentralState)
    : Outcome unit * CentralState :=
  (Threw (CentralDatabaseConnectionException (message error)),
   central_log Error "Failed to connect to central database:" (Some error) st).

(** [getDatabaseType()] is evaluated while the options literal is built,
    so when it throws no [DataSource] is constructed and the field keeps
    its value; otherwise the field is assigned before [initialize()] is
    awaited. *)
Definition createCentralConnection (w : CentralEnv) (cfg : TenantConfig)
    (config : CentralDatabaseConfig) (st : CentralState)
    : Outcome unit * CentralState :=
  match getDatabaseType cfg with
  | inl error => connection_failed error st
  | inr type =>
      let options :=
        {| co_type := type;
           co_host := central_host config;
           co_port := central_port config;
           co_username := central_username config;
           co_password := central_password config;
           co_database := central_database config;
           co_entities := [getTenantEntity];
           co_poolSize := DEFAULT_CONNECTION_POOL_SIZE;
           co_connectTimeoutMS := DEFAULT_CONNECTION_TIMEOUT;
           co_ssl := central_ssl config;
           co_extra := central_extra config |} in
      let st1 :=
        set_dataSource
          (Some {| cds_options := options; isInitialized := false |}) st in
      match central_initialize w options with
      | Some error => connection_failed error st1
      | None =>
          (Returned tt,
           central_log Log "Central database connection established" None
             (set_dataSource
                (Some {| cds_options := options; isInitialized := true |}) st1))
      end
  end.

Definition getCreateTableQuery (cfg : TenantConfig) : JsError + string :=
  match getDatabaseType cfg with
  | inl error => inl error
  | inr dbType =>
      if String.eqb dbType "mysql" then inr mysql_create_table
      else inr postgres_create_table
  end.

Definition not_established : JsError :=
  {| message := "Central database connection not established" |}.

(** The [catch] of [ensureTenantsTable]: the error is logged and thrown
    again as it is. *)
Definition ensure_failed (error : JsError) (st : CentralState)
    : Outcome unit * CentralState :=
  (Threw (Thrown_Error error),
   central_log Error "Failed to ensure tenants table:" (Some error) st).

Definition release_runner (w : CentralEnv) (st : CentralState)
    : Outcome unit * CentralState :=
  let st1 :=
    {| dataSource := dataSource st;
       central_logs := central_logs st;
       statements := statements st;
       releases := S (releases st);
       destroys := destroys st |} in
  match central_release w with
  | Some error => ensure_failed error st1
  | None => (Returned tt, st1)
  end.

Definition run_statement (q : string) (st : CentralState) : CentralState :=
  {| dataSource := dataSource st;
     central_logs := central_logs st;
     statements := statements st ++ [q];
     releases := releases st;
     destroys := destroys st |}.

Definition ensureTenantsTable (w : CentralEnv) (cfg : TenantConfig)
    (st : CentralState) : Outcome unit * CentralState :=
  match dataSource st with
  | None => (Threw (Thrown_Error not_established), st)
  | Some _ =>
      match central_hasTable w "tenants" with
      | inl error => ensure_failed error st
      | inr true =>
          release_runner w
            (central_log Debug "Tenants table already exists" None st)
      | inr false =>
          let st1 := central_log Log "Creating tenants table..." None st in
          match getCreateTableQuery cfg with
          | inl error => ensure_failed error st1
          | inr createTableQuery =>
              let st2 := run_statement createTableQuery st1 in
              match central_query w createTableQuery with
              | Some error => ensure_failed error st2
              | None =>
                  release_runner w
                    (central_log Log "Tenants table created successfully" None
                       st2)
              end
          end
      end
  end.

Definition onModuleInit (w : CentralEnv) (cfg : TenantConfig)
    (config : CentralDatabaseConfig) (st : CentralState)
    : Outcome unit * CentralState :=
  match createCentralConnection w cfg config st with
  | (Threw t, st1) => (Threw t, st1)
  | (Returned _, st1) => ensureTenantsTable w cfg st1
  end.

Definition getConnection (st : CentralState) : Outcome CentralDataSource :=
  match dataSource st with
  | None => Threw (Thrown_Error not_established)
  | Some ds => Returned ds
  end.

(** [closeConnection]: [destroy()] is awaited outside any [try], so its
    error reaches the caller as it is. *)
Definition closeConnection (w : CentralEnv) (st : CentralState)
    : Outcome unit * CentralState :=
  match dataSource st with
  | Some ds =>
      if isInitialized ds then
        let st1 :=
          {| dataSource := dataSource st;
             central_logs := central_logs st;
             statements := statements st;
             releases := releases st;
             destroys := S (destroys st) |} in
        match central_destroy w with
        | Some error => (Threw (Thrown_Error error), st1)
        | None =>
            (Returned tt,
             central_log Log "Central database connection closed" None
               (set_dataSource
                  (Some {| cds_options := cds_options ds;
                           isInitialized := false |}) st1))
        end
      else (Returned tt, st)
  | None => (Returned tt, st)
  end.

End CentralDatabaseService.

(** A central database that behaves as told. *)
Definition central_world (connects : bool) (table : JsError + bool)
    (creates releases_ok destroys_ok : bool) : CentralEnv :=
  {| central_initialize := fun _ =>
       if connects then None else Some {| message := "ECONNREFUSED" |};
     central_hasTable := fun _ => table;
     central_query := fun _ =>
       if creates then None else Some {| message := "ER_TABLEACCESS_DENIED" |};
     central_release :=
       if releases_ok then None else Some {| message := "release failed" |};
     central_destroy :=
       if destroys_ok then None else Some {| message := "EPIPE" |} |}.

Definition central_config : CentralDatabaseConfig :=
  {| central_host := "central.local"; central_port := 3306;
     central_username := "root"; central_password := "secret";
     central_database := "tenancy"; central_ssl := None;
     central_extra := None |}.

(** A request with one header. *)
Definition request_with (header value path : string) : Request :=
  {| req_headers := [(header, value)]; req_query := []; req_path := path;
     req_tenantId := None; req_tenantContext := None |}.

Definition by_header (key : string) : TenantIdentifierConfig :=
  {| identifier_type := TenantIdentifierType.HEADER; identifier_key := key;
     identifier_pattern := None |}.

(** A regular expression engine that never matches. *)
Definition no_regexp : RegExp := fun _ _ => RegexNoMatch.

(** * Properties *)

(** ** Facts about [JsMap] *)

Lemma NoDup_snoc (A : Type) (x : A) (l : list A) :
  NoDup l -> ~ In x l -> NoDup (l ++ [x]).
Proof.
  induction l as [|y l IH]; simpl; intros Hnd Hni.
  - constructor; [intros [] | constructor].
  - inversion Hnd as [|? ? Hy Hl]; subst. constructor.
    + rewrite in_app_iff. simpl. intros [I|[E|[]]]; [contradiction|].
      apply Hni. now left.
    + apply IH; [exact Hl | intros I; apply Hni; now right].
Qed.

Module JsMapFacts.
Section Facts.
Context {V : Type}.
Implicit Types (m : JsMap.t V) (k : string) (v : V).

Lemma has_get k m : JsMap.has k m = true <-> exists v, JsMap.get k m = Some v.
Proof.
  unfold JsMap.has. destruct (JsMap.get k m) as [v|].
  - split; [eauto | reflexivity].
  - split; [discriminate | intros [v H]; discriminate].
Qed.

Lemma get_In k v m : JsMap.get k m = Some v -> In (k, v) m.
Proof.
  induction m as [|[k' v'] m IH]; simpl; [discriminate|].
  destruct (String.eqb_spec k k') as [->|Hne].
  - intros [= ->]. now left.
  - intros H. right. auto.
Qed.

Lemma get_None_keys k m : JsMap.get k m = None <-> ~ In k (JsMap.keys m).
Proof.
  induction m as [|[k' v'] m IH]; simpl.
  - split; [intros _ [] | reflexivity].
  - destruct (String.eqb_spec k k') as [->|Hne].
    + split; [discriminate | intros H; exfalso; apply H; now left].
    + rewrite IH. split.
      * intros H [E|I]; [congruence | contradiction].
      * intros H I. apply H. now right.
Qed.

Lemma In_get k v m :
  NoDup (JsMap.keys m) -> In (k, v) m -> JsMap.get k m = Some v.
Proof.
  induction m as [|[k' v'] m IH]; simpl; [intros _ []|].
  intros Hnd [E|I].
  - injection E as -> ->. now rewrite String.eqb_refl.
  - inversion Hnd as [|? ? Hni Hnd']; subst.
    destruct (String.eqb_spec k k') as [->|Hne].
    + exfalso. apply Hni. apply (in_map fst) in I. exact I.
    + auto.
Qed.

Lemma get_set_same k v m : JsMap.get k (JsMap.set k v m) = Some v.
Proof.
  induction m as [|[k' v'] m IH]; simpl.
  - now rewrite String.eqb_refl.
  - destruct (String.eqb_spec k k') as [->|Hne]; simpl.
    + now rewrite String.eqb_refl.
    + destruct (String.eqb_spec k k'); [contradiction | exact IH].
Qed.

Lemma get_set_other k k' v m :
  k <> k' -> JsMap.get k' (JsMap.set k v m) = JsMap.get k' m.
Proof.
  intros Hne. induction m as [|[k0 v0] m IH]; simpl.
  - destruct (String.eqb_spec k' k); [congruence | reflexivity].
  - destruct (String.eqb_spec k k0) as [->|Hne0]; simpl.
    + destruct (String.eqb_spec k' k0); [congruence | reflexivity].
    + destruct (String.eqb_spec k' k0); [reflexivity | exact IH].
Qed.

Lemma keys_set k v m :
  JsMap.keys (JsMap.set k v m) =
  if JsMap.has k m then JsMap.keys m else (JsMap.keys m ++ [k])%list.
Proof.
  unfold JsMap.has.
  induction m as [|[k' v'] m IH]; simpl; [reflexivity|].
  destruct (String.eqb_spec k k') as [->|Hne]; simpl; [reflexivity|].
  rewrite IH. now destruct (JsMap.get k m).
Qed.

Lemma NoDup_keys_set k v m :
  NoDup (JsMap.keys m) -> NoDup (JsMap.keys (JsMap.set k v m)).
Proof.
  intros Hnd. rewrite keys_set. unfold JsMap.has.
  destruct (JsMap.get k m) eqn:E; [exact Hnd|].
  apply get_None_keys in E. now apply NoDup_snoc.
Qed.

Lemma In_set k v k' v' m :
  In (k', v') (JsMap.set k v m) -> (k' = k /\ v' = v) \/ In (k', v') m.
Proof.
  induction m as [|[k0 v0] m IH]; simpl.
  - intros [E|[]]. injection E as <- <-. now left.
  - destruct (String.eqb_spec k k0) as [->|Hne]; simpl.
    + intros [E|I]; [injection E as <- <-; now left | right; now right].
    + intros [E|I]; [right; now left|].
      destruct (IH I) as [H|H]; [now left | right; now right].
Qed.

Lemma delete_filter k m :
  JsMap.delete k m = filter (fun e => negb (String.eqb k (fst e))) m.
Proof.
  induction m as [|[k' v'] m IH]; simpl; [reflexivity|].
  destruct (String.eqb k k'); simpl; now rewrite IH.
Qed.

Lemma In_delete k k' v' m :
  In (k', v') (JsMap.delete k m) <-> In (k', v') m /\ k' <> k.
Proof.
  rewrite delete_filter, filter_In. simpl.
  destruct (String.eqb_spec k k') as [->|Hne]; simpl.
  - split; [intros [_ H]; discriminate | intros [_ H]; congruence].
  - split; [intros [H _]; split; [exact H | congruence] | intros [H _]; now split].
Qed.

Lemma get_delete_same k m : JsMap.get k (JsMap.delete k m) = None.
Proof.
  induction m as [|[k' v'] m IH]; simpl; [reflexivity|].
  destruct (String.eqb_spec k k') as [->|Hne]; simpl; [exact IH|].
  destruct (String.eqb_spec k k'); [contradiction | exact IH].
Qed.

Lemma get_delete_other k k' m :
  k <> k' -> JsMap.get k' (JsMap.delete k m) = JsMap.get k' m.
Proof.
  intros Hne. induction m as [|[k0 v0] m IH]; simpl; [reflexivity|].
  destruct (String.eqb_spec k k0) as [->|Hne0]; simpl.
  - destruct (String.eqb_spec k' k0); [congruence | exact IH].
  - destruct (String.eqb_spec k' k0); [reflexivity | exact IH].
Qed.

Lemma keys_delete k m :
  JsMap.keys (JsMap.delete k m) =
  filter (fun k' => negb (String.eqb k k')) (JsMap.keys m).
Proof.
  induction m as [|[k' v'] m IH]; simpl; [reflexivity|].
  destruct (String.eqb k k'); simpl; now rewrite IH.
Qed.

Lemma NoDup_keys_delete k m :
  NoDup (JsMap.keys m) -> NoDup (JsMap.keys (JsMap.delete k m)).
Proof. intros H. rewrite keys_delete. now apply NoDup_filter. Qed.

Lemma delete_absent k m : JsMap.get k m = None -> JsMap.delete k m = m.
Proof.
  induction m as [|[k' v'] m IH]; simpl; [reflexivity|].
  destruct (String.eqb k k'); [discriminate|].
  intros H. now rewrite IH.
Qed.
End Facts.
End JsMapFacts.

(** ** The segments, characterised *)

Ltac ssimpl :=
  cbn [fst snd negb connectionCache connectionTimers timeouts nextTimer nextOid
       findOneCalls openCalls closeCalls logs logger record_findOne
       record_open record_close with_cache with_timers with_timeouts
       ai_tenantId ai_found ao_tenantId ao_tenantInfo ao_connection ao_opened
       acl_tenantId acl_connection acl_closed] in *.

Lemma createTenantConnection_begin_spec env cfg tenantInfo s :
  createTenantConnection_begin env cfg tenantInfo s =
  match new_connection cfg tenantInfo (nextOid s) with
  | Some c => (inr (c, opens env c), record_open c s)
  | None =>
      (inl (Rejected (TenantConnectionException (id tenantInfo)
                        ("Unsupported driver: " ++ driver cfg))),
       logger Error ("Failed to create connection for tenant " ++ id tenantInfo ++ ":")
         (Some {| message := "Unsupported driver: " ++ driver cfg |}) s)
  end.
Proof.
  unfold createTenantConnection_begin, new_connection.
  destruct (_ || _); [reflexivity|].
  destruct (String.eqb _ _); reflexivity.
Qed.

Lemma new_connection_supported cfg tenantInfo n :
  new_connection cfg tenantInfo n = None <-> supported (driver cfg) = false.
Proof.
  unfold new_connection, supported.
  destruct (String.eqb (driver cfg) TenancyDriver.MYSQL),
    (String.eqb (driver cfg) TenancyDriver.POSTGRESQL),
    (String.eqb (driver cfg) TenancyDriver.MONGODB); simpl;
    split; intros H; try reflexivity; discriminate.
Qed.

Lemma new_connection_oid cfg tenantInfo n c :
  new_connection cfg tenantInfo n = Some c -> oid_of c = n.
Proof.
  unfold new_connection.
  destruct (_ || _); [intros [= <-]; reflexivity|].
  destruct (String.eqb _ _); [intros [= <-]; reflexivity | discriminate].
Qed.

Lemma cached_None_of_has cfg tenantId s :
  JsMap.has tenantId (connectionCache s) = false -> cached cfg tenantId s = None.
Proof.
  unfold cached, JsMap.has. destruct (truthy _); [|reflexivity].
  destruct (JsMap.get _ _); [discriminate | reflexivity].
Qed.

Lemma cached_iff cfg tenantId s :
  (exists c, cached cfg tenantId s = Some c) <->
  truthy (cacheConnections cfg) && JsMap.has tenantId (connectionCache s) = true.
Proof.
  unfold cached, JsMap.has. destruct (truthy _); simpl.
  - destruct (JsMap.get _ _); split; eauto; try discriminate.
    intros [c H]; discriminate.
  - split; [intros [c H]; discriminate | discriminate].
Qed.

(** ** Directory misses *)

(** C10. With no cache entry for the key, [getTenantConnection] fails with
    [TenantNotFoundException] when the directory has no row, and equally
    when the directory lookup throws: the thrown error is logged by
    [getTenantInfo] and does not reach the caller.  The connector is not
    called and nothing is cached. *)
Theorem directory_miss_is_TenantNotFound :
  forall env cfg tenantId s,
    JsMap.has tenantId (connectionCache s) = false ->
    (findOne env tenantId = DirRow None \/
     exists e, findOne env tenantId = DirThrows e) ->
    fst (getTenantConnection env cfg tenantId s)
      = Rejected (TenantNotFoundException tenantId)
    /\ openCalls (snd (getTenantConnection env cfg tenantId s)) = openCalls s
    /\ connectionCache (snd (getTenantConnection env cfg tenantId s))
       = connectionCache s
    /\ timeouts (snd (getTenantConnection env cfg tenantId s)) = timeouts s.
Proof.
  intros env cfg tenantId s Hmiss Hdir.
  apply (cached_None_of_has cfg) in Hmiss.
  unfold getTenantConnection, getTenantConnection_begin. rewrite Hmiss.
  unfold getTenantConnection_found, getTenantInfo_settled. simpl.
  destruct Hdir as [-> | [e ->]]; simpl; repeat split; reflexivity.
Qed.

Lemma directory_miss_is_TenantNotFound_witness :
  fst (getTenantConnection (world true true true) (config "mysql" (Some true))
         "boom" initialState)
  = Rejected (TenantNotFoundException "boom").
Proof.
  apply (directory_miss_is_TenantNotFound (world true true true)
           (config "mysql" (Some true)) "boom" initialState).
  - reflexivity.
  - right. exists {| message := "ECONNRESET" |}. reflexivity.
Defined.

(** The timer functions touch the timer map, the queue and the timer
    counter only. *)
Lemma resetConnectionTimer_cache cfg tenantId s :
  connectionCache (resetConnectionTimer cfg tenantId s) = connectionCache s.
Proof.
  unfold resetConnectionTimer.
  destruct (JsMap.get tenantId (connectionTimers s)); reflexivity.
Qed.

Lemma resetConnectionTimer_openCalls cfg tenantId s :
  openCalls (resetConnectionTimer cfg tenantId s) = openCalls s.
Proof.
  unfold resetConnectionTimer.
  destruct (JsMap.get tenantId (connectionTimers s)); reflexivity.
Qed.

Lemma resetConnectionTimer_closeCalls cfg tenantId s :
  closeCalls (resetConnectionTimer cfg tenantId s) = closeCalls s.
Proof.
  unfold resetConnectionTimer.
  destruct (JsMap.get tenantId (connectionTimers s)); reflexivity.
Qed.

Lemma resetConnectionTimer_findOneCalls cfg tenantId s :
  findOneCalls (resetConnectionTimer cfg tenantId s) = findOneCalls s.
Proof.
  unfold resetConnectionTimer.
  destruct (JsMap.get tenantId (connectionTimers s)); reflexivity.
Qed.

Lemma resetConnectionTimer_nextOid cfg tenantId s :
  nextOid (resetConnectionTimer cfg tenantId s) = nextOid s.
Proof.
  unfold resetConnectionTimer.
  destruct (JsMap.get tenantId (connectionTimers s)); reflexivity.
Qed.

Lemma setConnectionTimer_cache cfg tenantId s :
  connectionCache (setConnectionTimer cfg tenantId s) = connectionCache s.
Proof. reflexivity. Qed.

Lemma setConnectionTimer_openCalls cfg tenantId s :
  openCalls (setConnectionTimer cfg tenantId s) = openCalls s.
Proof. reflexivity. Qed.

Lemma setConnectionTimer_closeCalls cfg tenantId s :
  closeCalls (setConnectionTimer cfg tenantId s) = closeCalls s.
Proof. reflexivity. Qed.

Lemma setConnectionTimer_nextOid cfg tenantId s :
  nextOid (setConnectionTimer cfg tenantId s) = nextOid s.
Proof. reflexivity. Qed.

Create Rewrite HintDb service.

#[local] Hint Rewrite resetConnectionTimer_cache resetConnectionTimer_openCalls
  resetConnectionTimer_closeCalls resetConnectionTimer_findOneCalls
  resetConnectionTimer_nextOid setConnectionTimer_cache
  setConnectionTimer_openCalls setConnectionTimer_closeCalls
  setConnectionTimer_nextOid : service.

Ltac frame := ssimpl; autorewrite with service; ssimpl.

(** ** One uninterrupted call, case by case *)

Lemma getTenantConnection_hit env cfg tenantId s c :
  cached cfg tenantId s = Some c ->
  getTenantConnection env cfg tenantId s =
  (Resolved c,
   resetConnectionTimer cfg tenantId
     (logger Debug ("Using cached connection for tenant: " ++ tenantId) None s)).
Proof.
  intros H. unfold getTenantConnection, getTenantConnection_begin.
  now rewrite H.
Qed.

Lemma getTenantConnection_inactive env cfg tenantId s tenantInfo :
  cached cfg tenantId s = None ->
  findOne env tenantId = DirRow (Some tenantInfo) ->
  isActive tenantInfo = false ->
  getTenantConnection env cfg tenantId s =
  (Rejected (TenantInactiveException tenantId), record_findOne tenantId s).
Proof.
  intros Hc Hd Ha. unfold getTenantConnection, getTenantConnection_begin.
  rewrite Hc. unfold getTenantConnection_found, getTenantInfo_settled. simpl.
  rewrite Hd, Ha. reflexivity.
Qed.

Lemma getTenantConnection_unsupported env cfg tenantId s tenantInfo :
  cached cfg tenantId s = None ->
  findOne env tenantId = DirRow (Some tenantInfo) ->
  isActive tenantInfo = true ->
  supported (driver cfg) = false ->
  getTenantConnection env cfg tenantId s =
  (Rejected (TenantConnectionException (id tenantInfo)
               ("Unsupported driver: " ++ driver cfg)),
   logger Error ("Failed to create connection for tenant " ++ id tenantInfo ++ ":")
     (Some {| message := "Unsupported driver: " ++ driver cfg |})
     (record_findOne tenantId s)).
Proof.
  intros Hc Hd Ha Hs. unfold getTenantConnection, getTenantConnection_begin.
  rewrite Hc. unfold getTenantConnection_found, getTenantInfo_settled. simpl.
  rewrite Hd, Ha. simpl. rewrite createTenantConnection_begin_spec.
  apply (new_connection_supported cfg tenantInfo
           (nextOid (record_findOne tenantId s))) in Hs.
  now rewrite Hs.
Qed.

Lemma getTenantConnection_connects env cfg tenantId s tenantInfo c :
  cached cfg tenantId s = None ->
  findOne env tenantId = DirRow (Some tenantInfo) ->
  isActive tenantInfo = true ->
  new_connection cfg tenantInfo (nextOid s) = Some c ->
  getTenantConnection env cfg tenantId s =
  getTenantConnection_opened cfg
    {| ao_tenantId := tenantId; ao_tenantInfo := tenantInfo;
       ao_connection := c; ao_opened := opens env c |}
    (record_open c (record_findOne tenantId s)).
Proof.
  intros Hc Hd Ha Hn. unfold getTenantConnection, getTenantConnection_begin.
  rewrite Hc. unfold getTenantConnection_found, getTenantInfo_settled. simpl.
  rewrite Hd, Ha. simpl. rewrite createTenantConnection_begin_spec.
  simpl. now rewrite Hn.
Qed.

Lemma getTenantConnection_opened_failure cfg w s e :
  ao_opened w = Some e ->
  getTenantConnection_opened cfg w s =
  (Rejected (TenantConnectionException (id (ao_tenantInfo w)) (message e)),
   logger Error
     ("Failed to create connection for tenant " ++ id (ao_tenantInfo w) ++ ":")
     (Some e) s).
Proof.
  intros H. unfold getTenantConnection_opened, createTenantConnection_settled.
  now rewrite H.
Qed.

Lemma getTenantConnection_opened_success cfg w s :
  ao_opened w = None ->
  getTenantConnection_opened cfg w s =
  let s1 := logger Log (established (ao_connection w) (ao_tenantInfo w)) None s in
  if truthy (cacheConnections cfg) then
    (Resolved (ao_connection w),
     logger Debug ("Cached connection for tenant: " ++ ao_tenantId w) None
       (setConnectionTimer cfg (ao_tenantId w)
          (with_cache
             (JsMap.set (ao_tenantId w) (ao_connection w) (connectionCache s1))
             s1)))
  else (Resolved (ao_connection w), s1).
Proof.
  intros H. unfold getTenantConnection_opened, createTenantConnection_settled.
  now rewrite H.
Qed.

(** The connector is called at most once by a call, and a call that hits
    the cache or is turned away by the directory does not call it. *)
Lemma getTenantConnection_openCalls env cfg tenantId s :
  openCalls (snd (getTenantConnection env cfg tenantId s)) = openCalls s \/
  exists c, openCalls (snd (getTenantConnection env cfg tenantId s))
            = (openCalls s ++ [c])%list.
Proof.
  destruct (cached cfg tenantId s) as [c|] eqn:Hc.
  - rewrite (getTenantConnection_hit env _ _ _ _ Hc). left. frame. reflexivity.
  - unfold getTenantConnection, getTenantConnection_begin. rewrite Hc.
    unfold getTenantConnection_found, getTenantInfo_settled. simpl.
    destruct (findOne env tenantId) as [e|[tenantInfo|]]; simpl; try now left.
    destruct (isActive tenantInfo); simpl; [|now left].
    rewrite createTenantConnection_begin_spec.
    destruct (new_connection _ _ _) as [c|]; simpl; [|now left].
    right. exists c.
    unfold getTenantConnection_opened, createTenantConnection_settled,
      failed_to_create; simpl.
    destruct (opens env c); simpl; [reflexivity|].
    destruct (truthy _); reflexivity.
Qed.

(** ** Failed connections *)

(** C2. When the connector is called for a key and fails with [e], the call
    fails with [TenantConnectionException] carrying the tenant id of the
    directory row and the message of [e]; the cache, the timer map and the
    timer queue are as before.  A later call for the same key calls the
    connector again, and when the connector then succeeds the call resolves
    with the new connection, which is cached and listed by the statistics
    when caching is on. *)
Theorem connector_failure_is_not_cached :
  forall env env2 cfg tenantId s tenantInfo c e,
    cached cfg tenantId s = None ->
    findOne env tenantId = DirRow (Some tenantInfo) ->
    isActive tenantInfo = true ->
    new_connection cfg tenantInfo (nextOid s) = Some c ->
    opens env c = Some e ->
    let s' := snd (getTenantConnection env cfg tenantId s) in
    fst (getTenantConnection env cfg tenantId s)
      = Rejected (TenantConnectionException (id tenantInfo) (message e))
    /\ connectionCache s' = connectionCache s
    /\ connectionTimers s' = connectionTimers s
    /\ timeouts s' = timeouts s
    /\ openCalls s' = (openCalls s ++ [c])%list
    /\ forall tenantInfo2 c2,
         findOne env2 tenantId = DirRow (Some tenantInfo2) ->
         isActive tenantInfo2 = true ->
         new_connection cfg tenantInfo2 (nextOid s') = Some c2 ->
         let s'' := snd (getTenantConnection env2 cfg tenantId s') in
         openCalls s'' = (openCalls s' ++ [c2])%list
         /\ (opens env2 c2 = None ->
             fst (getTenantConnection env2 cfg tenantId s') = Resolved c2
             /\ (truthy (cacheConnections cfg) = true ->
                 JsMap.get tenantId (connectionCache s'') = Some c2
                 /\ In tenantId (activeTenants (getConnectionStats s'')))).
Proof.
  intros env env2 cfg tenantId s tenantInfo c e Hc Hd Ha Hn Ho s'.
  assert (Hs' : s' =
    logger Error ("Failed to create connection for tenant " ++ id tenantInfo ++ ":")
      (Some e) (record_open c (record_findOne tenantId s))).
  { unfold s'. rewrite (getTenantConnection_connects env _ _ _ _ _ Hc Hd Ha Hn).
    now rewrite getTenantConnection_opened_failure with (e := e) by exact Ho. }
  assert (Hr : fst (getTenantConnection env cfg tenantId s)
               = Rejected (TenantConnectionException (id tenantInfo) (message e))).
  { rewrite (getTenantConnection_connects env _ _ _ _ _ Hc Hd Ha Hn).
    now rewrite getTenantConnection_opened_failure with (e := e) by exact Ho. }
  rewrite Hr. clearbody s'. subst s'. ssimpl.
  split; [reflexivity|]. split; [reflexivity|]. split; [reflexivity|].
  split; [reflexivity|]. split; [reflexivity|].
  intros tenantInfo2 c2 Hd2 Ha2 Hn2.
  set (s' := logger Error _ _ _) in *.
  assert (Hc' : cached cfg tenantId s' = None).
  { unfold cached in *. exact Hc. }
  rewrite (getTenantConnection_connects env2 _ _ _ _ _ Hc' Hd2 Ha2 Hn2).
  split.
  - unfold getTenantConnection_opened, createTenantConnection_settled,
      failed_to_create; simpl.
    destruct (opens env2 c2); simpl; [reflexivity|].
    destruct (truthy _); reflexivity.
  - intros Ho2. rewrite getTenantConnection_opened_success by exact Ho2.
    simpl. destruct (truthy (cacheConnections cfg)); simpl.
    + split; [reflexivity|]. intros _. split.
      * apply JsMapFacts.get_set_same.
      * unfold JsMap.keys. apply (in_map fst _ (tenantId, c2)).
        apply JsMapFacts.get_In, JsMapFacts.get_set_same.
    + split; [reflexivity | discriminate].
Qed.

Lemma connector_failure_is_not_cached_witness :
  fst (getTenantConnection (world true false true) (config "mysql" (Some true))
         "t2" initialState)
  = Rejected (TenantConnectionException "t2" "ECONNREFUSED").
Proof.
  apply (connector_failure_is_not_cached (world true false true)
           (world true true true) (config "mysql" (Some true)) "t2" initialState
           (acme "t2" true)
           (DataSource 0 (sqlOptions (config "mysql" (Some true)) (acme "t2" true)))
           {| message := "ECONNREFUSED" |});
    reflexivity.
Defined.

(** ** Inactive tenants *)

Lemma cached_record_findOne cfg tenantId k s :
  cached cfg tenantId (record_findOne k s) = cached cfg tenantId s.
Proof. reflexivity. Qed.

(** C5, counterexample.  A tenant is connected while active and is then
    deactivated in the directory: the next [getTenantConnection] and
    [getTenantContext] for it are served from the cache and do not fail with
    [TenantInactiveException]. *)
Lemma inactive_tenant_served_from_cache :
  let cfg := config "mysql" (Some true) in
  let s := snd (getTenantConnection (world true true true) cfg "t1" initialState) in
  let env := world false true true in
  let c := DataSource 0 (sqlOptions cfg (acme "t1" true)) in
  findOne env "t1" = DirRow (Some (acme "t1" false))
  /\ isActive (acme "t1" false) = false
  /\ fst (getTenantConnection env cfg "t1" s) = Resolved c
  /\ fst (getTenantConnection env cfg "t1" s)
     <> Rejected (TenantInactiveException "t1")
  /\ fst (getTenantContext env cfg "t1" s)
     = Resolved {| tenantId := "t1"; tenantInfo := acme "t1" false;
                   connection := c |}
  /\ fst (getTenantContext env cfg "t1" s)
     <> Rejected (TenantInactiveException "t1").
Proof.
  repeat split; try reflexivity; vm_compute; discriminate.
Qed.

(** C5, amended.  For a key whose directory row has [isActive = false],
    neither [getTenantConnection] nor [getTenantContext] calls the
    connector.  When the call finds no cached connection (none stored, or
    caching off) both fail with [TenantInactiveException]; when a connection
    is cached, [getTenantConnection] resolves with it without reading the
    directory, and [getTenantContext] with a context around it and the
    inactive row. *)
Theorem inactive_tenant_rejected_unless_cached :
  forall env cfg tenantId s tenantInfo,
    findOne env tenantId = DirRow (Some tenantInfo) ->
    isActive tenantInfo = false ->
    openCalls (snd (getTenantConnection env cfg tenantId s)) = openCalls s
    /\ openCalls (snd (getTenantContext env cfg tenantId s)) = openCalls s
    /\ match cached cfg tenantId s with
       | None =>
           fst (getTenantConnection env cfg tenantId s)
             = Rejected (TenantInactiveException tenantId)
           /\ fst (getTenantContext env cfg tenantId s)
              = Rejected (TenantInactiveException tenantId)
       | Some c =>
           fst (getTenantConnection env cfg tenantId s) = Resolved c
           /\ findOneCalls (snd (getTenantConnection env cfg tenantId s))
              = findOneCalls s
           /\ fst (getTenantContext env cfg tenantId s)
              = Resolved {| tenantId := tenantId; tenantInfo := tenantInfo;
                            connection := c |}
       end.
Proof.
  intros env cfg tenantId s tenantInfo Hd Ha.
  unfold getTenantContext, getTenantInfo, getTenantInfo_settled. rewrite Hd.
  destruct (cached cfg tenantId s) as [c|] eqn:Hc.
  - assert (Hc' : cached cfg tenantId (record_findOne tenantId s) = Some c)
      by exact Hc.
    rewrite (getTenantConnection_hit env _ _ _ _ Hc).
    rewrite (getTenantConnection_hit env _ _ _ _ Hc').
    frame. repeat split.
  - assert (Hc' : cached cfg tenantId (record_findOne tenantId s) = None)
      by exact Hc.
    rewrite (getTenantConnection_inactive env _ _ _ _ Hc Hd Ha).
    rewrite (getTenantConnection_inactive env _ _ _ _ Hc' Hd Ha).
    repeat split.
Qed.

Lemma inactive_tenant_rejected_unless_cached_witness :
  fst (getTenantConnection (world false true true) (config "mysql" (Some true))
         "t1" initialState)
  = Rejected (TenantInactiveException "t1")
  /\ fst (getTenantContext (world false true true) (config "mysql" (Some true))
            "t1" initialState)
     = Rejected (TenantInactiveException "t1").
Proof.
  apply (inactive_tenant_rejected_unless_cached (world false true true)
           (config "mysql" (Some true)) "t1" initialState (acme "t1" false));
    reflexivity.
Defined.

(** ** Unsupported drivers *)

(** No call of [getTenantConnection] ever fails with
    [UnsupportedDatabaseDriverException]: the class is never instantiated. *)
Lemma getTenantConnection_never_UnsupportedDatabaseDriver env cfg tenantId s d :
  fst (getTenantConnection env cfg tenantId s)
  <> Rejected (UnsupportedDatabaseDriverException d).
Proof.
  unfold getTenantConnection, getTenantConnection_begin.
  destruct (cached cfg tenantId s); [discriminate|].
  unfold getTenantConnection_found, getTenantInfo_settled. ssimpl.
  destruct (findOne env tenantId) as [e|[tenantInfo|]]; ssimpl; try discriminate.
  destruct (isActive tenantInfo); ssimpl; [|discriminate].
  rewrite createTenantConnection_begin_spec.
  destruct (new_connection _ _ _) as [c|]; ssimpl; [|discriminate].
  unfold getTenantConnection_opened, createTenantConnection_settled,
    failed_to_create. ssimpl.
  destruct (opens env c); ssimpl; [discriminate|].
  destruct (truthy _); discriminate.
Qed.

(** C9, counterexample.  With the driver ["sqlite"] the call fails with
    [TenantConnectionException], not with
    [UnsupportedDatabaseDriverException]. *)
Lemma unsupported_driver_is_wrapped :
  let r := fst (getTenantConnection (world true true true)
                  (config "sqlite" (Some true)) "t1" initialState) in
  supported "sqlite" = false
  /\ r = Rejected (TenantConnectionException "t1" "Unsupported driver: sqlite")
  /\ r <> Rejected (UnsupportedDatabaseDriverException "sqlite").
Proof.
  split; [reflexivity|]. split; [reflexivity|]. vm_compute. discriminate.
Qed.

(** C9, amended.  With a configured driver other than ["mysql"],
    ["postgresql"] and ["mongodb"], every call that finds no cached
    connection and an active directory row fails with
    [TenantConnectionException] for the tenant id of the row, wrapping the
    message ["Unsupported driver: <driver>"]; the connector is not called,
    nothing is cached, and the failure is never an
    [UnsupportedDatabaseDriverException]. *)
Theorem unsupported_driver_fails_per_call :
  forall env cfg tenantId s tenantInfo,
    supported (driver cfg) = false ->
    cached cfg tenantId s = None ->
    findOne env tenantId = DirRow (Some tenantInfo) ->
    isActive tenantInfo = true ->
    fst (getTenantConnection env cfg tenantId s)
      = Rejected (TenantConnectionException (id tenantInfo)
                    ("Unsupported driver: " ++ driver cfg))
    /\ (forall d, fst (getTenantConnection env cfg tenantId s)
                  <> Rejected (UnsupportedDatabaseDriverException d))
    /\ openCalls (snd (getTenantConnection env cfg tenantId s)) = openCalls s
    /\ connectionCache (snd (getTenantConnection env cfg tenantId s))
       = connectionCache s
    /\ timeouts (snd (getTenantConnection env cfg tenantId s)) = timeouts s.
Proof.
  intros env cfg tenantId s tenantInfo Hs Hc Hd Ha.
  split; [|split].
  - now rewrite (getTenantConnection_unsupported env _ _ _ _ Hc Hd Ha Hs).
  - intros d. apply getTenantConnection_never_UnsupportedDatabaseDriver.
  - rewrite (getTenantConnection_unsupported env _ _ _ _ Hc Hd Ha Hs).
    repeat split.
Qed.

Lemma unsupported_driver_fails_per_call_witness :
  fst (getTenantConnection (world true true true) (config "oracle" None)
         "t1" initialState)
  = Rejected (TenantConnectionException "t1" "Unsupported driver: oracle").
Proof.
  apply (unsupported_driver_fails_per_call (world true true true)
           (config "oracle" None) "t1" initialState (acme "t1" true));
    reflexivity.
Defined.

(** ** Closing one connection *)

Lemma closeConnection_begin_spec env tenantId s :
  closeConnection_begin env tenantId s =
  match JsMap.get tenantId (connectionCache s) with
  | None => (None, s)
  | Some c =>
      (Some {| acl_tenantId := tenantId; acl_connection := c;
               acl_closed := closes env c |},
       record_close c s)
  end.
Proof.
  unfold closeConnection_begin.
  destruct (JsMap.get tenantId (connectionCache s)) as [[]|]; reflexivity.
Qed.

(** C3, counterexample.  A cached connection whose [destroy()] rejects is
    still in the cache, and still in the timer map, after
    [closeConnection]. *)
Lemma failed_close_keeps_the_entry :
  let cfg := config "mysql" (Some true) in
  let s := snd (getTenantConnection (world true true true) cfg "t1" initialState) in
  let c := DataSource 0 (sqlOptions cfg (acme "t1" true)) in
  let s' := snd (closeConnection (world true true false) "t1" s) in
  JsMap.get "t1" (connectionCache s) = Some c
  /\ closes (world true true false) c = Some {| message := "EPIPE" |}
  /\ JsMap.get "t1" (connectionCache s') = Some c
  /\ JsMap.get "t1" (connectionTimers s') = Some 0
  /\ totalConnections (getConnectionStats s') = 1.
Proof. repeat split. Qed.

(** C3, amended.  [closeConnection] never rejects.  Without an entry for
    the key it leaves the state as it is.  With an entry it calls the
    closing method of the connection once; when that resolves, the entry
    leaves the cache and the timer map; when it rejects, the error is logged
    and the entry stays in the cache and in the timer map.  The timer queue
    is the same in every case. *)
Theorem closeConnection_never_rejects :
  forall env tenantId s,
    let s' := snd (closeConnection env tenantId s) in
    fst (closeConnection env tenantId s) = Resolved tt
    /\ timeouts s' = timeouts s
    /\ match JsMap.get tenantId (connectionCache s) with
       | None => s' = s
       | Some c =>
           closeCalls s' = (closeCalls s ++ [c])%list
           /\ match closes env c with
              | None =>
                  connectionCache s' = JsMap.delete tenantId (connectionCache s)
                  /\ connectionTimers s'
                     = JsMap.delete tenantId (connectionTimers s)
                  /\ JsMap.get tenantId (connectionCache s') = None
                  /\ logs s' =
                     (logs s ++
                      [{| level := Debug;
                          text := "Connection closed for tenant: " ++ tenantId;
                          detail := None |}])%list
              | Some error =>
                  connectionCache s' = connectionCache s
                  /\ connectionTimers s' = connectionTimers s
                  /\ logs s' =
                     (logs s ++
                      [{| level := Error;
                          text := "Failed to close connection for tenant "
                                  ++ tenantId ++ ":";
                          detail := Some error |}])%list
              end
       end.
Proof.
  intros env tenantId s. unfold closeConnection.
  rewrite closeConnection_begin_spec.
  destruct (JsMap.get tenantId (connectionCache s)) as [c|]; ssimpl.
  - unfold closeConnection_settled. ssimpl.
    destruct (closes env c); ssimpl; repeat split.
    apply JsMapFacts.get_delete_same.
  - repeat split.
Qed.

(** ** Closing everything *)

(** The calls that [closeAllConnections] leaves suspended for a list of
    keys, read off a cache. *)
Lemma closeConnection_begin_all_spec env ks : forall s,
  fst (closeConnection_begin_all env ks s) =
    flat_map (fun k => match JsMap.get k (connectionCache s) with
                       | Some c => [{| acl_tenantId := k; acl_connection := c;
                                       acl_closed := closes env c |}]
                       | None => []
                       end) ks
  /\ connectionCache (snd (closeConnection_begin_all env ks s)) = connectionCache s
  /\ connectionTimers (snd (closeConnection_begin_all env ks s)) = connectionTimers s
  /\ timeouts (snd (closeConnection_begin_all env ks s)) = timeouts s
  /\ nextTimer (snd (closeConnection_begin_all env ks s)) = nextTimer s
  /\ nextOid (snd (closeConnection_begin_all env ks s)) = nextOid s
  /\ openCalls (snd (closeConnection_begin_all env ks s)) = openCalls s
  /\ closeCalls (snd (closeConnection_begin_all env ks s)) =
     (closeCalls s ++
      map acl_connection (fst (closeConnection_begin_all env ks s)))%list.
Proof.
  induction ks as [|k ks IH]; intros s; cbn [closeConnection_begin_all flat_map].
  - ssimpl. rewrite app_nil_r. repeat split.
  - rewrite closeConnection_begin_spec.
    destruct (JsMap.get k (connectionCache s)) as [c|] eqn:Hk.
    + destruct (closeConnection_begin_all env ks (record_close c s))
        as [ws s2] eqn:E.
      specialize (IH (record_close c s)). rewrite E in IH. ssimpl.
      destruct IH as (-> & -> & -> & -> & -> & -> & -> & ->).
      cbn [map app]. rewrite <- app_assoc. repeat split.
    + destruct (closeConnection_begin_all env ks s) as [ws s2] eqn:E.
      specialize (IH s). rewrite E in IH. ssimpl. exact IH.
Qed.

Lemma suspended_closes_of_cache env (m : JsMap.t Connection) :
  NoDup (JsMap.keys m) ->
  flat_map (fun k => match JsMap.get k m with
                     | Some c => [{| acl_tenantId := k; acl_connection := c;
                                     acl_closed := closes env c |}]
                     | None => []
                     end) (JsMap.keys m)
  = map (fun e => {| acl_tenantId := fst e; acl_connection := snd e;
                     acl_closed := closes env (snd e) |}) m.
Proof.
  intros Hnd.
  assert (H : forall l, incl l m ->
    flat_map (fun k => match JsMap.get k m with
                       | Some c => [{| acl_tenantId := k; acl_connection := c;
                                       acl_closed := closes env c |}]
                       | None => []
                       end) (JsMap.keys l)
    = map (fun e => {| acl_tenantId := fst e; acl_connection := snd e;
                       acl_closed := closes env (snd e) |}) l).
  { induction l as [|[k c] l IH]; intros Hl; [reflexivity|].
    cbn [JsMap.keys map flat_map fst snd].
    rewrite (JsMapFacts.In_get _ _ _ Hnd (Hl _ (or_introl eq_refl))).
    cbn [app]. f_equal. apply IH. intros e He. apply Hl. now right. }
  apply H. apply incl_refl.
Qed.

Lemma closeConnection_settle_all_frame ws : forall s,
  timeouts (closeConnection_settle_all ws s) = timeouts s
  /\ nextTimer (closeConnection_settle_all ws s) = nextTimer s
  /\ nextOid (closeConnection_settle_all ws s) = nextOid s
  /\ openCalls (closeConnection_settle_all ws s) = openCalls s
  /\ closeCalls (closeConnection_settle_all ws s) = closeCalls s.
Proof.
  unfold closeConnection_settle_all.
  induction ws as [|w ws IH]; intros s; [repeat split|].
  cbn [fold_left].
  destruct (IH (closeConnection_settled w s)) as (-> & -> & -> & -> & ->).
  unfold closeConnection_settled. destruct (acl_closed w); repeat split.
Qed.

Lemma closeConnection_settle_all_cache env (l : JsMap.t Connection) : forall s,
  connectionCache
    (closeConnection_settle_all
       (map (fun e => {| acl_tenantId := fst e; acl_connection := snd e;
                         acl_closed := closes env (snd e) |}) l) s)
  = fold_left (fun m e => if close_fails env e then m else JsMap.delete (fst e) m)
      l (connectionCache s).
Proof.
  unfold closeConnection_settle_all.
  induction l as [|e l IH]; intros s; [reflexivity|].
  cbn [map fold_left]. rewrite IH. f_equal. unfold closeConnection_settled, close_fails. ssimpl.
  destruct (closes env (snd e)); reflexivity.
Qed.

Lemma closeConnection_settle_all_timers env (l : JsMap.t Connection) : forall s,
  connectionTimers
    (closeConnection_settle_all
       (map (fun e => {| acl_tenantId := fst e; acl_connection := snd e;
                         acl_closed := closes env (snd e) |}) l) s)
  = fold_left (fun m e => if close_fails env e then m else JsMap.delete (fst e) m)
      l (connectionTimers s).
Proof.
  unfold closeConnection_settle_all.
  induction l as [|e l IH]; intros s; [reflexivity|].
  cbn [map fold_left]. rewrite IH. f_equal. unfold closeConnection_settled, close_fails. ssimpl.
  destruct (closes env (snd e)); reflexivity.
Qed.

Lemma filter_twice (A : Type) (p q : A -> bool) (l : list A) :
  filter p (filter q l) = filter (fun x => q x && p x) l.
Proof.
  induction l as [|x l IH]; [reflexivity|]. cbn [filter].
  destruct (q x); cbn [filter andb]; rewrite IH; reflexivity.
Qed.

(** Deleting the keys of the entries that closed: what is left of a map. *)
Lemma fold_delete_filter (V : Type) env (l : JsMap.t Connection) :
  forall m : JsMap.t V,
    fold_left (fun m e => if close_fails env e then m else JsMap.delete (fst e) m)
      l m
    = filter (fun x => negb (existsb (fun e => negb (close_fails env e)
                                               && String.eqb (fst e) (fst x)) l)) m.
Proof.
  induction l as [|e l IH]; intros m; cbn [fold_left existsb].
  - induction m as [|x m IHm]; [reflexivity|]. cbn [filter negb]. now f_equal.
  - rewrite IH. destruct (close_fails env e); cbn [negb andb orb]; [reflexivity|].
    rewrite JsMapFacts.delete_filter, filter_twice.
    apply filter_ext. intros x.
    destruct (String.eqb (fst e) (fst x)); reflexivity.
Qed.

Lemma cache_after_closes env (m : JsMap.t Connection) :
  NoDup (JsMap.keys m) ->
  fold_left (fun m e => if close_fails env e then m else JsMap.delete (fst e) m)
    m m
  = filter (close_fails env) m.
Proof.
  intros Hnd. rewrite fold_delete_filter. apply filter_ext_in.
  intros [k c] Hin. cbn [fst].
  destruct (close_fails env (k, c)) eqn:Hf.
  - apply negb_true_iff. apply not_true_iff_false. intros Hex.
    apply existsb_exists in Hex. destruct Hex as [[k' c'] [Hin' Hb]].
    apply andb_true_iff in Hb. destruct Hb as [Hb1 Hb2]. cbn [fst] in Hb2.
    apply String.eqb_eq in Hb2. subst k'.
    assert (c' = c).
    { apply (JsMapFacts.In_get _ _ _ Hnd) in Hin, Hin'. congruence. }
    subst c'. rewrite Hf in Hb1. discriminate.
  - apply negb_false_iff. apply existsb_exists. exists (k, c).
    split; [exact Hin|]. rewrite Hf. cbn [fst negb andb].
    apply String.eqb_refl.
Qed.

(** What [closeAllConnections] does to a cache with one entry per key. *)
Lemma closeAllConnections_spec env s :
  NoDup (JsMap.keys (connectionCache s)) ->
  let s' := snd (closeAllConnections env s) in
  fst (closeAllConnections env s) = Resolved tt
  /\ connectionCache s' = filter (close_fails env) (connectionCache s)
  /\ closeCalls s' = (closeCalls s ++ JsMap.values (connectionCache s))%list
  /\ timeouts s' = timeouts s
  /\ openCalls s' = openCalls s
  /\ nextOid s' = nextOid s
  /\ nextTimer s' = nextTimer s
  /\ connectionTimers s' =
     fold_left (fun m e => if close_fails env e then m else JsMap.delete (fst e) m)
       (connectionCache s) (connectionTimers s).
Proof.
  intros Hnd. unfold closeAllConnections, closeAllConnections_begin.
  pose proof (closeConnection_begin_all_spec env
                (JsMap.keys (connectionCache s)) s) as H.
  destruct (closeConnection_begin_all env (JsMap.keys (connectionCache s)) s)
    as [ws s1].
  ssimpl. destruct H as (Hws & Hc & Ht & Hq & Hnt & Hno & Hoc & Hcc).
  rewrite (suspended_closes_of_cache env _ Hnd) in Hws. subst ws.
  pose proof (closeConnection_settle_all_frame
                (map (fun e => {| acl_tenantId := fst e; acl_connection := snd e;
                                  acl_closed := closes env (snd e) |})
                   (connectionCache s)) s1) as (F1 & F2 & F3 & F4 & F5).
  split; [reflexivity|].
  split.
  { rewrite closeConnection_settle_all_cache, Hc. now apply cache_after_closes. }
  split.
  { rewrite F5, Hcc. f_equal. rewrite map_map. reflexivity. }
  split; [congruence|]. split; [congruence|]. split; [congruence|].
  split; [congruence|].
  rewrite closeConnection_settle_all_timers, Ht. reflexivity.
Qed.

(** ** Well-formedness is kept by every segment *)

Lemma WellFormed_same s s' :
  connectionCache s' = connectionCache s ->
  connectionTimers s' = connectionTimers s ->
  timeouts s' = timeouts s ->
  nextTimer s' = nextTimer s ->
  WellFormed s -> WellFormed s'.
Proof.
  intros Hc Ht Hq Hn [W1 W2 W3 W4 W5].
  constructor; rewrite ?Hc, ?Ht, ?Hq, ?Hn; assumption.
Qed.

Lemma WellFormed_initialState : WellFormed initialState.
Proof.
  constructor; cbn; try constructor; intros; contradiction.
Qed.

Lemma NoDup_map_filter (K E : Type) (key : E -> K) (keep : E -> bool) :
  forall q : list E, NoDup (map key q) -> NoDup (map key (filter keep q)).
Proof.
  intros q. induction q as [|e q IH]; cbn [map filter]; intros Hnd;
    [constructor|].
  inversion Hnd as [|? ? He Hq]; subst.
  destruct (keep e); cbn [map]; [|auto].
  constructor; [|auto].
  intros Hin. apply He. apply in_map_iff in Hin.
  destruct Hin as [y [Hy Hin]]. apply filter_In in Hin.
  apply in_map_iff. exists y. tauto.
Qed.

Lemma WellFormed_clearTimeout t s : WellFormed s -> WellFormed (clearTimeout t s).
Proof.
  intros [W1 W2 W3 W4 W5]. constructor; cbn; try assumption.
  - now apply NoDup_map_filter.
  - intros t' e Hin. apply filter_In in Hin. apply (W4 t' e), Hin.
Qed.

Lemma WellFormed_setConnectionTimer cfg tenantId s :
  WellFormed s -> WellFormed (setConnectionTimer cfg tenantId s).
Proof.
  intros [W1 W2 W3 W4 W5]. constructor; cbn.
  - assumption.
  - now apply JsMapFacts.NoDup_keys_set.
  - rewrite map_app. cbn [map fst]. apply NoDup_snoc; [assumption|].
    intros Hin. apply in_map_iff in Hin. destruct Hin as [[t e] [Ht Hin]].
    cbn in Ht. subst t. apply W4 in Hin. lia.
  - intros t e Hin. apply in_app_iff in Hin. destruct Hin as [Hin|[E|[]]].
    + apply W4 in Hin. lia.
    + injection E as <- _. lia.
  - intros k t Hin. apply JsMapFacts.In_set in Hin.
    destruct Hin as [[_ ->]|Hin]; [lia|]. apply W5 in Hin. lia.
Qed.

Lemma WellFormed_resetConnectionTimer cfg tenantId s :
  WellFormed s -> WellFormed (resetConnectionTimer cfg tenantId s).
Proof.
  intros W. unfold resetConnectionTimer.
  apply WellFormed_setConnectionTimer.
  destruct (JsMap.get tenantId (connectionTimers s));
    [now apply WellFormed_clearTimeout | assumption].
Qed.

Lemma WellFormed_logger lv msg d s : WellFormed s -> WellFormed (logger lv msg d s).
Proof. now apply WellFormed_same. Qed.

Lemma WellFormed_record_findOne k s : WellFormed s -> WellFormed (record_findOne k s).
Proof. now apply WellFormed_same. Qed.

Lemma WellFormed_record_open c s : WellFormed s -> WellFormed (record_open c s).
Proof. now apply WellFormed_same. Qed.

Lemma WellFormed_record_close c s : WellFormed s -> WellFormed (record_close c s).
Proof. now apply WellFormed_same. Qed.

Lemma WellFormed_cache_set k c s :
  WellFormed s ->
  WellFormed (with_cache (JsMap.set k c (connectionCache s)) s).
Proof.
  intros [W1 W2 W3 W4 W5]. constructor; cbn; try assumption.
  now apply JsMapFacts.NoDup_keys_set.
Qed.

Create HintDb wf.

#[local] Hint Resolve WellFormed_initialState WellFormed_clearTimeout
  WellFormed_setConnectionTimer WellFormed_resetConnectionTimer
  WellFormed_logger WellFormed_record_findOne WellFormed_record_open
  WellFormed_record_close WellFormed_cache_set : wf.

Lemma WellFormed_getTenantConnection_begin env cfg tenantId s :
  WellFormed s -> WellFormed (snd (getTenantConnection_begin env cfg tenantId s)).
Proof.
  intros W. unfold getTenantConnection_begin.
  destruct (cached cfg tenantId s); ssimpl; auto with wf.
Qed.

Lemma WellFormed_getTenantConnection_found env cfg w s :
  WellFormed s -> WellFormed (snd (getTenantConnection_found env cfg w s)).
Proof.
  intros W. unfold getTenantConnection_found, getTenantInfo_settled.
  destruct (ai_found w) as [e|[tenantInfo|]]; ssimpl; auto with wf.
  destruct (isActive tenantInfo); ssimpl; auto with wf.
  rewrite createTenantConnection_begin_spec.
  destruct (new_connection _ _ _); ssimpl; auto with wf.
Qed.

Lemma WellFormed_getTenantConnection_opened cfg w s :
  WellFormed s -> WellFormed (snd (getTenantConnection_opened cfg w s)).
Proof.
  intros W. unfold getTenantConnection_opened, createTenantConnection_settled,
    failed_to_create.
  destruct (ao_opened w); ssimpl; auto with wf.
  destruct (truthy _); ssimpl; auto with wf.
  apply WellFormed_logger, WellFormed_setConnectionTimer.
  set (s1 := logger Log (established (ao_connection w) (ao_tenantInfo w)) None s).
  change (WellFormed
            (with_cache
               (JsMap.set (ao_tenantId w) (ao_connection w) (connectionCache s1))
               s1)).
  apply WellFormed_cache_set. unfold s1. auto with wf.
Qed.

Lemma WellFormed_closeConnection_begin env tenantId s :
  WellFormed s -> WellFormed (snd (closeConnection_begin env tenantId s)).
Proof.
  intros W. rewrite closeConnection_begin_spec.
  destruct (JsMap.get _ _); ssimpl; auto with wf.
Qed.

Lemma WellFormed_closeConnection_settled w s :
  WellFormed s -> WellFormed (closeConnection_settled w s).
Proof.
  intros W. unfold closeConnection_settled.
  destruct (acl_closed w); [auto with wf|].
  apply WellFormed_logger. destruct W as [W1 W2 W3 W4 W5].
  constructor; cbn; try assumption.
  - now apply JsMapFacts.NoDup_keys_delete.
  - now apply JsMapFacts.NoDup_keys_delete.
  - intros k t Hin. apply JsMapFacts.In_delete in Hin. apply (W5 k t), Hin.
Qed.

Lemma WellFormed_closeAllConnections_begin env s :
  WellFormed s -> WellFormed (snd (closeAllConnections_begin env s)).
Proof.
  intros W. unfold closeAllConnections_begin.
  destruct (closeConnection_begin_all_spec env (JsMap.keys (connectionCache s)) s)
    as (_ & Hc & Ht & Hq & Hn & _).
  now apply (WellFormed_same _ _ Hc Ht Hq Hn).
Qed.

Lemma WellFormed_timeout_fires_begin env t s r :
  WellFormed s -> timeout_fires_begin env t s = Some r -> WellFormed (snd r).
Proof.
  intros W. unfold timeout_fires_begin.
  destruct (queued t (timeouts s)) as [[tenantId d]|]; [|discriminate].
  intros [= <-]. apply WellFormed_closeConnection_begin. auto with wf.
Qed.

Lemma WellFormed_resume_getTenantConnection env cfg g s :
  WellFormed s -> WellFormed (snd (resume_getTenantConnection env cfg g s)).
Proof.
  intros W. destruct g as [w|w|r]; cbn [resume_getTenantConnection].
  - pose proof (WellFormed_getTenantConnection_found env cfg w _ W) as H.
    destruct (getTenantConnection_found env cfg w s) as [[r|w'] s1]; exact H.
  - pose proof (WellFormed_getTenantConnection_opened cfg w _ W) as H.
    destruct (getTenantConnection_opened cfg w s) as [r s1]; exact H.
  - exact W.
Qed.

Lemma WellFormed_start_getTenantConnection env cfg tenantId s :
  WellFormed s -> WellFormed (snd (start_getTenantConnection env cfg tenantId s)).
Proof.
  intros W. unfold start_getTenantConnection.
  pose proof (WellFormed_getTenantConnection_begin env cfg tenantId _ W) as H.
  destruct (getTenantConnection_begin env cfg tenantId s) as [[r|w'] s1]; exact H.
Qed.

Lemma WellFormed_resume env cfg task s :
  WellFormed s -> WellFormed (snd (resume env cfg task s)).
Proof.
  intros W. destruct task as [g|w|k tenantInfo g|r|[w|]|[|w ws]|];
    cbn [resume]; ssimpl; auto using WellFormed_closeConnection_settled with wf.
  - pose proof (WellFormed_resume_getTenantConnection env cfg g _ W) as H.
    destruct (resume_getTenantConnection env cfg g s); exact H.
  - unfold getTenantInfo_settled.
    destruct (ai_found w) as [e|[tenantInfo|]]; ssimpl; auto with wf.
    pose proof (WellFormed_start_getTenantConnection env cfg (ai_tenantId w) _ W)
      as H.
    destruct (start_getTenantConnection env cfg (ai_tenantId w) s); exact H.
  - destruct g as [w|w|[c|e]]; ssimpl; try exact W.
    + pose proof (WellFormed_resume_getTenantConnection env cfg (GC_AwaitInfo w) _ W)
        as H.
      destruct (resume_getTenantConnection env cfg (GC_AwaitInfo w) s); exact H.
    + pose proof (WellFormed_resume_getTenantConnection env cfg (GC_AwaitOpen w) _ W)
        as H.
      destruct (resume_getTenantConnection env cfg (GC_AwaitOpen w) s); exact H.
Qed.

Lemma WellFormed_step cfg sys ee :
  WellFormed (service sys) -> WellFormed (service (step cfg sys ee)).
Proof.
  intros W. destruct ee as [env [k|k| |t|i]]; cbn [step].
  - pose proof (WellFormed_start_getTenantConnection env cfg k _ W) as H.
    destruct (start_getTenantConnection env cfg k (service sys)); exact H.
  - cbn. auto with wf.
  - pose proof (WellFormed_closeAllConnections_begin env _ W) as H.
    destruct (closeAllConnections_begin env (service sys)); exact H.
  - destruct (timeout_fires_begin env t (service sys)) as [[w s1]|] eqn:E;
      [|exact W].
    apply (WellFormed_timeout_fires_begin _ _ _ _ W E).
  - destruct (nth_error (tasks sys) i) as [task|]; [|exact W].
    pose proof (WellFormed_resume env cfg task _ W) as H.
    destruct (resume env cfg task (service sys)); exact H.
Qed.

Lemma WellFormed_run cfg evs : forall sys,
  WellFormed (service sys) -> WellFormed (service (run cfg evs sys)).
Proof.
  unfold run. induction evs as [|ee evs IH]; intros sys W; [exact W|].
  cbn [fold_left]. apply IH. now apply WellFormed_step.
Qed.

(** ** One uninterrupted call keeps the invariants *)

Lemma WellFormed_getTenantConnection env cfg tenantId s :
  WellFormed s -> WellFormed (snd (getTenantConnection env cfg tenantId s)).
Proof.
  intros W. unfold getTenantConnection.
  pose proof (WellFormed_getTenantConnection_begin env cfg tenantId s W) as H1.
  destruct (getTenantConnection_begin env cfg tenantId s) as [[r|w] s1];
    [exact H1|].
  pose proof (WellFormed_getTenantConnection_found env cfg w s1 H1) as H2.
  destruct (getTenantConnection_found env cfg w s1) as [[r|w'] s2]; [exact H2|].
  now apply WellFormed_getTenantConnection_opened.
Qed.

Lemma In_values_set k (c x : Connection) m :
  In x (JsMap.values (JsMap.set k c m)) -> x = c \/ In x (JsMap.values m).
Proof.
  unfold JsMap.values. intros H. apply in_map_iff in H.
  destruct H as [[k' v'] [E H]]. cbn in E. subst v'.
  apply JsMapFacts.In_set in H. destruct H as [[_ ->]|H]; [now left|].
  right. apply in_map_iff. now exists (k', x).
Qed.

Lemma NoDup_oids_set k (c : Connection) m :
  NoDup (map oid_of (JsMap.values m)) ->
  ~ In (oid_of c) (map oid_of (JsMap.values m)) ->
  NoDup (map oid_of (JsMap.values (JsMap.set k c m))).
Proof.
  induction m as [|[k' v'] m IH]; cbn [JsMap.set JsMap.values map snd];
    intros Hnd Hni.
  - constructor; [intros [] | constructor].
  - inversion Hnd as [|? ? Hv Hm]; subst.
    destruct (String.eqb k k'); cbn [map snd].
    + constructor; [|exact Hm]. intros H. apply Hni. now right.
    + constructor.
      * intros H. apply in_map_iff in H. destruct H as [x [Ex Hx]].
        apply In_values_set in Hx. destruct Hx as [->|Hx].
        -- apply Hni. left. now symmetry.
        -- apply Hv. rewrite <- Ex. now apply in_map.
      * apply IH; [exact Hm|]. intros H. apply Hni. now right.
Qed.

Lemma DistinctObjects_initialState : DistinctObjects initialState.
Proof. constructor; cbn; [intros c [] | constructor]. Qed.

Lemma DistinctObjects_getTenantConnection env cfg tenantId s :
  DistinctObjects s -> DistinctObjects (snd (getTenantConnection env cfg tenantId s)).
Proof.
  intros [D1 D2].
  destruct (cached cfg tenantId s) as [c|] eqn:Hc.
  { rewrite (getTenantConnection_hit env _ _ _ _ Hc).
    constructor; frame; assumption. }
  unfold getTenantConnection, getTenantConnection_begin. rewrite Hc.
  unfold getTenantConnection_found, getTenantInfo_settled. ssimpl.
  destruct (findOne env tenantId) as [e|[tenantInfo|]]; ssimpl;
    try (constructor; assumption).
  destruct (isActive tenantInfo); ssimpl; [|constructor; assumption].
  rewrite createTenantConnection_begin_spec. ssimpl.
  destruct (new_connection cfg tenantInfo (nextOid s)) as [c|] eqn:Hn; ssimpl;
    [|constructor; assumption].
  apply new_connection_oid in Hn.
  unfold getTenantConnection_opened, createTenantConnection_settled,
    failed_to_create. ssimpl.
  destruct (opens env c); ssimpl.
  { constructor; ssimpl; [|assumption]. intros x Hx. apply D1 in Hx. lia. }
  destruct (truthy _); ssimpl.
  - constructor; frame.
    + intros x Hx. apply In_values_set in Hx. destruct Hx as [->|Hx];
        [lia | apply D1 in Hx; lia].
    + apply NoDup_oids_set; [assumption|]. intros H. apply in_map_iff in H.
      destruct H as [x [Ex Hx]]. apply D1 in Hx. lia.
  - constructor; ssimpl; [|assumption]. intros x Hx. apply D1 in Hx. lia.
Qed.

Lemma getTenantConnection_closeCalls env cfg tenantId s :
  closeCalls (snd (getTenantConnection env cfg tenantId s)) = closeCalls s.
Proof.
  destruct (cached cfg tenantId s) as [c|] eqn:Hc.
  { rewrite (getTenantConnection_hit env _ _ _ _ Hc). frame. reflexivity. }
  unfold getTenantConnection, getTenantConnection_begin. rewrite Hc.
  unfold getTenantConnection_found, getTenantInfo_settled. ssimpl.
  destruct (findOne env tenantId) as [e|[tenantInfo|]]; ssimpl; try reflexivity.
  destruct (isActive tenantInfo); ssimpl; [|reflexivity].
  rewrite createTenantConnection_begin_spec. ssimpl.
  destruct (new_connection cfg tenantInfo (nextOid s)) as [c|]; ssimpl;
    [|reflexivity].
  unfold getTenantConnection_opened, createTenantConnection_settled,
    failed_to_create. ssimpl.
  destruct (opens env c); ssimpl; [reflexivity|].
  destruct (truthy _); reflexivity.
Qed.

Lemma acquire_all_invariants cfg calls : forall s,
  WellFormed s -> DistinctObjects s ->
  WellFormed (acquire_all cfg calls s)
  /\ DistinctObjects (acquire_all cfg calls s)
  /\ closeCalls (acquire_all cfg calls s) = closeCalls s.
Proof.
  unfold acquire_all.
  induction calls as [|[env k] calls IH]; intros s W D;
    [cbn [fold_left]; split; [exact W | split; [exact D | reflexivity]]|].
  cbn [fold_left fst snd].
  destruct (IH (snd (getTenantConnection env cfg k s))) as (H1 & H2 & H3).
  - now apply WellFormed_getTenantConnection.
  - now apply DistinctObjects_getTenantConnection.
  - split; [exact H1 | split; [exact H2|]].
    rewrite H3. apply getTenantConnection_closeCalls.
Qed.

Lemma NoDup_of_oids (l : list Connection) : NoDup (map oid_of l) -> NoDup l.
Proof.
  induction l as [|c l IH]; cbn [map]; intros H; [constructor|].
  inversion H as [|? ? Hc Hl]; subst. constructor; [|auto].
  intros Hin. apply Hc. now apply in_map.
Qed.

Lemma nothing_fails_to_close env (m : JsMap.t Connection) :
  (forall k c, In (k, c) m -> closes env c = None) ->
  filter (close_fails env) m = [].
Proof.
  induction m as [|[k c] m IH]; intros Hall; [reflexivity|].
  cbn [filter]. unfold close_fails at 1. cbn [snd].
  rewrite (Hall k c (or_introl eq_refl)).
  apply IH. intros k' c' Hin. apply (Hall k' c'). now right.
Qed.

(** ** Shutdown *)

(** C6, counterexample.  Three tenants are connected and then the module is
    destroyed while the backend refuses to close: each closing method was
    called once, but all three entries are still counted. *)
Lemma shutdown_keeps_entries_that_fail_to_close :
  let cfg := config "mysql" (Some true) in
  let ok := world true true true in
  let s := acquire_all cfg [(ok, "t1"); (ok, "t2"); (ok, "t3")] initialState in
  let s' := snd (closeAllConnections (world true true false) s) in
  totalConnections (getConnectionStats s) = 3
  /\ closeCalls s' = JsMap.values (connectionCache s)
  /\ totalConnections (getConnectionStats s') = 3
  /\ totalConnections (getConnectionStats s') <> 0.
Proof.
  vm_compute. split; [reflexivity|]. split; [reflexivity|].
  split; [reflexivity | discriminate].
Qed.

(** C6, amended.  After any series of [getTenantConnection] calls,
    [closeAllConnections] resolves once every close has settled; it has then
    called the closing method of every cached connection exactly once, and
    the cache holds exactly the entries whose close failed.  So the
    statistics report no connection if and only if every close succeeded. *)
Theorem shutdown_closes_every_entry_once :
  forall cfg calls env,
    let s := acquire_all cfg calls initialState in
    let s' := snd (closeAllConnections env s) in
    fst (closeAllConnections env s) = Resolved tt
    /\ closeCalls s' = JsMap.values (connectionCache s)
    /\ NoDup (closeCalls s')
    /\ connectionCache s' = filter (close_fails env) (connectionCache s)
    /\ (totalConnections (getConnectionStats s') = 0 <->
        forall k c, In (k, c) (connectionCache s) -> closes env c = None).
Proof.
  intros cfg calls env s s'.
  destruct (acquire_all_invariants cfg calls initialState
              WellFormed_initialState DistinctObjects_initialState)
    as (W & D & Hcc).
  fold s in W, D, Hcc. cbn [closeCalls initialState] in Hcc.
  destruct (closeAllConnections_spec env s (wf_cache s W))
    as (Hr & Hcache & Hclose & _).
  fold s' in Hcache, Hclose. rewrite Hcc in Hclose. cbn [app] in Hclose.
  split; [exact Hr|]. split; [exact Hclose|].
  split; [rewrite Hclose; apply NoDup_of_oids, (do_nodup s D)|].
  split; [exact Hcache|].
  unfold getConnectionStats, JsMap.size. cbn [totalConnections].
  rewrite Hcache. split.
  - intros Hlen k c Hin. destruct (closes env c) as [e|] eqn:E; [|reflexivity].
    exfalso.
    assert (Hin' : In (k, c) (filter (close_fails env) (connectionCache s))).
    { apply filter_In. split; [exact Hin|]. unfold close_fails. cbn [snd].
      now rewrite E. }
    destruct (filter (close_fails env) (connectionCache s));
      [contradiction | discriminate].
  - intros Hall.
    now rewrite (nothing_fails_to_close env _ Hall).
Qed.

Lemma closeAllConnections_timeouts env s :
  timeouts (snd (closeAllConnections env s)) = timeouts s.
Proof.
  unfold closeAllConnections, closeAllConnections_begin.
  pose proof (closeConnection_begin_all_spec env
                (JsMap.keys (connectionCache s)) s) as H.
  destruct (closeConnection_begin_all env (JsMap.keys (connectionCache s)) s)
    as [ws s1].
  ssimpl. destruct H as (_ & _ & _ & Hq & _).
  destruct (closeConnection_settle_all_frame ws s1) as (F & _). congruence.
Qed.

(** C7.  [closeAllConnections] cancels no timeout: it never changes the
    timer queue, and [closeConnection] only forgets the timeout in
    [connectionTimers].  A tenant is connected and the module destroyed: the
    cache is empty, but the idle timeout of the tenant is still queued and
    fires afterwards, running [closeConnection] on a key that has no entry.
    If the tenant is connected again before that, two timeouts are queued
    for it and the stale one evicts the new connection. *)
Theorem shutdown_leaves_idle_timers_queued :
  (forall env s, timeouts (snd (closeAllConnections env s)) = timeouts s)
  /\ let cfg := config "mysql" (Some true) in
     let env := world true true true in
     let s := snd (getTenantConnection env cfg "t1" initialState) in
     let s' := snd (onModuleDestroy env s) in
     timeouts s = [(0, ("t1", 300000%Z))]
     /\ getConnectionStats s' = {| totalConnections := 0; activeTenants := [] |}
     /\ timeouts s' = [(0, ("t1", 300000%Z))]
     /\ timeout_fires env 0 s' = Some (clearTimeout 0 s')
     /\ let s2 := snd (getTenantConnection env cfg "t1" s') in
        queued_for "t1" s2 = [0; 1]
        /\ activeTenants (getConnectionStats s2) = ["t1"]
        /\ option_map getConnectionStats (timeout_fires env 0 s2)
           = Some {| totalConnections := 0; activeTenants := [] |}.
Proof.
  split; [exact closeAllConnections_timeouts|].
  vm_compute. repeat split.
Qed.

(** ** Caching switched off *)

Lemma CacheUnused_same s s' :
  connectionCache s' = connectionCache s ->
  connectionTimers s' = connectionTimers s ->
  timeouts s' = timeouts s ->
  CacheUnused s -> CacheUnused s'.
Proof. unfold CacheUnused. intros -> -> ->. tauto. Qed.

Lemma CacheUnused_getTenantConnection_begin env cfg tenantId s :
  truthy (cacheConnections cfg) = false ->
  CacheUnused s -> CacheUnused (snd (getTenantConnection_begin env cfg tenantId s)).
Proof.
  intros Hoff U. unfold getTenantConnection_begin, cached. rewrite Hoff. exact U.
Qed.

Lemma CacheUnused_getTenantConnection_found env cfg w s :
  CacheUnused s -> CacheUnused (snd (getTenantConnection_found env cfg w s)).
Proof.
  intros U. unfold getTenantConnection_found, getTenantInfo_settled.
  destruct (ai_found w) as [e|[tenantInfo|]]; ssimpl; try exact U.
  destruct (isActive tenantInfo); ssimpl; [|exact U].
  rewrite createTenantConnection_begin_spec.
  destruct (new_connection _ _ _); ssimpl; exact U.
Qed.

Lemma CacheUnused_getTenantConnection_opened cfg w s :
  truthy (cacheConnections cfg) = false ->
  CacheUnused s -> CacheUnused (snd (getTenantConnection_opened cfg w s)).
Proof.
  intros Hoff U. unfold getTenantConnection_opened,
    createTenantConnection_settled, failed_to_create.
  destruct (ao_opened w); ssimpl; [exact U|]. rewrite Hoff. exact U.
Qed.

Lemma CacheUnused_closeConnection_settled w s :
  CacheUnused s -> CacheUnused (closeConnection_settled w s).
Proof.
  intros (Hc & Ht & Hq). unfold closeConnection_settled, CacheUnused.
  destruct (acl_closed w); ssimpl; rewrite ?Hc, ?Ht; auto.
Qed.

Lemma CacheUnused_start_getTenantConnection env cfg tenantId s :
  truthy (cacheConnections cfg) = false ->
  CacheUnused s -> CacheUnused (snd (start_getTenantConnection env cfg tenantId s)).
Proof.
  intros Hoff U. unfold start_getTenantConnection.
  pose proof (CacheUnused_getTenantConnection_begin env cfg tenantId s Hoff U) as H.
  destruct (getTenantConnection_begin env cfg tenantId s) as [[r|w] s1]; exact H.
Qed.

Lemma CacheUnused_resume_getTenantConnection env cfg g s :
  truthy (cacheConnections cfg) = false ->
  CacheUnused s -> CacheUnused (snd (resume_getTenantConnection env cfg g s)).
Proof.
  intros Hoff U. destruct g as [w|w|r]; cbn [resume_getTenantConnection].
  - pose proof (CacheUnused_getTenantConnection_found env cfg w s U) as H.
    destruct (getTenantConnection_found env cfg w s) as [[r|w'] s1]; exact H.
  - pose proof (CacheUnused_getTenantConnection_opened cfg w s Hoff U) as H.
    destruct (getTenantConnection_opened cfg w s) as [r s1]; exact H.
  - exact U.
Qed.

Lemma CacheUnused_resume env cfg task s :
  truthy (cacheConnections cfg) = false ->
  CacheUnused s -> CacheUnused (snd (resume env cfg task s)).
Proof.
  intros Hoff U. destruct task as [g|w|k tenantInfo g|r|[w|]|[|w ws]|];
    cbn [resume]; ssimpl;
    auto using CacheUnused_closeConnection_settled.
  - pose proof (CacheUnused_resume_getTenantConnection env cfg g s Hoff U) as H.
    destruct (resume_getTenantConnection env cfg g s); exact H.
  - unfold getTenantInfo_settled.
    destruct (ai_found w) as [e|[tenantInfo|]]; ssimpl; try exact U.
    pose proof (CacheUnused_start_getTenantConnection env cfg (ai_tenantId w) s
                  Hoff U) as H.
    destruct (start_getTenantConnection env cfg (ai_tenantId w) s); exact H.
  - destruct g as [w|w|[c|e]]; ssimpl; try exact U.
    + pose proof (CacheUnused_resume_getTenantConnection env cfg (GC_AwaitInfo w)
                    s Hoff U) as H.
      destruct (resume_getTenantConnection env cfg (GC_AwaitInfo w) s); exact H.
    + pose proof (CacheUnused_resume_getTenantConnection env cfg (GC_AwaitOpen w)
                    s Hoff U) as H.
      destruct (resume_getTenantConnection env cfg (GC_AwaitOpen w) s); exact H.
Qed.

Lemma CacheUnused_step cfg sys ee :
  truthy (cacheConnections cfg) = false ->
  CacheUnused (service sys) -> CacheUnused (service (step cfg sys ee)).
Proof.
  intros Hoff U. destruct ee as [env [k|k| |t|i]]; cbn [step].
  - pose proof (CacheUnused_start_getTenantConnection env cfg k _ Hoff U) as H.
    destruct (start_getTenantConnection env cfg k (service sys)); exact H.
  - exact U.
  - unfold closeAllConnections_begin.
    destruct (closeConnection_begin_all_spec env
                (JsMap.keys (connectionCache (service sys))) (service sys))
      as (_ & Hc & Ht & Hq & _).
    destruct (closeConnection_begin_all env _ (service sys)) as [ws s1].
    apply (CacheUnused_same _ _ Hc Ht Hq U).
  - unfold timeout_fires_begin. destruct U as (Hc & Ht & Hq). rewrite Hq.
    cbn [queued]. now repeat split.
  - destruct (nth_error (tasks sys) i) as [task|]; [|exact U].
    pose proof (CacheUnused_resume env cfg task _ Hoff U) as H.
    destruct (resume env cfg task (service sys)); exact H.
Qed.

Lemma CacheUnused_run cfg evs : forall sys,
  truthy (cacheConnections cfg) = false ->
  CacheUnused (service sys) -> CacheUnused (service (run cfg evs sys)).
Proof.
  unfold run. induction evs as [|ee evs IH]; intros sys Hoff U; [exact U|].
  cbn [fold_left]. apply IH; [exact Hoff|]. now apply CacheUnused_step.
Qed.

Lemma getTenantConnection_uncached env cfg tenantId s tenantInfo c :
  truthy (cacheConnections cfg) = false ->
  findOne env tenantId = DirRow (Some tenantInfo) ->
  isActive tenantInfo = true ->
  new_connection cfg tenantInfo (nextOid s) = Some c ->
  let s1 := snd (getTenantConnection env cfg tenantId s) in
  openCalls s1 = (openCalls s ++ [c])%list
  /\ nextOid s1 = S (nextOid s)
  /\ connectionCache s1 = connectionCache s
  /\ connectionTimers s1 = connectionTimers s
  /\ timeouts s1 = timeouts s
  /\ (opens env c = None -> fst (getTenantConnection env cfg tenantId s) = Resolved c).
Proof.
  intros Hoff Hd Ha Hn.
  assert (Hc : cached cfg tenantId s = None) by (unfold cached; now rewrite Hoff).
  rewrite (getTenantConnection_connects env _ _ _ _ _ Hc Hd Ha Hn).
  unfold getTenantConnection_opened, createTenantConnection_settled,
    failed_to_create. ssimpl.
  destruct (opens env c); ssimpl.
  - repeat split. discriminate.
  - rewrite Hoff. repeat split.
Qed.

(** C8.  With [cacheConnections] off (absent or [false]): whatever calls,
    timer events and resumptions happen, in any interleaving, the cache and
    the timer map stay empty, no timeout is ever queued and the statistics
    report zero connections.  A call that the directory lets through calls
    the connector and returns the connection just built, and a second call
    for the same key calls the connector again and gets another object. *)
Theorem caching_disabled_bypasses_the_cache :
  forall cfg,
    truthy (cacheConnections cfg) = false ->
    (forall evs,
       let s := service (run cfg evs boot) in
       getConnectionStats s = {| totalConnections := 0; activeTenants := [] |}
       /\ connectionCache s = [] /\ connectionTimers s = [] /\ timeouts s = [])
    /\ (forall env env2 tenantId s tenantInfo tenantInfo2 c c2,
          findOne env tenantId = DirRow (Some tenantInfo) ->
          isActive tenantInfo = true ->
          new_connection cfg tenantInfo (nextOid s) = Some c ->
          let s1 := snd (getTenantConnection env cfg tenantId s) in
          findOne env2 tenantId = DirRow (Some tenantInfo2) ->
          isActive tenantInfo2 = true ->
          new_connection cfg tenantInfo2 (nextOid s1) = Some c2 ->
          let s2 := snd (getTenantConnection env2 cfg tenantId s1) in
          openCalls s1 = (openCalls s ++ [c])%list
          /\ openCalls s2 = (openCalls s ++ [c; c2])%list
          /\ c2 <> c
          /\ (opens env c = None ->
              fst (getTenantConnection env cfg tenantId s) = Resolved c)
          /\ (opens env2 c2 = None ->
              fst (getTenantConnection env2 cfg tenantId s1) = Resolved c2)
          /\ connectionCache s2 = connectionCache s
          /\ connectionTimers s2 = connectionTimers s
          /\ timeouts s2 = timeouts s).
Proof.
  intros cfg Hoff. split.
  - intros evs s.
    assert (U : CacheUnused s).
    { apply CacheUnused_run; [exact Hoff|]. cbn. now repeat split. }
    destruct U as (Hc & Ht & Hq). unfold getConnectionStats.
    rewrite Hc, Ht, Hq. now repeat split.
  - intros env env2 tenantId s tenantInfo tenantInfo2 c c2 Hd Ha Hn s1 Hd2 Ha2
      Hn2 s2.
    destruct (getTenantConnection_uncached env cfg tenantId s _ _ Hoff Hd Ha Hn)
      as (O1 & N1 & C1 & T1 & Q1 & R1).
    fold s1 in O1, N1, C1, T1, Q1.
    destruct (getTenantConnection_uncached env2 cfg tenantId s1 _ _ Hoff Hd2 Ha2 Hn2)
      as (O2 & N2 & C2 & T2 & Q2 & R2).
    fold s2 in O2, N2, C2, T2, Q2.
    split; [exact O1|]. split.
    { rewrite O2, O1, <- app_assoc. reflexivity. }
    split.
    { intros E. apply new_connection_oid in Hn, Hn2. subst c2. lia. }
    split; [exact R1|]. split; [exact R2|].
    split; [congruence|]. split; congruence.
Qed.

Lemma caching_disabled_bypasses_the_cache_witness :
  truthy (cacheConnections (config "mysql" (Some false))) = false
  /\ getConnectionStats
       (service (run (config "mysql" (Some false))
                   [(world true true true, Call_getTenantConnection "t1");
                    (world true true true, Resume 0);
                    (world true true true, Resume 0);
                    (world true true true, Call_getTenantConnection "t1");
                    (world true true true, Resume 1);
                    (world true true true, Resume 1)] boot))
     = {| totalConnections := 0; activeTenants := [] |}.
Proof.
  split; [reflexivity|].
  apply (caching_disabled_bypasses_the_cache (config "mysql" (Some false))).
  reflexivity.
Defined.

(** ** Timeouts are never queued twice *)

Lemma QueueAdvances_same s s' :
  timeouts s' = timeouts s -> nextTimer s' = nextTimer s -> QueueAdvances s s'.
Proof.
  intros Hq Hn. split; [lia|]. intros t e Hin. left. now rewrite <- Hq.
Qed.

Lemma QueueAdvances_refl s : QueueAdvances s s.
Proof. now apply QueueAdvances_same. Qed.

Lemma QueueAdvances_trans s1 s2 s3 :
  QueueAdvances s1 s2 -> QueueAdvances s2 s3 -> QueueAdvances s1 s3.
Proof.
  intros [N1 Q1] [N2 Q2]. split; [lia|]. intros t e Hin.
  destruct (Q2 t e Hin) as [H|H]; [|right; lia].
  destruct (Q1 t e H) as [H'|H']; [now left | now right].
Qed.

Lemma QueueAdvances_clearTimeout t s : QueueAdvances s (clearTimeout t s).
Proof.
  split; [cbn; lia|]. cbn. intros t' e Hin. apply filter_In in Hin. tauto.
Qed.

Lemma QueueAdvances_setConnectionTimer cfg tenantId s :
  QueueAdvances s (setConnectionTimer cfg tenantId s).
Proof.
  split; [cbn; lia|]. cbn. intros t e Hin. apply in_app_iff in Hin.
  destruct Hin as [Hin|[E|[]]]; [now left|]. injection E as <- _. right. lia.
Qed.

Lemma QueueAdvances_resetConnectionTimer cfg tenantId s :
  QueueAdvances s (resetConnectionTimer cfg tenantId s).
Proof.
  unfold resetConnectionTimer.
  destruct (JsMap.get tenantId (connectionTimers s)) as [t|].
  - eapply QueueAdvances_trans;
      [apply QueueAdvances_clearTimeout | apply QueueAdvances_setConnectionTimer].
  - apply QueueAdvances_setConnectionTimer.
Qed.

Lemma QueueAdvances_getTenantConnection_begin env cfg tenantId s :
  QueueAdvances s (snd (getTenantConnection_begin env cfg tenantId s)).
Proof.
  unfold getTenantConnection_begin.
  destruct (cached cfg tenantId s); ssimpl.
  - eapply QueueAdvances_trans; [|apply QueueAdvances_resetConnectionTimer].
    now apply QueueAdvances_same.
  - now apply QueueAdvances_same.
Qed.

Lemma QueueAdvances_getTenantConnection_found env cfg w s :
  QueueAdvances s (snd (getTenantConnection_found env cfg w s)).
Proof.
  unfold getTenantConnection_found, getTenantInfo_settled.
  destruct (ai_found w) as [e|[tenantInfo|]]; ssimpl;
    try now apply QueueAdvances_same.
  destruct (isActive tenantInfo); ssimpl; [|now apply QueueAdvances_same].
  rewrite createTenantConnection_begin_spec.
  destruct (new_connection _ _ _); ssimpl; now apply QueueAdvances_same.
Qed.

Lemma QueueAdvances_getTenantConnection_opened cfg w s :
  QueueAdvances s (snd (getTenantConnection_opened cfg w s)).
Proof.
  unfold getTenantConnection_opened, createTenantConnection_settled,
    failed_to_create.
  destruct (ao_opened w); ssimpl; [now apply QueueAdvances_same|].
  destruct (truthy _); ssimpl; [|now apply QueueAdvances_same].
  split; [cbn; lia|]. cbn. intros t e Hin. apply in_app_iff in Hin.
  destruct Hin as [Hin|[E|[]]]; [now left|]. injection E as <- _. right. lia.
Qed.

Lemma QueueAdvances_closeConnection_settled w s :
  QueueAdvances s (closeConnection_settled w s).
Proof.
  unfold closeConnection_settled.
  destruct (acl_closed w); now apply QueueAdvances_same.
Qed.

Lemma QueueAdvances_closeConnection_begin env tenantId s :
  QueueAdvances s (snd (closeConnection_begin env tenantId s)).
Proof.
  rewrite closeConnection_begin_spec.
  destruct (JsMap.get _ _); now apply QueueAdvances_same.
Qed.

Lemma QueueAdvances_start_getTenantConnection env cfg tenantId s :
  QueueAdvances s (snd (start_getTenantConnection env cfg tenantId s)).
Proof.
  unfold start_getTenantConnection.
  pose proof (QueueAdvances_getTenantConnection_begin env cfg tenantId s) as H.
  destruct (getTenantConnection_begin env cfg tenantId s) as [[r|w] s1]; exact H.
Qed.

Lemma QueueAdvances_resume_getTenantConnection env cfg g s :
  QueueAdvances s (snd (resume_getTenantConnection env cfg g s)).
Proof.
  destruct g as [w|w|r]; cbn [resume_getTenantConnection].
  - pose proof (QueueAdvances_getTenantConnection_found env cfg w s) as H.
    destruct (getTenantConnection_found env cfg w s) as [[r|w'] s1]; exact H.
  - pose proof (QueueAdvances_getTenantConnection_opened cfg w s) as H.
    destruct (getTenantConnection_opened cfg w s) as [r s1]; exact H.
  - apply QueueAdvances_refl.
Qed.

Lemma QueueAdvances_resume env cfg task s :
  QueueAdvances s (snd (resume env cfg task s)).
Proof.
  destruct task as [g|w|k tenantInfo g|r|[w|]|[|w ws]|];
    cbn [resume]; ssimpl;
    auto using QueueAdvances_closeConnection_settled, QueueAdvances_refl.
  - pose proof (QueueAdvances_resume_getTenantConnection env cfg g s) as H.
    destruct (resume_getTenantConnection env cfg g s); exact H.
  - unfold getTenantInfo_settled.
    destruct (ai_found w) as [e|[tenantInfo|]]; ssimpl;
      try now apply QueueAdvances_same.
    pose proof (QueueAdvances_start_getTenantConnection env cfg (ai_tenantId w) s)
      as H.
    destruct (start_getTenantConnection env cfg (ai_tenantId w) s); exact H.
  - destruct g as [w|w|[c|e]]; ssimpl; try apply QueueAdvances_refl.
    + pose proof (QueueAdvances_resume_getTenantConnection env cfg
                    (GC_AwaitInfo w) s) as H.
      destruct (resume_getTenantConnection env cfg (GC_AwaitInfo w) s); exact H.
    + pose proof (QueueAdvances_resume_getTenantConnection env cfg
                    (GC_AwaitOpen w) s) as H.
      destruct (resume_getTenantConnection env cfg (GC_AwaitOpen w) s); exact H.
  - now apply QueueAdvances_same.
Qed.

Lemma QueueAdvances_step cfg sys ee :
  QueueAdvances (service sys) (service (step cfg sys ee)).
Proof.
  destruct ee as [env [k|k| |t|i]]; cbn [step].
  - pose proof (QueueAdvances_start_getTenantConnection env cfg k (service sys))
      as H.
    destruct (start_getTenantConnection env cfg k (service sys)); exact H.
  - now apply QueueAdvances_same.
  - unfold closeAllConnections_begin.
    destruct (closeConnection_begin_all_spec env
                (JsMap.keys (connectionCache (service sys))) (service sys))
      as (_ & _ & _ & Hq & Hn & _).
    destruct (closeConnection_begin_all env _ (service sys)) as [ws s1].
    now apply QueueAdvances_same.
  - unfold timeout_fires_begin.
    destruct (queued t (timeouts (service sys))) as [[tenantId d]|];
      [|apply QueueAdvances_refl].
    pose proof (QueueAdvances_closeConnection_begin env tenantId
                  (clearTimeout t (service sys))) as H.
    destruct (closeConnection_begin env tenantId (clearTimeout t (service sys))).
    eapply QueueAdvances_trans; [apply QueueAdvances_clearTimeout | exact H].
  - destruct (nth_error (tasks sys) i) as [task|]; [|apply QueueAdvances_refl].
    pose proof (QueueAdvances_resume env cfg task (service sys)) as H.
    destruct (resume env cfg task (service sys)); exact H.
Qed.

Lemma QueueAdvances_run cfg evs : forall sys,
  QueueAdvances (service sys) (service (run cfg evs sys)).
Proof.
  unfold run. induction evs as [|ee evs IH]; intros sys;
    [apply QueueAdvances_refl|].
  cbn [fold_left]. eapply QueueAdvances_trans; [apply QueueAdvances_step|].
  apply IH.
Qed.

Lemma queued_None t q : queued t q = None <-> ~ In t (map fst q).
Proof.
  induction q as [|[t' e] q IH]; cbn [queued map fst].
  - split; [intros _ [] | reflexivity].
  - destruct (Nat.eqb_spec t' t) as [->|Hne].
    + split; [discriminate | intros H; exfalso; apply H; now left].
    + rewrite IH. split.
      * intros H [E|I]; [congruence | contradiction].
      * intros H I. apply H. now right.
Qed.

Lemma queued_Some_In t e q : queued t q = Some e -> In (t, e) q.
Proof.
  induction q as [|[t' e'] q IH]; cbn [queued]; [discriminate|].
  destruct (Nat.eqb_spec t' t) as [->|Hne].
  - intros [= ->]. now left.
  - intros H. right. auto.
Qed.

(** A timeout that exists and is not queued is never queued again. *)
Lemma cleared_timeout_stays_cleared s s' t :
  QueueAdvances s s' ->
  t < nextTimer s -> queued t (timeouts s) = None ->
  queued t (timeouts s') = None.
Proof.
  intros [_ Q] Hlt Hn. apply queued_None. intros Hin.
  apply in_map_iff in Hin. destruct Hin as [[t' e] [E Hin]]. cbn in E. subst t'.
  destruct (Q t e Hin) as [H|H]; [|lia].
  apply queued_None in Hn. apply Hn. apply in_map_iff. now exists (t, e).
Qed.

(** ** Cache hits *)

Lemma filter_none (A : Type) (p : A -> bool) (l : list A) :
  (forall x, In x l -> p x = false) -> filter p l = [].
Proof.
  induction l as [|x l IH]; intros H; [reflexivity|]. cbn [filter].
  rewrite (H x (or_introl eq_refl)). apply IH. intros y Hy. apply H. now right.
Qed.

Lemma queued_snoc_fresh t e q :
  ~ In t (map fst q) -> queued t (q ++ [(t, e)]) = Some e.
Proof.
  induction q as [|[t' e'] q IH]; cbn [queued map fst app]; intros Hni.
  - now rewrite Nat.eqb_refl.
  - destruct (Nat.eqb_spec t' t) as [->|Hne].
    + exfalso. apply Hni. now left.
    + apply IH. intros H. apply Hni. now right.
Qed.

Lemma queued_snoc_other t t' e q :
  t <> t' -> queued t (q ++ [(t', e)]) = queued t q.
Proof.
  intros Hne. induction q as [|[t0 e0] q IH]; cbn [queued app].
  - destruct (Nat.eqb_spec t' t); [congruence | reflexivity].
  - destruct (Nat.eqb t0 t); [reflexivity | exact IH].
Qed.

Lemma queued_filter_cleared t q :
  queued t (filter (fun e => negb (Nat.eqb (fst e) t)) q) = None.
Proof.
  apply queued_None. intros Hin. apply in_map_iff in Hin.
  destruct Hin as [[t' e] [E Hin]]. cbn in E. subst t'.
  apply filter_In in Hin. destruct Hin as [_ H]. cbn in H.
  now rewrite Nat.eqb_refl in H.
Qed.

(** The state after a hit, field by field. *)
Lemma resetConnectionTimer_spec cfg tenantId s :
  let delay := or_default (idleTimeout cfg) DEFAULT_IDLE_TIMEOUT in
  let s' := resetConnectionTimer cfg tenantId s in
  connectionTimers s' = JsMap.set tenantId (nextTimer s) (connectionTimers s)
  /\ nextTimer s' = S (nextTimer s)
  /\ timeouts s' =
     (match JsMap.get tenantId (connectionTimers s) with
      | Some t => filter (fun e => negb (Nat.eqb (fst e) t)) (timeouts s)
      | None => timeouts s
      end ++ [(nextTimer s, (tenantId, delay))])%list.
Proof.
  unfold resetConnectionTimer.
  destruct (JsMap.get tenantId (connectionTimers s)); repeat split.
Qed.




(** ** Concurrent callers on a cold key *)

Local Open Scope list_scope.

Lemma run_app cfg evs1 evs2 sys :
  run cfg (evs1 ++ evs2) sys = run cfg evs2 (run cfg evs1 sys).
Proof. unfold run. apply fold_left_app. Qed.

Lemma run_cons cfg ee evs sys :
  run cfg (ee :: evs) sys = run cfg evs (step cfg sys ee).
Proof. reflexivity. Qed.

Lemma nth_error_middle (A : Type) (pre : list A) x post :
  nth_error (pre ++ x :: post) (List.length pre) = Some x.
Proof. induction pre as [|y pre IH]; [reflexivity | exact IH]. Qed.

Lemma replace_nth_middle (A : Type) (pre : list A) x y post :
  replace_nth (List.length pre) y (pre ++ x :: post) = (pre ++ y :: post)%list.
Proof.
  induction pre as [|z pre IH]; [reflexivity|].
  cbn [List.length app replace_nth]. now rewrite IH.
Qed.

(** Resuming the tasks at positions [length pre], [length pre + 1], ... one
    after the other is [resume_all] on that part of the task list. *)
Lemma run_resume_in_order env cfg ts : forall pre s,
  run cfg (map (fun i => (env, Resume i)) (seq (List.length pre) (List.length ts)))
    {| service := s; tasks := pre ++ ts |}
  = {| service := snd (resume_all env cfg ts s);
       tasks := pre ++ fst (resume_all env cfg ts s) |}.
Proof.
  induction ts as [|task ts IH]; intros pre s.
  - reflexivity.
  - cbn [List.length seq map resume_all]. rewrite run_cons.
    cbn [step service tasks]. rewrite nth_error_middle.
    destruct (resume env cfg task s) as [task' s1] eqn:E1.
    rewrite replace_nth_middle.
    destruct (resume_all env cfg ts s1) as [ts' s2] eqn:E2.
    cbn [fst snd].
    specialize (IH (pre ++ [task']) s1).
    rewrite length_app in IH. cbn [List.length] in IH.
    rewrite Nat.add_1_r in IH. rewrite <- app_assoc in IH. cbn [app] in IH.
    rewrite IH, E2. cbn [fst snd].
    now rewrite <- app_assoc.
Qed.

Lemma iter_record_findOne k n : forall s,
  connectionCache (Nat.iter n (record_findOne k) s) = connectionCache s
  /\ connectionTimers (Nat.iter n (record_findOne k) s) = connectionTimers s
  /\ timeouts (Nat.iter n (record_findOne k) s) = timeouts s
  /\ nextTimer (Nat.iter n (record_findOne k) s) = nextTimer s
  /\ nextOid (Nat.iter n (record_findOne k) s) = nextOid s
  /\ openCalls (Nat.iter n (record_findOne k) s) = openCalls s.
Proof.
  induction n as [|n IH]; intros s; [repeat split|].
  cbn [Nat.iter nat_rect]. ssimpl. apply IH.
Qed.

(** First phase: every caller misses and is suspended on the directory. *)
Lemma run_cold_calls env cfg tenantId n : forall sys,
  cached cfg tenantId (service sys) = None ->
  run cfg (repeat (env, Call_getTenantConnection tenantId) n) sys
  = {| service := Nat.iter n (record_findOne tenantId) (service sys);
       tasks := tasks sys ++
         repeat (T_getTenantConnection
                   (GC_AwaitInfo {| ai_tenantId := tenantId;
                                    ai_found := findOne env tenantId |})) n |}.
Proof.
  induction n as [|n IH]; intros sys Hc.
  - cbn [repeat Nat.iter nat_rect]. unfold run. cbn [fold_left].
    rewrite app_nil_r. now destruct sys.
  - cbn [repeat]. rewrite run_cons. cbn [step].
    unfold start_getTenantConnection, getTenantConnection_begin. rewrite Hc.
    rewrite IH by exact Hc. cbn [service tasks].
    f_equal.
    + symmetry. apply Nat.iter_succ_r.
    + now rewrite <- app_assoc.
Qed.

Section ColdBurst.
Variables (env : Env) (cfg : TenantConfig) (tenantId : string).
Variables (tenantInfo : TenantConnectionInfo) (mk : nat -> Connection).
Hypothesis Hon : truthy (cacheConnections cfg) = true.
Hypothesis Hrow : findOne env tenantId = DirRow (Some tenantInfo).
Hypothesis Hactive : isActive tenantInfo = true.
Hypothesis Hmk : forall i, new_connection cfg tenantInfo i = Some (mk i).
Hypothesis Hopens : forall i, opens env (mk i) = None.

Local Abbreviation asked := (burst_asked env tenantId).
Local Abbreviation opening := (burst_opening env tenantId tenantInfo mk).
Local Abbreviation served := (burst_served mk).
Local Abbreviation delay := (or_default (idleTimeout cfg) DEFAULT_IDLE_TIMEOUT).

(** A caller that passed the cache test calls the connector when it is
    resumed, whatever the cache holds by then. *)
Lemma resume_asked s :
  resume env cfg asked s = (opening (nextOid s), record_open (mk (nextOid s)) s).
Proof.
  unfold burst_asked, burst_opening. cbn [resume resume_getTenantConnection].
  unfold getTenantConnection_found, getTenantInfo_settled. ssimpl.
  rewrite Hrow, Hactive. ssimpl. rewrite createTenantConnection_begin_spec.
  rewrite Hmk. reflexivity.
Qed.

(** A caller whose connection opened stores it, over whatever is there. *)
Lemma resume_opening i s :
  resume env cfg (opening i) s =
  (served i,
   logger Debug ("Cached connection for tenant: " ++ tenantId)%string None
     (setConnectionTimer cfg tenantId
        (with_cache (JsMap.set tenantId (mk i) (connectionCache s))
           (logger Log (established (mk i) tenantInfo) None s)))).
Proof.
  unfold burst_opening, burst_served. cbn [resume resume_getTenantConnection].
  rewrite getTenantConnection_opened_success by apply Hopens.
  ssimpl. rewrite Hon. reflexivity.
Qed.

(** Second phase. *)
Lemma resume_all_asked n : forall s,
  let r := resume_all env cfg (repeat asked n) s in
  fst r = map opening (seq (nextOid s) n)
  /\ connectionCache (snd r) = connectionCache s
  /\ connectionTimers (snd r) = connectionTimers s
  /\ timeouts (snd r) = timeouts s
  /\ nextTimer (snd r) = nextTimer s
  /\ openCalls (snd r) = openCalls s ++ map mk (seq (nextOid s) n).
Proof.
  induction n as [|n IH]; intros s; cbn [repeat resume_all seq map].
  - ssimpl. rewrite app_nil_r. repeat split.
  - rewrite resume_asked.
    specialize (IH (record_open (mk (nextOid s)) s)). cbn zeta in IH.
    destruct (resume_all env cfg (repeat asked n)
                (record_open (mk (nextOid s)) s)) as [ts s2].
    ssimpl. destruct IH as (-> & -> & -> & -> & -> & ->).
    rewrite <- app_assoc. repeat split.
Qed.

(** Third phase. *)
Lemma resume_all_opening n : forall a s,
  let r := resume_all env cfg (map opening (seq a n)) s in
  fst r = map served (seq a n)
  /\ openCalls (snd r) = openCalls s
  /\ timeouts (snd r) =
     timeouts s ++ map (fun t => (t, (tenantId, delay))) (seq (nextTimer s) n)
  /\ JsMap.get tenantId (connectionCache (snd r)) =
     match n with
     | O => JsMap.get tenantId (connectionCache s)
     | S m => Some (mk (a + m))
     end.
Proof.
  induction n as [|n IH]; intros a s; cbn [seq map resume_all].
  - ssimpl. rewrite app_nil_r. repeat split.
  - rewrite resume_opening.
    set (s1 := logger Debug _ None _).
    specialize (IH (S a) s1). cbn zeta in IH.
    destruct (resume_all env cfg (map opening (seq (S a) n)) s1) as [ts s2].
    ssimpl. destruct IH as (-> & -> & -> & ->).
    split; [reflexivity|]. split; [reflexivity|]. split.
    + unfold s1. cbn. rewrite <- app_assoc. reflexivity.
    + destruct n as [|m].
      * unfold s1. cbn. rewrite Nat.add_0_r. apply JsMapFacts.get_set_same.
      * f_equal. f_equal. lia.
Qed.

Lemma mk_distinct a n : NoDup (map mk (seq a n)).
Proof.
  apply NoDup_of_oids. rewrite map_map.
  rewrite (map_ext (fun i => oid_of (mk i)) (fun i => i)).
  - rewrite map_id. apply seq_NoDup.
  - intros i. apply (new_connection_oid cfg tenantInfo). apply Hmk.
Qed.

(** Any order of resumptions keeps the invariant of a burst. *)
Lemma BurstInv_resume i s ts :
  BurstInv env tenantId tenantInfo mk s ts ->
  BurstInv env tenantId tenantInfo mk
    (service (step cfg {| service := s; tasks := ts |} (env, Resume i)))
    (tasks (step cfg {| service := s; tasks := ts |} (env, Resume i))).
Proof.
  intros (Hshape & Hcalls & Hperm & Hcache). cbn [step service tasks].
  destruct (nth_error ts i) as [t|] eqn:Hnth;
    [|cbn [service tasks]; unfold BurstInv; now repeat split].
  destruct (nth_error_split ts i Hnth) as (pre & post & -> & <-).
  apply Forall_app in Hshape. destruct Hshape as [Hpre Hrest].
  inversion Hrest as [|? ? Ht Hpost]; subst.
  rewrite flat_map_app in Hperm. cbn [flat_map] in Hperm.
  destruct Ht as [->|[j [->| ->]]].
  - rewrite resume_asked. cbn [service tasks]. rewrite replace_nth_middle.
    unfold BurstInv. ssimpl. split; [|split; [|split]].
    + apply Forall_app. split; [exact Hpre|]. constructor; [|exact Hpost].
      right. exists (nextOid s). now left.
    + rewrite seq_S, map_app, Hcalls. reflexivity.
    + rewrite flat_map_app. cbn [flat_map holds burst_opening ao_connection].
      cbn [holds burst_asked app] in Hperm.
      rewrite seq_S, map_app. cbn [map Nat.add].
      apply Permutation_trans
        with (mk (nextOid s) :: flat_map holds pre ++ flat_map holds post).
      * apply Permutation_sym, Permutation_middle.
      * apply Permutation_trans with (mk (nextOid s) :: map mk (seq 0 (nextOid s))).
        -- now constructor.
        -- apply Permutation_cons_append.
    + destruct Hcache as [(j & Hin & Hget)|(Hget & Hnone)].
      * left. exists j. split; [|exact Hget].
        apply in_app_iff in Hin. apply in_app_iff.
        destruct Hin as [Hin|[E|Hin]]; [now left | discriminate | right; now right].
      * right. split; [exact Hget|].
        rewrite forallb_app in Hnone. rewrite forallb_app.
        apply andb_true_iff in Hnone. destruct Hnone as [N1 N2].
        cbn [forallb] in N2. apply andb_true_iff in N2. destruct N2 as [_ N3].
        rewrite N1. cbn [forallb is_served burst_opening negb andb]. exact N3.
  - rewrite resume_opening. cbn [service tasks]. rewrite replace_nth_middle.
    unfold BurstInv. ssimpl. split; [|split; [|split]].
    + apply Forall_app. split; [exact Hpre|]. constructor; [|exact Hpost].
      right. exists j. now right.
    + exact Hcalls.
    + rewrite flat_map_app. exact Hperm.
    + left. exists j. split; [apply in_app_iff; right; now left|].
      cbn. apply JsMapFacts.get_set_same.
  - change (resume env cfg (burst_served mk j) s) with (burst_served mk j, s).
    cbn [service tasks]. rewrite replace_nth_middle.
    unfold BurstInv. repeat split; try assumption.
    + apply Forall_app. split; [exact Hpre|]. constructor; [|exact Hpost].
      right. exists j. now right.
    + rewrite flat_map_app. exact Hperm.
Qed.

Lemma length_replace_nth (A : Type) (x : A) : forall l i,
  List.length (replace_nth i x l) = List.length l.
Proof.
  induction l as [|y l IH]; intros [|i]; cbn [replace_nth List.length];
    try reflexivity.
  now rewrite IH.
Qed.

Lemma BurstInv_resumes order : forall s ts,
  BurstInv env tenantId tenantInfo mk s ts ->
  let sys := run cfg (map (fun i => (env, Resume i)) order)
               {| service := s; tasks := ts |} in
  BurstInv env tenantId tenantInfo mk (service sys) (tasks sys)
  /\ List.length (tasks sys) = List.length ts.
Proof.
  induction order as [|i order IH]; intros s ts Hinv; [now split|].
  cbn [map]. cbn zeta. rewrite run_cons.
  pose proof (BurstInv_resume i s ts Hinv) as Hstep.
  assert (Hlen : List.length
            (tasks (step cfg {| service := s; tasks := ts |} (env, Resume i)))
          = List.length ts).
  { cbn [step service tasks]. destruct (nth_error ts i); [|reflexivity].
    destruct (resume env cfg t s). cbn [tasks]. apply length_replace_nth. }
  destruct (step cfg {| service := s; tasks := ts |} (env, Resume i))
    as [s1 ts1].
  cbn [service tasks] in *.
  destruct (IH s1 ts1 Hstep) as [H1 H2]. split; [exact H1|]. congruence.
Qed.

Lemma holds_when_served ts :
  forallb is_served ts = true -> List.length (flat_map holds ts) = List.length ts.
Proof.
  induction ts as [|t ts IH]; [reflexivity|]. cbn [forallb flat_map].
  intros H. apply andb_true_iff in H. destruct H as [Ht Hts].
  rewrite length_app. cbn [List.length]. rewrite (IH Hts).
  destruct t as [[w|w|[c|e]]| | | | | |]; try discriminate. reflexivity.
Qed.

Lemma mk_injective i j : mk i = mk j -> i = j.
Proof.
  intros E. rewrite <- (new_connection_oid cfg tenantInfo i (mk i) (Hmk i)).
  rewrite <- (new_connection_oid cfg tenantInfo j (mk j) (Hmk j)).
  now rewrite E.
Qed.

(** A burst on the fresh service, its callers resumed in any order. *)
Lemma BurstInv_any_order n order :
  let sys := run cfg (repeat (env, Call_getTenantConnection tenantId) n
                      ++ map (fun i => (env, Resume i)) order) boot in
  BurstInv env tenantId tenantInfo mk (service sys) (tasks sys)
  /\ List.length (tasks sys) = n.
Proof.
  cbn zeta. rewrite run_app.
  rewrite run_cold_calls by (unfold cached; rewrite Hon; reflexivity).
  cbn [boot service tasks app].
  destruct (iter_record_findOne tenantId n initialState)
    as (I1 & _ & _ & _ & I5 & I6).
  set (s1 := Nat.iter n (record_findOne tenantId) initialState) in *.
  assert (Hinv : BurstInv env tenantId tenantInfo mk s1 (repeat asked n)).
  { unfold BurstInv. rewrite I1, I5, I6. cbn [initialState openCalls nextOid
      connectionCache seq map JsMap.get JsMap.empty].
    assert (Hrep : flat_map holds (repeat asked n) = []
                   /\ forallb (fun t => negb (is_served t)) (repeat asked n) = true).
    { clear. induction n as [|n [IH1 IH2]]; [now split|].
      cbn [repeat flat_map forallb]. rewrite IH1, IH2. now split. }
    destruct Hrep as [R1 R2]. rewrite R1.
    split; [|split; [reflexivity | split; [constructor | right; now split]]].
    apply Forall_forall. intros t Ht. apply repeat_spec in Ht. now left. }
  destruct (BurstInv_resumes order s1 (repeat asked n) Hinv) as [H1 H2].
  split; [exact H1|]. rewrite repeat_length in H2. exact H2.
Qed.

(** The whole burst, started on a state without an entry for the key. *)
Lemma cold_burst_spec n s :
  JsMap.get tenantId (connectionCache s) = None ->
  let sys := run cfg (cold_burst env tenantId n) {| service := s; tasks := [] |} in
  tasks sys = map served (seq (nextOid s) n)
  /\ openCalls (service sys) = openCalls s ++ map mk (seq (nextOid s) n)
  /\ timeouts (service sys) =
     timeouts s ++ map (fun t => (t, (tenantId, delay))) (seq (nextTimer s) n)
  /\ JsMap.get tenantId (connectionCache (service sys)) =
     match n with
     | O => None
     | S m => Some (mk (nextOid s + m))
     end.
Proof.
  intros Hcold sys. unfold sys, cold_burst. rewrite !run_app.
  rewrite run_cold_calls
    by (unfold cached; cbn [service]; rewrite Hon; exact Hcold).
  cbn [service tasks app]. fold (burst_asked env tenantId).
  destruct (iter_record_findOne tenantId n s) as (I1 & I2 & I3 & I4 & I5 & I6).
  set (s1 := Nat.iter n (record_findOne tenantId) s) in *.
  pose proof (run_resume_in_order env cfg (repeat asked n) [] s1) as R2.
  cbn [app List.length] in R2. rewrite repeat_length in R2. rewrite R2.
  destruct (resume_all_asked n s1) as (A1 & A2 & A3 & A4 & A5 & A6).
  destruct (resume_all env cfg (repeat asked n) s1) as [ts2 s2].
  cbn [fst snd] in *. subst ts2.
  pose proof (run_resume_in_order env cfg (map opening (seq (nextOid s1) n))
                [] s2) as R3.
  cbn [app List.length] in R3. rewrite length_map, length_seq in R3.
  rewrite R3.
  destruct (resume_all_opening n (nextOid s1) s2) as (B1 & B2 & B3 & B4).
  destruct (resume_all env cfg (map opening (seq (nextOid s1) n)) s2)
    as [ts3 s3].
  cbn [fst snd service tasks] in *. subst ts3.
  rewrite B2, B3, B4, A6, A5, A4, A2, I6, I5, I4, I3, I1, Hcold.
  repeat split.
Qed.
End ColdBurst.

(** C1, counterexample.  Two callers ask for the same tenant while the
    cache is empty, and both pass the cache test before either is resumed:
    the connector is called twice, the callers get two different
    connections, the cache keeps the second one only, and the first stays
    open with an idle timeout of its own still queued. *)
Lemma concurrent_cold_calls_connect_twice :
  let cfg := config "mysql" (Some true) in
  let env := world true true true in
  let c0 := DataSource 0 (sqlOptions cfg (acme "t1" true)) in
  let c1 := DataSource 1 (sqlOptions cfg (acme "t1" true)) in
  let sys :=
    run cfg [(env, Call_getTenantConnection "t1");
             (env, Call_getTenantConnection "t1");
             (env, Resume 0); (env, Resume 1);
             (env, Resume 0); (env, Resume 1)] boot in
  JsMap.has "t1" (connectionCache (service boot)) = false
  /\ openCalls (service sys) = [c0; c1]
  /\ List.length (openCalls (service sys)) <> 1
  /\ tasks sys = [T_getTenantConnection (GC_Done (Resolved c0));
                  T_getTenantConnection (GC_Done (Resolved c1))]
  /\ c0 <> c1
  /\ connectionCache (service sys) = [("t1", c1)]
  /\ closeCalls (service sys) = []
  /\ queued_for "t1" (service sys) = [0; 1].
Proof.
  vm_compute. repeat split; discriminate.
Qed.

(** C1, amended.  At any time, under any interleaving of calls, timer
    events and resumptions, the cache has at most one entry per key.
    Creation is not serialized per key.  When callers ask for a key that
    has no entry and all pass the cache test before any of them is resumed,
    then, in whatever order they are resumed, the connector is called once
    for every caller that got past the directory, no two callers hold the
    same connection object, and once all are served the connector has been
    called once per caller and the cache entry of the key is the connection
    of one of them.  When the callers are resumed in the order of their
    arrival, the entry left in the cache is the one of the last caller, and
    an idle timeout is queued for the key for every caller. *)
Theorem one_entry_per_key_without_single_flight :
  forall env cfg tenantId tenantInfo mk n,
    truthy (cacheConnections cfg) = true ->
    findOne env tenantId = DirRow (Some tenantInfo) ->
    isActive tenantInfo = true ->
    (forall i, new_connection cfg tenantInfo i = Some (mk i)) ->
    (forall i, opens env (mk i) = None) ->
    (forall evs,
       NoDup (activeTenants (getConnectionStats (service (run cfg evs boot)))))
    /\ (forall order,
          let sys :=
            run cfg (repeat (env, Call_getTenantConnection tenantId) (S n)
                     ++ map (fun i => (env, Resume i)) order) boot in
          List.length (tasks sys) = S n
          /\ List.length (openCalls (service sys))
             = List.length (flat_map holds (tasks sys))
          /\ NoDup (flat_map holds (tasks sys))
          /\ (forallb is_served (tasks sys) = true ->
              openCalls (service sys) = map mk (seq 0 (S n))
              /\ exists i,
                   i < S n
                   /\ In (T_getTenantConnection (GC_Done (Resolved (mk i))))
                        (tasks sys)
                   /\ JsMap.get tenantId (connectionCache (service sys))
                      = Some (mk i)))
    /\ let sys := run cfg (cold_burst env tenantId (S n)) boot in
       openCalls (service sys) = map mk (seq 0 (S n))
       /\ tasks sys =
          map (fun i => T_getTenantConnection (GC_Done (Resolved (mk i))))
            (seq 0 (S n))
       /\ NoDup (map mk (seq 0 (S n)))
       /\ JsMap.get tenantId (connectionCache (service sys)) = Some (mk n)
       /\ queued_for tenantId (service sys) = seq 0 (S n).
Proof.
  intros env cfg tenantId tenantInfo mk n Hon Hrow Hactive Hmk Hopens.
  split; [|split].
  - intros evs. cbn [getConnectionStats activeTenants].
    apply (wf_cache _ (WellFormed_run cfg evs boot WellFormed_initialState)).
  - intros order sys.
    destruct (BurstInv_any_order env cfg tenantId tenantInfo mk Hon Hrow Hactive
                Hmk Hopens (S n) order) as [(Hshape & Hcalls & Hperm & Hcache) Hlen].
    fold sys in Hshape, Hcalls, Hperm, Hcache, Hlen.
    split; [exact Hlen|].
    split.
    { rewrite Hcalls. symmetry. now apply Permutation_length. }
    split.
    { apply (Permutation_NoDup (Permutation_sym Hperm)).
      apply (mk_distinct cfg tenantInfo mk Hmk). }
    intros Hserved.
    assert (Hm : nextOid (service sys) = S n).
    { apply Permutation_length in Hperm.
      rewrite (holds_when_served _ Hserved), Hlen in Hperm.
      now rewrite length_map, length_seq in Hperm. }
    split; [now rewrite Hcalls, Hm|].
    destruct Hcache as [(i & Hin & Hget)|(_ & Hnone)].
    + exists i. split; [|split; [exact Hin | exact Hget]].
      assert (Hheld : In (mk i) (flat_map holds (tasks sys))).
      { apply in_flat_map. exists (burst_served mk i). split; [exact Hin|].
        now left. }
      apply (Permutation_in _ Hperm) in Hheld. rewrite Hm in Hheld.
      apply in_map_iff in Hheld. destruct Hheld as (j & E & Hj).
      apply (mk_injective cfg tenantInfo mk Hmk) in E. subst j.
      apply in_seq in Hj. lia.
    + exfalso. destruct (tasks sys) as [|t ts]; [discriminate|].
      cbn [forallb] in Hserved, Hnone.
      apply andb_true_iff in Hserved. apply andb_true_iff in Hnone.
      destruct Hserved as [S1 _]. destruct Hnone as [N1 _].
      rewrite S1 in N1. discriminate.
  - intros sys.
    destruct (cold_burst_spec env cfg tenantId tenantInfo mk Hon Hrow Hactive
                Hmk Hopens (S n) initialState eq_refl) as (T & O & Q & G).
    fold boot in T, O, Q, G. fold sys in T, O, Q, G.
    cbn [initialState nextOid nextTimer openCalls timeouts app] in T, O, Q, G.
    split; [exact O|]. split; [exact T|].
    split; [apply (mk_distinct cfg tenantInfo mk Hmk)|].
    split; [exact G|].
    unfold queued_for. rewrite Q.
    generalize (seq 0 (S n)). intros l.
    induction l as [|t l IH]; [reflexivity|].
    cbn [map filter fst snd]. rewrite String.eqb_refl. cbn [map fst].
    now rewrite IH.
Qed.

Lemma one_entry_per_key_without_single_flight_witness :
  let cfg := config "mysql" (Some true) in
  let env := world true true true in
  List.length (openCalls (service (run cfg (cold_burst env "t1" 3) boot))) = 3
  /\ JsMap.get "t1" (connectionCache (service (run cfg (cold_burst env "t1" 3) boot)))
     = Some (DataSource 2 (sqlOptions cfg (acme "t1" true))).
Proof.
  intros cfg env.
  destruct (one_entry_per_key_without_single_flight env cfg "t1" (acme "t1" true)
              (fun i => DataSource i (sqlOptions cfg (acme "t1" true))) 2)
    as (_ & _ & H1 & _ & _ & H4 & _); try reflexivity.
  split; [now rewrite H1 | exact H4].
Defined.

(** ** One call at a time is one of the interleavings *)

(** Starting a call in the scheduler and resuming it until it is done is
    the uninterrupted [getTenantConnection]. *)
Lemma run_getTenantConnection_alone env cfg tenantId sys :
  let i := List.length (tasks sys) in
  let r := getTenantConnection env cfg tenantId (service sys) in
  run cfg [(env, Call_getTenantConnection tenantId); (env, Resume i);
           (env, Resume i)] sys
  = {| service := snd r;
       tasks := tasks sys ++ [T_getTenantConnection (GC_Done (fst r))] |}.
Proof.
  intros i r. unfold r, getTenantConnection.
  rewrite !run_cons. cbn [run fold_left step].
  unfold start_getTenantConnection.
  destruct (getTenantConnection_begin env cfg tenantId (service sys))
    as [[r0|w] s1]; cbn [service tasks].
  - unfold i. rewrite nth_error_middle. cbn [resume resume_getTenantConnection].
    rewrite replace_nth_middle. cbn [service tasks].
    rewrite nth_error_middle. cbn [resume resume_getTenantConnection].
    now rewrite replace_nth_middle.
  - unfold i. rewrite nth_error_middle. cbn [resume resume_getTenantConnection].
    destruct (getTenantConnection_found env cfg w s1) as [[r1|w'] s2];
      rewrite replace_nth_middle; cbn [service tasks];
      rewrite nth_error_middle; cbn [resume resume_getTenantConnection].
    + now rewrite replace_nth_middle.
    + destruct (getTenantConnection_opened cfg w' s2) as [r2 s3].
      now rewrite replace_nth_middle.
Qed.

(** Starting [closeAllConnections] in the scheduler and resuming it until
    it is done is the uninterrupted [closeAllConnections]. *)
Lemma resume_closeAllConnections_to_end env cfg ws : forall pre post s,
  run cfg (repeat (env, Resume (List.length pre)) (S (List.length ws)))
    {| service := s; tasks := pre ++ T_closeAllConnections ws :: post |}
  = {| service := logger Log "All tenant connections closed" None
                    (closeConnection_settle_all ws s);
       tasks := pre ++ T_closeAllConnections_done :: post |}.
Proof.
  induction ws as [|w ws IH]; intros pre post s.
  - cbn [List.length repeat]. rewrite run_cons. cbn [step service tasks run fold_left].
    rewrite nth_error_middle. cbn [resume]. now rewrite replace_nth_middle.
  - cbn [List.length repeat]. rewrite run_cons. cbn [step service tasks].
    rewrite nth_error_middle. cbn [resume]. rewrite replace_nth_middle.
    apply (IH pre post (closeConnection_settled w s)).
Qed.

Lemma run_closeAllConnections_alone env cfg sys :
  let i := List.length (tasks sys) in
  let n := List.length (fst (closeAllConnections_begin env (service sys))) in
  run cfg ((env, Call_closeAllConnections) :: repeat (env, Resume i) (S n)) sys
  = {| service := snd (closeAllConnections env (service sys));
       tasks := tasks sys ++ [T_closeAllConnections_done] |}.
Proof.
  intros i n. rewrite run_cons. cbn [step]. unfold closeAllConnections, n.
  destruct (closeAllConnections_begin env (service sys)) as [ws s1].
  cbn [fst snd]. apply resume_closeAllConnections_to_end.
Qed.

(** * Further properties of the connection service *)

Lemma delete_set_absent {V : Type} k (v : V) (m : JsMap.t V) :
  JsMap.get k m = None -> JsMap.delete k (JsMap.set k v m) = m.
Proof.
  induction m as [|[k' v'] m IH]; cbn [JsMap.get JsMap.set JsMap.delete].
  - intros _. now rewrite String.eqb_refl.
  - destruct (String.eqb k k') eqn:E; [discriminate|].
    intros H. cbn [JsMap.delete]. rewrite E. now rewrite IH.
Qed.

Lemma keys_set_absent {V : Type} k (v : V) (m : JsMap.t V) :
  JsMap.get k m = None -> JsMap.keys (JsMap.set k v m) = JsMap.keys m ++ [k].
Proof.
  intros H. rewrite JsMapFacts.keys_set. unfold JsMap.has. now rewrite H.
Qed.

Lemma size_set_absent {V : Type} k (v : V) (m : JsMap.t V) :
  JsMap.get k m = None -> JsMap.size (JsMap.set k v m) = S (JsMap.size m).
Proof.
  unfold JsMap.size.
  induction m as [|[k' v'] m IH]; cbn [JsMap.get JsMap.set List.length];
    [reflexivity|].
  destruct (String.eqb k k'); [discriminate|].
  intros H. cbn [List.length]. now rewrite IH.
Qed.

Lemma or_default_nonzero x d : d <> 0%Z -> or_default x d <> 0%Z.
Proof.
  intros Hd. unfold or_default. destruct x as [v|]; [|exact Hd].
  destruct (Z.eqb_spec v 0); [exact Hd | assumption].
Qed.

(** The state after a call that misses, is let through by the directory
    and whose connection opens, with caching on. *)
Lemma getTenantConnection_stores env cfg tenantId s tenantInfo c :
  truthy (cacheConnections cfg) = true ->
  JsMap.get tenantId (connectionCache s) = None ->
  findOne env tenantId = DirRow (Some tenantInfo) ->
  isActive tenantInfo = true ->
  new_connection cfg tenantInfo (nextOid s) = Some c ->
  opens env c = None ->
  getTenantConnection env cfg tenantId s =
  (Resolved c,
   logger Debug ("Cached connection for tenant: " ++ tenantId)%string None
     (setConnectionTimer cfg tenantId
        (with_cache (JsMap.set tenantId c (connectionCache s))
           (logger Log (established c tenantInfo) None
              (record_open c (record_findOne tenantId s)))))).
Proof.
  intros Hon Hmiss Hd Ha Hn Ho.
  assert (Hc : cached cfg tenantId s = None)
    by (unfold cached; now rewrite Hon).
  rewrite (getTenantConnection_connects env _ _ _ _ _ Hc Hd Ha Hn).
  rewrite getTenantConnection_opened_success by exact Ho.
  cbn [ao_connection ao_tenantInfo ao_tenantId]. cbn zeta. now rewrite Hon.
Qed.

(** X2.  A call that connects for a key without an entry, with caching on,
    adds the key at the end of the active tenants, raises the count by one,
    registers a new timeout for the key and queues it behind the others with
    the configured idle delay; the delay is [DEFAULT_IDLE_TIMEOUT] when the
    setting is absent or zero, so it is never zero. *)
Theorem connecting_stores_and_arms_one_timer :
  forall env cfg tenantId s tenantInfo c,
    truthy (cacheConnections cfg) = true ->
    JsMap.get tenantId (connectionCache s) = None ->
    findOne env tenantId = DirRow (Some tenantInfo) ->
    isActive tenantInfo = true ->
    new_connection cfg tenantInfo (nextOid s) = Some c ->
    opens env c = None ->
    let s1 := snd (getTenantConnection env cfg tenantId s) in
    let delay := or_default (idleTimeout cfg) DEFAULT_IDLE_TIMEOUT in
    activeTenants (getConnectionStats s1)
      = activeTenants (getConnectionStats s) ++ [tenantId]
    /\ totalConnections (getConnectionStats s1)
       = S (totalConnections (getConnectionStats s))
    /\ JsMap.get tenantId (connectionCache s1) = Some c
    /\ JsMap.get tenantId (connectionTimers s1) = Some (nextTimer s)
    /\ timeouts s1 = timeouts s ++ [(nextTimer s, (tenantId, delay))]
    /\ delay <> 0%Z
    /\ ((idleTimeout cfg = None \/ idleTimeout cfg = Some 0%Z) ->
        delay = 300000%Z).
Proof.
  intros env cfg tenantId s tenantInfo c Hon Hmiss Hd Ha Hn Ho.
  rewrite (getTenantConnection_stores env cfg tenantId s tenantInfo c Hon Hmiss Hd Ha Hn Ho).
  cbn [fst snd]. cbn zeta.
  unfold getConnectionStats. cbn [activeTenants totalConnections].
  cbn [logger setConnectionTimer setTimeout with_timers with_cache
       connectionCache connectionTimers timeouts nextTimer record_open
       record_findOne].
  split; [now apply keys_set_absent|].
  split.
  { now apply size_set_absent. }
  split; [apply JsMapFacts.get_set_same|].
  split; [apply JsMapFacts.get_set_same|].
  split; [reflexivity|].
  split; [apply or_default_nonzero; discriminate|].
  intros [H|H]; rewrite H; reflexivity.
Qed.

Lemma connecting_stores_and_arms_one_timer_witness :
  let cfg := {| driver := "mongodb"; cacheConnections := Some true;
                maxConnections := None; connectionTimeout := None;
                idleTimeout := Some 0%Z |} in
  timeouts (snd (getTenantConnection (world true true true) cfg "t1" initialState))
  = [(0, ("t1", 300000%Z))].
Proof.
  intros cfg.
  destruct (connecting_stores_and_arms_one_timer (world true true true) cfg "t1"
              initialState (acme "t1" true)
              (MongoConnection 0 (mongoConnectionString (acme "t1" true))
                 (mongoOptions cfg (acme "t1" true)))
              eq_refl eq_refl eq_refl eq_refl eq_refl eq_refl)
    as (_ & _ & _ & _ & H & _).
  exact H.
Defined.

Lemma size_delete_present {V : Type} k (v : V) (m : JsMap.t V) :
  NoDup (JsMap.keys m) -> JsMap.get k m = Some v ->
  S (JsMap.size (JsMap.delete k m)) = JsMap.size m.
Proof.
  unfold JsMap.size.
  induction m as [|[k' v'] m IH];
    cbn [JsMap.get JsMap.delete JsMap.keys map fst List.length];
    [discriminate|].
  intros Hnd Hget. inversion Hnd as [|? ? Hk Hm]; subst.
  destruct (String.eqb_spec k k') as [->|Hne].
  - rewrite JsMapFacts.delete_absent; [reflexivity|].
    now apply JsMapFacts.get_None_keys.
  - cbn [List.length]. f_equal. now apply IH.
Qed.

(** X3.  Idle eviction.  After a call that connected (caching on), the
    timeout registered for the key is queued; when it fires, the closing
    method of the stored connection is called, the fired timeout leaves the
    queue and no new one is queued: the queue is again what it was before
    the connecting call.  If the close succeeds the key leaves the cache
    and the timer map and the active tenants are as before the call.  If it
    fails the connection stays cached with the fired timeout still
    registered for it; the timeouts queued for the key are then those that
    were queued before the connecting call, so when there were none the
    entry is left without any idle timeout. *)
Theorem idle_timeout_evicts_the_entry :
  forall env env3 cfg tenantId s tenantInfo c,
    WellFormed s ->
    truthy (cacheConnections cfg) = true ->
    JsMap.get tenantId (connectionCache s) = None ->
    findOne env tenantId = DirRow (Some tenantInfo) ->
    isActive tenantInfo = true ->
    new_connection cfg tenantInfo (nextOid s) = Some c ->
    opens env c = None ->
    let s1 := snd (getTenantConnection env cfg tenantId s) in
    exists s2,
      timeout_fires env3 (nextTimer s) s1 = Some s2
      /\ closeCalls s2 = closeCalls s ++ [c]
      /\ timeouts s2 = timeouts s
      /\ queued (nextTimer s) (timeouts s2) = None
      /\ match closes env3 c with
         | None =>
             connectionCache s2 = connectionCache s
             /\ JsMap.get tenantId (connectionTimers s2) = None
             /\ activeTenants (getConnectionStats s2)
                = activeTenants (getConnectionStats s)
         | Some _ =>
             JsMap.get tenantId (connectionCache s2) = Some c
             /\ JsMap.get tenantId (connectionTimers s2) = Some (nextTimer s)
             /\ queued_for tenantId s2 = queued_for tenantId s
             /\ (queued_for tenantId s = [] -> queued_for tenantId s2 = [])
         end.
Proof.
  intros env env3 cfg tenantId s tenantInfo c W Hon Hmiss Hd Ha Hn Ho.
  rewrite (getTenantConnection_stores env cfg tenantId s tenantInfo c
             Hon Hmiss Hd Ha Hn Ho).
  cbn [snd]. cbn zeta. set (s1 := logger Debug _ None _).
  assert (Hfresh : ~ In (nextTimer s) (map fst (timeouts s))).
  { intros Hin. apply in_map_iff in Hin. destruct Hin as [[t e] [E Hin]].
    cbn in E. subst t. apply (wf_queue_fresh s W) in Hin. lia. }
  assert (Hq : timeouts s1 =
               timeouts s ++ [(nextTimer s,
                 (tenantId, or_default (idleTimeout cfg) DEFAULT_IDLE_TIMEOUT))])
    by reflexivity.
  assert (Hcleared : filter (fun e => negb (Nat.eqb (fst e) (nextTimer s)))
                       (timeouts s1) = timeouts s).
  { rewrite Hq, filter_app. cbn [filter fst]. rewrite Nat.eqb_refl.
    cbn [negb]. rewrite app_nil_r.
    clear - Hfresh. induction (timeouts s) as [|[t e] q IH]; [reflexivity|].
    cbn [filter fst]. destruct (Nat.eqb_spec t (nextTimer s)) as [->|Hne].
    - exfalso. apply Hfresh. now left.
    - cbn [negb]. f_equal. apply IH. intros H. apply Hfresh. now right. }
  unfold timeout_fires. rewrite Hq, (queued_snoc_fresh _ _ _ Hfresh).
  eexists. split; [reflexivity|].
  unfold closeConnection. rewrite closeConnection_begin_spec.
  assert (Hget : JsMap.get tenantId
                   (connectionCache (clearTimeout (nextTimer s) s1)) = Some c).
  { cbn. apply JsMapFacts.get_set_same. }
  rewrite Hget. cbn [snd]. unfold closeConnection_settled.
  cbn [acl_closed acl_tenantId].
  unfold clearTimeout.
  assert (Hgone : queued (nextTimer s) (timeouts s) = None)
    by (apply queued_None; exact Hfresh).
  destruct (closes env3 c) as [e|]; ssimpl; rewrite Hcleared.
  - split; [reflexivity|]. split; [reflexivity|]. split; [exact Hgone|].
    split; [unfold s1; cbn; apply JsMapFacts.get_set_same|].
    split; [unfold s1; cbn; apply JsMapFacts.get_set_same|].
    unfold queued_for. ssimpl. split; [reflexivity|]. intros H; exact H.
  - split; [reflexivity|]. split; [reflexivity|]. split; [exact Hgone|].
    unfold getConnectionStats. cbn [activeTenants]. ssimpl.
    unfold s1. cbn [connectionCache connectionTimers logger setConnectionTimer
      setTimeout with_timers with_cache].
    rewrite (delete_set_absent _ _ _ Hmiss).
    split; [reflexivity|]. split; [apply JsMapFacts.get_delete_same|].
    reflexivity.
Qed.

Lemma idle_timeout_evicts_the_entry_witness :
  let cfg := config "mysql" (Some true) in
  let s1 := snd (getTenantConnection (world true true true) cfg "t1" initialState) in
  exists s2,
    timeout_fires (world true true true) 0 s1 = Some s2
    /\ activeTenants (getConnectionStats s2) = [].
Proof.
  intros cfg s1.
  destruct (idle_timeout_evicts_the_entry (world true true true)
              (world true true true) cfg "t1" initialState (acme "t1" true)
              (DataSource 0 (sqlOptions cfg (acme "t1" true)))
              WellFormed_initialState eq_refl eq_refl eq_refl eq_refl eq_refl
              eq_refl) as (s2 & H1 & _ & _ & H4).
  exists s2. split; [exact H1|]. apply H4.
Defined.

(** X4.  Closing the connection of one tenant leaves every other tenant's
    cache entry and registered timeout alone; and when the tenant has an
    entry and the close succeeds, the count of connections drops by exactly
    one. *)
Theorem closeConnection_touches_one_tenant :
  forall env tenantId s c,
    WellFormed s ->
    JsMap.get tenantId (connectionCache s) = Some c ->
    let s' := snd (closeConnection env tenantId s) in
    (forall other,
       other <> tenantId ->
       JsMap.get other (connectionCache s') = JsMap.get other (connectionCache s)
       /\ JsMap.get other (connectionTimers s')
          = JsMap.get other (connectionTimers s))
    /\ (closes env c = None ->
        S (totalConnections (getConnectionStats s'))
        = totalConnections (getConnectionStats s))
    /\ (closes env c <> None ->
        totalConnections (getConnectionStats s')
        = totalConnections (getConnectionStats s)).
Proof.
  intros env tenantId s c W Hget. unfold closeConnection.
  rewrite closeConnection_begin_spec, Hget. cbn [snd]. cbn zeta.
  unfold closeConnection_settled. cbn [acl_closed acl_tenantId].
  destruct (closes env c) as [e|]; cbn.
  - split; [now split|]. split; [discriminate | reflexivity].
  - split.
    + intros other Hne. split; apply JsMapFacts.get_delete_other; congruence.
    + split; [|congruence]. intros _.
      apply (size_delete_present _ c); [apply (wf_cache s W) | exact Hget].
Qed.

Lemma closeConnection_touches_one_tenant_witness :
  let cfg := config "mysql" (Some true) in
  let ok := world true true true in
  let s := acquire_all cfg [(ok, "t1"); (ok, "t2")] initialState in
  JsMap.get "t2" (connectionCache (snd (closeConnection ok "t1" s)))
  = JsMap.get "t2" (connectionCache s).
Proof.
  intros cfg ok s.
  destruct (closeConnection_touches_one_tenant ok "t1" s
              (DataSource 0 (sqlOptions cfg (acme "t1" true)))) as (H & _).
  - apply acquire_all_invariants;
      [apply WellFormed_initialState | apply DistinctObjects_initialState].
  - reflexivity.
  - apply H. discriminate.
Defined.

(** ** One idle timeout per tenant when calls do not overlap *)

(** What one uninterrupted call does to the cache, the timer map and the
    queue: a hit resets the timer, a call that connects with caching on
    stores and arms, every other call leaves the three as they are. *)
Lemma getTenantConnection_cases env cfg tenantId s :
  let s' := snd (getTenantConnection env cfg tenantId s) in
  (exists c, JsMap.get tenantId (connectionCache s) = Some c
             /\ s' = resetConnectionTimer cfg tenantId
                       (logger Debug
                          ("Using cached connection for tenant: " ++ tenantId)%string
                          None s))
  \/ (connectionCache s' = connectionCache s
      /\ connectionTimers s' = connectionTimers s
      /\ timeouts s' = timeouts s)
  \/ (exists c, JsMap.get tenantId (connectionCache s) = None
                /\ connectionCache s' = JsMap.set tenantId c (connectionCache s)
                /\ connectionTimers s'
                   = JsMap.set tenantId (nextTimer s) (connectionTimers s)
                /\ timeouts s' =
                   timeouts s ++
                   [(nextTimer s,
                     (tenantId, or_default (idleTimeout cfg) DEFAULT_IDLE_TIMEOUT))]).
Proof.
  cbn zeta. destruct (cached cfg tenantId s) as [c|] eqn:Hc.
  { left. exists c. rewrite (getTenantConnection_hit env _ _ _ _ Hc).
    split; [|reflexivity]. unfold cached in Hc.
    destruct (truthy _); [exact Hc | discriminate]. }
  right. unfold getTenantConnection, getTenantConnection_begin. rewrite Hc.
  unfold getTenantConnection_found, getTenantInfo_settled. ssimpl.
  destruct (findOne env tenantId) as [e|[tenantInfo|]]; ssimpl;
    try (left; now repeat split).
  destruct (isActive tenantInfo); ssimpl; [|left; now repeat split].
  rewrite createTenantConnection_begin_spec.
  destruct (new_connection _ _ _) as [c|]; ssimpl; [|left; now repeat split].
  unfold getTenantConnection_opened, createTenantConnection_settled,
    failed_to_create. ssimpl.
  destruct (opens env c); ssimpl; [left; now repeat split|].
  destruct (truthy (cacheConnections cfg)) eqn:Hon; ssimpl;
    [|left; now repeat split].
  right. exists c. unfold cached in Hc. rewrite Hon in Hc.
  split; [exact Hc|]. repeat split.
Qed.

Lemma TimersTidy_same s s' :
  connectionCache s' = connectionCache s ->
  connectionTimers s' = connectionTimers s ->
  timeouts s' = timeouts s ->
  TimersTidy s -> TimersTidy s'.
Proof. unfold TimersTidy. intros -> -> ->. tauto. Qed.

Lemma TimersTidy_getTenantConnection env cfg tenantId s :
  TimersTidy s -> TimersTidy (snd (getTenantConnection env cfg tenantId s)).
Proof.
  intros [Ta Tb].
  destruct (getTenantConnection_cases env cfg tenantId s)
    as [(c & Hget & ->)|[(Hc & Ht & Hq)|(c & Hget & Hc & Ht & Hq)]].
  - destruct (resetConnectionTimer_spec cfg tenantId
                (logger Debug
                   ("Using cached connection for tenant: " ++ tenantId)%string
                   None s)) as (Ht & _ & Hq).
    split.
    + intros t k d Hin. rewrite Hq in Hin. rewrite Ht. ssimpl.
      apply in_app_iff in Hin. destruct Hin as [Hin|[E|[]]].
      * assert (Hold : In (t, (k, d)) (timeouts s)
                       /\ JsMap.get tenantId (connectionTimers s) <> Some t).
        { destruct (JsMap.get tenantId (connectionTimers s)) as [t0|].
          - apply filter_In in Hin. destruct Hin as [Hin Hne]. cbn in Hne.
            split; [exact Hin|]. intros [= ->].
            now rewrite Nat.eqb_refl in Hne.
          - split; [exact Hin | discriminate]. }
        destruct Hold as [Hin' Hne]. pose proof (Ta t k d Hin') as Hreg.
        destruct (String.eqb_spec tenantId k) as [->|Hk]; [contradiction|].
        now rewrite JsMapFacts.get_set_other.
      * injection E as <- <- _. apply JsMapFacts.get_set_same.
    + intros k Hnone. rewrite resetConnectionTimer_cache in Hnone.
      ssimpl. rewrite Ht. ssimpl.
      destruct (String.eqb_spec tenantId k) as [->|Hk]; [congruence|].
      rewrite JsMapFacts.get_set_other by exact Hk. now apply Tb.
  - apply (TimersTidy_same _ _ Hc Ht Hq). now split.
  - split.
    + intros t k d Hin. rewrite Hq in Hin. rewrite Ht.
      apply in_app_iff in Hin. destruct Hin as [Hin|[E|[]]].
      * pose proof (Ta t k d Hin) as Hreg.
        destruct (String.eqb_spec tenantId k) as [->|Hk].
        -- rewrite (Tb k Hget) in Hreg. discriminate.
        -- now rewrite JsMapFacts.get_set_other.
      * injection E as <- <- _. apply JsMapFacts.get_set_same.
    + intros k Hnone. rewrite Hc in Hnone. rewrite Ht.
      destruct (String.eqb_spec tenantId k) as [->|Hk].
      * rewrite JsMapFacts.get_set_same in Hnone. discriminate.
      * rewrite JsMapFacts.get_set_other in Hnone by exact Hk.
        rewrite JsMapFacts.get_set_other by exact Hk. now apply Tb.
Qed.

Lemma getTenantContext_state env cfg tenantId s :
  snd (getTenantContext env cfg tenantId s) =
  match fst (getTenantInfo env tenantId s) with
  | None => snd (getTenantInfo env tenantId s)
  | Some _ =>
      snd (getTenantConnection env cfg tenantId (snd (getTenantInfo env tenantId s)))
  end.
Proof.
  unfold getTenantContext.
  destruct (getTenantInfo env tenantId s) as [[tenantInfo|] s1]; cbn [fst snd];
    [|reflexivity].
  destruct (getTenantConnection env cfg tenantId s1) as [[c|e] s2]; reflexivity.
Qed.

Lemma getTenantInfo_frame env tenantId s :
  connectionCache (snd (getTenantInfo env tenantId s)) = connectionCache s
  /\ connectionTimers (snd (getTenantInfo env tenantId s)) = connectionTimers s
  /\ timeouts (snd (getTenantInfo env tenantId s)) = timeouts s
  /\ nextTimer (snd (getTenantInfo env tenantId s)) = nextTimer s
  /\ openCalls (snd (getTenantInfo env tenantId s)) = openCalls s
  /\ nextOid (snd (getTenantInfo env tenantId s)) = nextOid s.
Proof.
  unfold getTenantInfo, getTenantInfo_settled.
  destruct (findOne env tenantId); repeat split.
Qed.

Lemma TimersTidy_getTenantContext env cfg tenantId s :
  TimersTidy s -> TimersTidy (snd (getTenantContext env cfg tenantId s)).
Proof.
  intros T. rewrite getTenantContext_state.
  destruct (getTenantInfo_frame env tenantId s) as (Hc & Ht & Hq & _).
  pose proof (TimersTidy_same _ _ Hc Ht Hq T) as T1.
  destruct (fst (getTenantInfo env tenantId s)); [|exact T1].
  now apply TimersTidy_getTenantConnection.
Qed.

Lemma WellFormed_getTenantContext env cfg tenantId s :
  WellFormed s -> WellFormed (snd (getTenantContext env cfg tenantId s)).
Proof.
  intros W. rewrite getTenantContext_state.
  destruct (getTenantInfo_frame env tenantId s) as (Hc & Ht & Hq & Hn & _).
  pose proof (WellFormed_same _ _ Hc Ht Hq Hn W) as W1.
  destruct (fst (getTenantInfo env tenantId s)); [|exact W1].
  now apply WellFormed_getTenantConnection.
Qed.

Lemma timeout_fires_spec env t s :
  timeout_fires env t s =
  match queued t (timeouts s) with
  | None => None
  | Some (tenantId, _) =>
      Some (match JsMap.get tenantId (connectionCache s) with
            | None => clearTimeout t s
            | Some c =>
                closeConnection_settled
                  {| acl_tenantId := tenantId; acl_connection := c;
                     acl_closed := closes env c |}
                  (record_close c (clearTimeout t s))
            end)
  end.
Proof.
  unfold timeout_fires.
  destruct (queued t (timeouts s)) as [[tenantId d]|]; [|reflexivity].
  unfold closeConnection. rewrite closeConnection_begin_spec.
  change (connectionCache (clearTimeout t s)) with (connectionCache s).
  destruct (JsMap.get tenantId (connectionCache s)); reflexivity.
Qed.

Lemma WellFormed_timeout_fires env t s s' :
  WellFormed s -> timeout_fires env t s = Some s' -> WellFormed s'.
Proof.
  intros W. rewrite timeout_fires_spec.
  destruct (queued t (timeouts s)) as [[tenantId d]|]; [|discriminate].
  intros [= <-].
  destruct (JsMap.get tenantId (connectionCache s)).
  - apply WellFormed_closeConnection_settled, WellFormed_record_close.
    now apply WellFormed_clearTimeout.
  - now apply WellFormed_clearTimeout.
Qed.

Lemma TimersTidy_timeout_fires env t s s' :
  TimersTidy s -> timeout_fires env t s = Some s' -> TimersTidy s'.
Proof.
  intros [Ta Tb]. rewrite timeout_fires_spec.
  destruct (queued t (timeouts s)) as [[tenantId d]|] eqn:Hq; [|discriminate].
  intros [= <-]. apply queued_Some_In in Hq. pose proof (Ta _ _ _ Hq) as Hreg.
  assert (Tclear : TimersTidy (clearTimeout t s)).
  { split; cbn.
    - intros t' k d' Hin. apply filter_In in Hin. apply (Ta t' k d'), Hin.
    - exact Tb. }
  destruct (JsMap.get tenantId (connectionCache s)) as [c|]; [|exact Tclear].
  unfold closeConnection_settled. cbn [acl_closed acl_tenantId].
  destruct (closes env c) as [e|].
  - apply (TimersTidy_same (clearTimeout t s)); try reflexivity. exact Tclear.
  - split; cbn.
    + intros t' k d' Hin. apply filter_In in Hin. destruct Hin as [Hin Hne].
      cbn in Hne. pose proof (Ta _ _ _ Hin) as Hreg'.
      destruct (String.eqb_spec tenantId k) as [->|Hk].
      * rewrite Hreg in Hreg'. injection Hreg' as ->.
        now rewrite Nat.eqb_refl in Hne.
      * now rewrite JsMapFacts.get_delete_other.
    + intros k Hnone. destruct (String.eqb_spec tenantId k) as [->|Hk].
      * apply JsMapFacts.get_delete_same.
      * rewrite JsMapFacts.get_delete_other in Hnone by exact Hk.
        rewrite JsMapFacts.get_delete_other by exact Hk. now apply Tb.
Qed.

Lemma perform_all_invariants cfg ops : forall s,
  WellFormed s -> TimersTidy s ->
  WellFormed (perform_all cfg ops s) /\ TimersTidy (perform_all cfg ops s).
Proof.
  unfold perform_all.
  induction ops as [|[env op] ops IH]; intros s W T; [now split|].
  cbn [fold_left]. apply IH; unfold perform; cbn [fst snd]; destruct op.
  - now apply WellFormed_getTenantConnection.
  - now apply WellFormed_getTenantContext.
  - destruct (timeout_fires env t s) eqn:E; [|exact W].
    apply (WellFormed_timeout_fires _ _ _ _ W E).
  - now apply TimersTidy_getTenantConnection.
  - now apply TimersTidy_getTenantContext.
  - destruct (timeout_fires env t s) eqn:E; [|exact T].
    apply (TimersTidy_timeout_fires _ _ _ _ T E).
Qed.

Lemma at_most_one (A : Type) (l : list A) :
  NoDup l -> (forall x y, In x l -> In y l -> x = y) -> List.length l <= 1.
Proof.
  intros Hnd Hall. destruct l as [|x [|y l]]; cbn; try lia.
  exfalso. inversion Hnd as [|? ? Hx _]; subst. apply Hx.
  left. apply Hall; [right; now left | now left].
Qed.


(** ** A stored connection is served again *)

Lemma entry_kept_by_getTenantConnection env cfg k s tenantId c :
  JsMap.get tenantId (connectionCache s) = Some c ->
  JsMap.get tenantId (connectionCache (snd (getTenantConnection env cfg k s)))
  = Some c.
Proof.
  intros Hget.
  pose proof (getTenantConnection_cases env cfg k s) as H. cbn zeta in H.
  destruct H as [(c' & _ & ->) | [(-> & _) | (c' & Hmiss & -> & _)]].
  - rewrite resetConnectionTimer_cache. exact Hget.
  - exact Hget.
  - rewrite JsMapFacts.get_set_other; [exact Hget|].
    intros ->. congruence.
Qed.

Lemma entry_kept_by_getTenantContext env cfg k s tenantId c :
  JsMap.get tenantId (connectionCache s) = Some c ->
  JsMap.get tenantId (connectionCache (snd (getTenantContext env cfg k s)))
  = Some c.
Proof.
  intros Hget. rewrite getTenantContext_state.
  destruct (getTenantInfo_frame env k s) as (Hc & _).
  destruct (fst (getTenantInfo env k s)).
  - apply entry_kept_by_getTenantConnection. now rewrite Hc.
  - now rewrite Hc.
Qed.

Lemma entry_kept_by_calls cfg tenantId c ops : forall s,
  (forall eo t, In eo ops -> snd eo <> Op_timeout t) ->
  JsMap.get tenantId (connectionCache s) = Some c ->
  JsMap.get tenantId (connectionCache (perform_all cfg ops s)) = Some c.
Proof.
  induction ops as [|[env op] ops IH]; intros s Hops Hget; [exact Hget|].
  unfold perform_all. cbn [fold_left]. apply IH.
  - intros eo t Hin. apply Hops. now right.
  - unfold perform. cbn [fst snd]. destruct op as [k|k|t].
    + now apply entry_kept_by_getTenantConnection.
    + now apply entry_kept_by_getTenantContext.
    + exfalso. apply (Hops (env, Op_timeout t) t); [now left | reflexivity].
Qed.

(** X1.  What a call that connected stores, later calls return.  With
    caching on, after a call that connected, and after any further calls of
    [getTenantConnection] and [getTenantContext] for any keys, made one
    after the other in whatever worlds, with no idle timeout firing and no
    [closeAllConnections] in between: a call for the key, in whatever world
    (directory gone, tenant deactivated, backend down), resolves with the
    same connection object and calls neither the directory nor the
    connector. *)
Theorem stored_connection_is_served_again :
  forall env env2 cfg tenantId s tenantInfo c ops,
    truthy (cacheConnections cfg) = true ->
    JsMap.get tenantId (connectionCache s) = None ->
    findOne env tenantId = DirRow (Some tenantInfo) ->
    isActive tenantInfo = true ->
    new_connection cfg tenantInfo (nextOid s) = Some c ->
    opens env c = None ->
    (forall eo t, In eo ops -> snd eo <> Op_timeout t) ->
    let s1 := snd (getTenantConnection env cfg tenantId s) in
    let s2 := perform_all cfg ops s1 in
    let s3 := snd (getTenantConnection env2 cfg tenantId s2) in
    fst (getTenantConnection env cfg tenantId s) = Resolved c
    /\ openCalls s1 = openCalls s ++ [c]
    /\ findOneCalls s1 = findOneCalls s ++ [tenantId]
    /\ fst (getTenantConnection env2 cfg tenantId s2) = Resolved c
    /\ openCalls s3 = openCalls s2
    /\ findOneCalls s3 = findOneCalls s2
    /\ connectionCache s3 = connectionCache s2.
Proof.
  intros env env2 cfg tenantId s tenantInfo c ops Hon Hmiss Hd Ha Hn Ho Hops.
  rewrite (getTenantConnection_stores env cfg tenantId s tenantInfo c
             Hon Hmiss Hd Ha Hn Ho).
  cbn [fst snd]. cbn zeta.
  set (s1 := logger Debug _ None _).
  assert (Hget1 : JsMap.get tenantId (connectionCache s1) = Some c).
  { unfold s1. cbn. apply JsMapFacts.get_set_same. }
  pose proof (entry_kept_by_calls cfg tenantId c ops s1 Hops Hget1) as Hget2.
  assert (Hhit : cached cfg tenantId (perform_all cfg ops s1) = Some c).
  { unfold cached. now rewrite Hon. }
  rewrite (getTenantConnection_hit env2 _ _ _ _ Hhit). cbn [fst snd].
  split; [reflexivity|]. split; [reflexivity|]. split; [reflexivity|].
  split; [reflexivity|].
  rewrite resetConnectionTimer_openCalls, resetConnectionTimer_findOneCalls,
    resetConnectionTimer_cache.
  repeat split.
Qed.

Lemma stored_connection_is_served_again_witness :
  let cfg := config "mysql" (Some true) in
  let down := world false false false in
  let s1 := snd (getTenantConnection (world true true true) cfg "t1" initialState) in
  let s2 := perform_all cfg [(world true true true, Op_getTenantConnection "t2");
                             (down, Op_getTenantContext "t1")] s1 in
  fst (getTenantConnection down cfg "t1" s2)
  = Resolved (DataSource 0 (sqlOptions cfg (acme "t1" true))).
Proof.
  intros cfg down s1 s2.
  apply (stored_connection_is_served_again (world true true true) down cfg
           "t1" initialState (acme "t1" true)
           (DataSource 0 (sqlOptions cfg (acme "t1" true)))
           [(world true true true, Op_getTenantConnection "t2");
            (down, Op_getTenantContext "t1")]
           eq_refl eq_refl eq_refl eq_refl eq_refl eq_refl).
  intros eo t [<-|[<-|[]]]; discriminate.
Defined.

(** ** [getTenantContext] against [getTenantConnection] *)

(** X6.  [getTenantContext] asks the directory before it looks at the
    cache.  For a tenant whose connection is cached but whose row is gone
    from the directory (or whose lookup throws), [getTenantConnection] still
    resolves with the cached connection while [getTenantContext] fails with
    [TenantNotFoundException]; the failed call calls no connector and leaves
    the cache and the idle timer as they were. *)
Theorem context_needs_the_directory_even_when_cached :
  forall env cfg tenantId s c,
    cached cfg tenantId s = Some c ->
    (findOne env tenantId = DirRow None \/
     exists e, findOne env tenantId = DirThrows e) ->
    let s' := snd (getTenantContext env cfg tenantId s) in
    fst (getTenantConnection env cfg tenantId s) = Resolved c
    /\ fst (getTenantContext env cfg tenantId s)
       = Rejected (TenantNotFoundException tenantId)
    /\ findOneCalls s' = findOneCalls s ++ [tenantId]
    /\ openCalls s' = openCalls s
    /\ connectionCache s' = connectionCache s
    /\ connectionTimers s' = connectionTimers s
    /\ timeouts s' = timeouts s.
Proof.
  intros env cfg tenantId s c Hc Hdir.
  rewrite (getTenantConnection_hit env _ _ _ _ Hc).
  unfold getTenantContext, getTenantInfo, getTenantInfo_settled.
  destruct Hdir as [-> | [e ->]]; cbn; repeat split.
Qed.

Lemma context_needs_the_directory_even_when_cached_witness :
  let cfg := config "mysql" (Some true) in
  let s := snd (getTenantConnection (world true true true) cfg "t1" initialState) in
  let gone :=
    {| findOne := fun _ => DirRow None;
       initialize := fun _ => None; createConnection := fun _ _ => None;
       destroy := fun _ => None; close := fun _ => None |} in
  fst (getTenantContext gone cfg "t1" s)
  = Rejected (TenantNotFoundException "t1").
Proof.
  intros cfg s gone.
  apply (context_needs_the_directory_even_when_cached gone cfg "t1" s
           (DataSource 0 (sqlOptions cfg (acme "t1" true))) eq_refl
           (or_introl eq_refl)).
Defined.

(** X7.  What a context is made of, and what it costs.  When the directory
    has a row for the key, [getTenantContext] reads the directory once if
    the connection is cached and twice if it is not; and when it resolves,
    the context carries the key, the row of the first read and the
    connection that [getTenantConnection] resolved with. *)
Theorem context_reads_the_directory_twice_on_a_miss :
  forall env cfg tenantId s row,
    findOne env tenantId = DirRow (Some row) ->
    let s1 := record_findOne tenantId s in
    findOneCalls (snd (getTenantContext env cfg tenantId s))
    = findOneCalls s ++
      match cached cfg tenantId s with
      | Some _ => [tenantId]
      | None => [tenantId; tenantId]
      end
    /\ snd (getTenantContext env cfg tenantId s)
       = snd (getTenantConnection env cfg tenantId s1)
    /\ match fst (getTenantConnection env cfg tenantId s1) with
       | Resolved c =>
           fst (getTenantContext env cfg tenantId s)
           = Resolved {| tenantId := tenantId; tenantInfo := row;
                         connection := c |}
       | Rejected e => fst (getTenantContext env cfg tenantId s) = Rejected e
       end.
Proof.
  intros env cfg tenantId s row Hd. cbn zeta.
  assert (Hctx : getTenantContext env cfg tenantId s =
    match getTenantConnection env cfg tenantId (record_findOne tenantId s) with
    | (Rejected e, s2) => (Rejected e, s2)
    | (Resolved c, s2) =>
        (Resolved {| tenantId := tenantId; tenantInfo := row; connection := c |},
         s2)
    end).
  { unfold getTenantContext, getTenantInfo, getTenantInfo_settled.
    now rewrite Hd. }
  rewrite Hctx.
  split.
  - destruct (cached cfg tenantId s) as [c|] eqn:Hc.
    + assert (Hc' : cached cfg tenantId (record_findOne tenantId s) = Some c)
        by exact Hc.
      rewrite (getTenantConnection_hit env _ _ _ _ Hc'). cbn [snd].
      now rewrite resetConnectionTimer_findOneCalls.
    + assert (Hc' : cached cfg tenantId (record_findOne tenantId s) = None)
        by exact Hc.
      assert (Hcalls :
        findOneCalls (snd (getTenantConnection env cfg tenantId
                             (record_findOne tenantId s)))
        = findOneCalls (record_findOne tenantId s) ++ [tenantId]).
      { unfold getTenantConnection, getTenantConnection_begin. rewrite Hc'.
        unfold getTenantConnection_found, getTenantInfo_settled. ssimpl.
        rewrite Hd. destruct (isActive row); ssimpl; [|reflexivity].
        rewrite createTenantConnection_begin_spec.
        destruct (new_connection _ _ _) as [c|]; ssimpl; [|reflexivity].
        unfold getTenantConnection_opened, createTenantConnection_settled,
          failed_to_create. ssimpl.
        destruct (opens env c); ssimpl; [reflexivity|].
        destruct (truthy _); reflexivity. }
      destruct (getTenantConnection env cfg tenantId (record_findOne tenantId s))
        as [[c|e] s2]; cbn [snd] in *; rewrite Hcalls; cbn;
        now rewrite <- app_assoc.
  - destruct (getTenantConnection env cfg tenantId (record_findOne tenantId s))
      as [[c|e] s2]; now split.
Qed.

Lemma context_reads_the_directory_twice_on_a_miss_witness :
  findOneCalls (snd (getTenantContext (world true true true)
                       (config "mysql" (Some true)) "t1" initialState))
  = ["t1"; "t1"].
Proof.
  apply (context_reads_the_directory_twice_on_a_miss (world true true true)
           (config "mysql" (Some true)) "t1" initialState (acme "t1" true)
           eq_refl).
Defined.

(** ** The cache has no upper bound *)

Lemma new_connection_when_supported cfg tenantInfo n :
  supported (driver cfg) = true ->
  exists c, new_connection cfg tenantInfo n = Some c.
Proof.
  intros Hs. destruct (new_connection cfg tenantInfo n) as [c|] eqn:E;
    [now exists c|].
  apply new_connection_supported in E. congruence.
Qed.

Lemma acquire_distinct_tenants env cfg keys : forall s,
  truthy (cacheConnections cfg) = true ->
  supported (driver cfg) = true ->
  (forall k, In k keys ->
     exists row, findOne env k = DirRow (Some row) /\ isActive row = true) ->
  (forall c, opens env c = None) ->
  NoDup keys ->
  (forall k, In k keys -> JsMap.get k (connectionCache s) = None) ->
  let s' := acquire_all cfg (map (fun k => (env, k)) keys) s in
  activeTenants (getConnectionStats s') = activeTenants (getConnectionStats s) ++ keys
  /\ totalConnections (getConnectionStats s')
     = totalConnections (getConnectionStats s) + List.length keys
  /\ List.length (openCalls s') = List.length (openCalls s) + List.length keys.
Proof.
  induction keys as [|k keys IH]; intros s Hon Hs Hrows Hopen Hnd Hmiss.
  - cbn. rewrite app_nil_r, !Nat.add_0_r. now repeat split.
  - cbn zeta. unfold acquire_all. cbn [map fold_left fst snd].
    fold (acquire_all cfg (map (fun k => (env, k)) keys)
            (snd (getTenantConnection env cfg k s))).
    destruct (Hrows k (or_introl eq_refl)) as (row & Hd & Ha).
    destruct (new_connection_when_supported cfg row (nextOid s) Hs) as [c Hn].
    pose proof (getTenantConnection_stores env cfg k s row c Hon
                  (Hmiss k (or_introl eq_refl)) Hd Ha Hn (Hopen c)) as Hst.
    inversion Hnd as [|? ? Hk Hnd']; subst.
    set (s1 := snd (getTenantConnection env cfg k s)) in *.
    assert (Hcache : connectionCache s1 = JsMap.set k c (connectionCache s)).
    { unfold s1. now rewrite Hst. }
    assert (Hcalls : openCalls s1 = openCalls s ++ [c]).
    { unfold s1. now rewrite Hst. }
    destruct (IH s1 Hon Hs) as (I1 & I2 & I3).
    + intros k' Hin. apply Hrows. now right.
    + exact Hopen.
    + exact Hnd'.
    + intros k' Hin. rewrite Hcache.
      rewrite JsMapFacts.get_set_other by (intros ->; contradiction).
      apply Hmiss. now right.
    + rewrite I1, I2, I3. unfold getConnectionStats.
      cbn [activeTenants totalConnections]. rewrite Hcache, Hcalls.
      rewrite (keys_set_absent _ _ _ (Hmiss k (or_introl eq_refl))).
      rewrite (size_set_absent _ _ _ (Hmiss k (or_introl eq_refl))).
      rewrite length_app, <- app_assoc. cbn [List.length app].
      repeat split; lia.
Qed.

(** X8.  [maxConnections] does not limit the cache.  With caching on and a
    backend that connects, after calls for [n] different tenants that the
    directory knows as active, the statistics list these [n] tenants in the
    order of the calls and the connector was called [n] times, whatever
    [maxConnections] is; the setting only ends up in the pool size of each
    connection. *)
Theorem maxConnections_does_not_bound_the_cache :
  forall env cfg keys,
    truthy (cacheConnections cfg) = true ->
    supported (driver cfg) = true ->
    (forall k, In k keys ->
       exists row, findOne env k = DirRow (Some row) /\ isActive row = true) ->
    (forall c, opens env c = None) ->
    NoDup keys ->
    let s := acquire_all cfg (map (fun k => (env, k)) keys) initialState in
    activeTenants (getConnectionStats s) = keys
    /\ totalConnections (getConnectionStats s) = List.length keys
    /\ List.length (openCalls s) = List.length keys
    /\ forall limit,
         maxConnections cfg = Some limit ->
         (limit < Z.of_nat (List.length keys))%Z ->
         (limit < Z.of_nat (totalConnections (getConnectionStats s)))%Z.
Proof.
  intros env cfg keys Hon Hs Hrows Hopen Hnd s.
  destruct (acquire_distinct_tenants env cfg keys initialState Hon Hs Hrows
              Hopen Hnd (fun k _ => eq_refl)) as (H1 & H2 & H3).
  fold s in H1, H2, H3.
  change (activeTenants (getConnectionStats initialState)) with (@nil string) in H1.
  change (totalConnections (getConnectionStats initialState)) with 0 in H2.
  change (List.length (openCalls initialState)) with 0 in H3.
  cbn [app Nat.add] in H1, H2, H3.
  split; [exact H1|]. split; [exact H2|]. split; [exact H3|].
  intros limit _ Hlt. now rewrite H2.
Qed.

Lemma maxConnections_does_not_bound_the_cache_witness :
  let cfg := {| driver := "mysql"; cacheConnections := Some true;
                maxConnections := Some 1%Z; connectionTimeout := None;
                idleTimeout := None |} in
  let env := world true true true in
  totalConnections
    (getConnectionStats
       (acquire_all cfg (map (fun k => (env, k)) ["t1"; "t2"; "t3"]) initialState))
  = 3.
Proof.
  intros cfg env.
  apply (maxConnections_does_not_bound_the_cache env cfg ["t1"; "t2"; "t3"]).
  - reflexivity.
  - reflexivity.
  - intros k [<-|[<-|[<-|[]]]]; eexists; split; reflexivity.
  - intros c. destruct c; reflexivity.
  - repeat constructor; cbn; intuition discriminate.
Defined.

(** ** Sweeping the cache twice *)

Lemma filter_same (A : Type) (p : A -> bool) (l : list A) :
  filter (fun x => p x && p x) l = filter p l.
Proof.
  apply filter_ext. intros x. now destruct (p x).
Qed.

(** X9.  A second [closeAllConnections] retries exactly what the first one
    left behind.  After any series of [getTenantConnection] calls, the second
    sweep calls the closing method of the connections whose close failed in
    the first sweep, and of no others; what stays cached is what failed both
    times.  Against a backend that keeps failing in the same way the cache no
    longer changes, so these connections are closed again by every sweep. *)
Theorem second_sweep_retries_the_failed_closes :
  forall cfg calls env1 env2,
    let s := acquire_all cfg calls initialState in
    let s1 := snd (closeAllConnections env1 s) in
    let s2 := snd (closeAllConnections env2 s1) in
    let failed := filter (close_fails env1) (connectionCache s) in
    fst (closeAllConnections env2 s1) = Resolved tt
    /\ closeCalls s2 = JsMap.values (connectionCache s) ++ JsMap.values failed
    /\ connectionCache s2 = filter (close_fails env2) failed
    /\ (failed = [] -> closeCalls s2 = closeCalls s1)
    /\ connectionCache (snd (closeAllConnections env1 s1)) = connectionCache s1.
Proof.
  intros cfg calls env1 env2 s s1 s2 failed.
  destruct (acquire_all_invariants cfg calls initialState
              WellFormed_initialState DistinctObjects_initialState)
    as (W & D & Hcc).
  fold s in W, D, Hcc. cbn [closeCalls initialState] in Hcc.
  destruct (closeAllConnections_spec env1 s (wf_cache s W))
    as (_ & Hcache1 & Hclose1 & _).
  fold s1 in Hcache1, Hclose1. fold failed in Hcache1.
  rewrite Hcc in Hclose1. cbn [app] in Hclose1.
  assert (Hnd : NoDup (JsMap.keys (connectionCache s1))).
  { rewrite Hcache1. unfold failed, JsMap.keys.
    apply NoDup_map_filter, (wf_cache s W). }
  destruct (closeAllConnections_spec env2 s1 Hnd) as (Hr & Hcache2 & Hclose2 & _).
  fold s2 in Hcache2, Hclose2.
  destruct (closeAllConnections_spec env1 s1 Hnd) as (_ & Hcache3 & _).
  split; [exact Hr|].
  split; [now rewrite Hclose2, Hclose1, Hcache1|].
  split; [now rewrite Hcache2, Hcache1|].
  split.
  - intros Hnone. rewrite Hclose2, Hcache1, Hnone. cbn. apply app_nil_r.
  - rewrite Hcache3, Hcache1. unfold failed. rewrite filter_twice.
    apply filter_same.
Qed.

(** * The tenant detection middleware *)

Import TenantDetectionMiddleware.

Lemma all_chars_Forall p s :
  all_chars p s = true
  <-> Forall (fun a => p a = true) (list_ascii_of_string s).
Proof.
  induction s as [|a s IH]; cbn [all_chars
                                   list_ascii_of_string].
  - split; [constructor | reflexivity].
  - rewrite Bool.andb_true_iff, IH. split.
    + intros [Ha Hs]. now constructor.
    + intros H. inversion H; subst. now split.
Qed.

Lemma tenant_id_char_codes a :
  tenant_id_char a = true
  <-> let n := Ascii.nat_of_ascii a in
      97 <= n <= 122 \/ 65 <= n <= 90 \/ 48 <= n <= 57 \/ n = 95 \/ n = 45.
Proof.
  unfold tenant_id_char,
    in_range. cbn zeta.
  rewrite !Bool.orb_true_iff, !Bool.andb_true_iff, !Nat.leb_le, !Nat.eqb_eq.
  tauto.
Qed.

Lemma isValidTenantId_length_chars tenantId :
  isValidTenantId tenantId = true
  <-> 1 <= String.length tenantId <= 100
      /\ all_chars
           tenant_id_char tenantId = true.
Proof.
  unfold isValidTenantId.
  destruct tenantId as [|a r].
  - cbn. split; [discriminate | intros [[H _] _]; inversion H].
  - change (String.eqb (String a r) EmptyString) with false. cbv iota.
    change (validPattern_test (String a r))
      with (all_chars
              tenant_id_char (String a r)).
    destruct (Nat.ltb_spec (String.length (String a r)) 1) as [H1|H1];
      [cbn [String.length] in H1; lia|].
    destruct (Nat.ltb_spec 100 (String.length (String a r))) as [H2|H2];
      cbn [orb]; cbv iota.
    + split; [discriminate | intros [[_ H] _]; lia].
    + split; [intros H; split; [lia | exact H] | intros [_ H]; exact H].
Qed.

(** X10.  Which tenant ids the middleware accepts.  [isValidTenantId] holds
    exactly for the strings of 1 to 100 characters that are all ASCII
    letters, digits, underscores or hyphens; so an accepted id has no dot,
    slash, space or quote in it. *)
Theorem isValidTenantId_accepts_exactly :
  forall tenantId,
    isValidTenantId tenantId = true
    <-> 1 <= String.length tenantId <= 100
        /\ forall a, In a (list_ascii_of_string tenantId) ->
             let n := Ascii.nat_of_ascii a in
             97 <= n <= 122 \/ 65 <= n <= 90 \/ 48 <= n <= 57
             \/ n = 95 \/ n = 45.
Proof.
  intros tenantId. rewrite isValidTenantId_length_chars, all_chars_Forall,
    Forall_forall.
  split; intros [Hlen Hall]; (split; [exact Hlen|]); intros a Hin;
    apply tenant_id_char_codes, Hall, Hin.
Qed.

Ltac use_cases regexp ident req :=
  unfold use;
  destruct (extractTenantId regexp ident req)
    as [extracted logged];
  cbn [fst snd].

(** X11.  A request the middleware lets through carries a checked tenant
    id.  Whenever [use] calls [next()] without an error, [req.tenantId] is
    the identifier it extracted, that identifier passes [isValidTenantId],
    headers, query and path are untouched, and on a preload route
    [req.tenantContext] is the context [getTenantContext] resolved with. *)
Theorem passed_request_carries_a_valid_tenant_id :
  forall regexp env cfg ident req s,
    let d := fst (use regexp env cfg ident req s) in
    det_next d = None ->
    exists tid,
      fst (extractTenantId regexp ident req) = Some tid
      /\ req_tenantId (det_request d) = Some tid
      /\ isValidTenantId tid = true
      /\ req_headers (det_request d) = req_headers req
      /\ req_query (det_request d) = req_query req
      /\ req_path (det_request d) = req_path req
      /\ if shouldPreloadContext req
         then exists ctx,
                fst (getTenantContext env cfg tid s) = Resolved ctx
                /\ req_tenantContext (det_request d) = Some ctx
         else req_tenantContext (det_request d) = req_tenantContext req.
Proof.
  intros regexp env cfg ident req s. cbn zeta.
  use_cases regexp ident req.
  destruct extracted as [[|a r]|]; cbn [string_or_null];
    try (cbn; discriminate).
  destruct (isValidTenantId (String a r)) eqn:Hv;
    cbn [negb]; [|cbn; discriminate].
  change (shouldPreloadContext
            (with_tenantId (String a r) req))
    with (shouldPreloadContext req).
  destruct (shouldPreloadContext req).
  - destruct (getTenantContext env cfg (String a r) s) as [[ctx|e] s1] eqn:Hctx;
      cbn [fst]; [|cbn; discriminate].
    intros _. exists (String a r).
    do 6 (split; [first [exact Hv | reflexivity]|]).
    exists ctx. rewrite Hctx. split; reflexivity.
  - intros _. exists (String a r).
    do 6 (split; [first [exact Hv | reflexivity]|]). reflexivity.
Qed.

Lemma passed_request_carries_a_valid_tenant_id_witness :
  exists tid,
    req_tenantId
      (det_request
         (fst (use no_regexp (world true true true)
                 (config "mysql" (Some true)) (by_header "X-Tenant-ID")
                 (request_with "x-tenant-id" "acme-1" "/health")
                 initialState)))
    = Some tid
    /\ isValidTenantId tid = true.
Proof.
  destruct (passed_request_carries_a_valid_tenant_id no_regexp
              (world true true true) (config "mysql" (Some true))
              (by_header "X-Tenant-ID")
              (request_with "x-tenant-id" "acme-1" "/health")
              initialState eq_refl)
    as (tid & _ & Hid & Hv & _).
  exists tid. exact (conj Hid Hv).
Defined.

(** X12.  A request without a usable tenant id is turned away before the
    service is asked anything.  When the identifier is missing, empty or
    fails [isValidTenantId], [use] passes an exception with status 400 to
    [next], leaves the request as it was ([req.tenantId] is not set) and
    does not touch the connection service. *)
Theorem request_without_valid_id_is_rejected_untouched :
  forall regexp env cfg ident req s,
    (forall tid,
       fst (extractTenantId regexp ident req) = Some tid ->
       tid <> "" ->
       isValidTenantId tid = false) ->
    let d := fst (use regexp env cfg ident req s) in
    exists error,
      det_next d = Some error
      /\ thrown_statusCode error = Some 400%Z
      /\ det_request d = req
      /\ snd (use regexp env cfg ident req s) = s.
Proof.
  intros regexp env cfg ident req s. cbn zeta.
  use_cases regexp ident req. intros Hbad.
  destruct extracted as [[|a r]|]; cbn [string_or_null].
  - eexists. repeat split.
  - rewrite (Hbad (String a r) eq_refl) by discriminate. cbn [negb].
    eexists. repeat split.
  - eexists. repeat split.
Qed.

Lemma request_without_valid_id_is_rejected_untouched_witness :
  let req := request_with "x-tenant-id" "../etc" "/api/users" in
  det_request
    (fst (use no_regexp (world true true true)
            (config "mysql" (Some true)) (by_header "X-Tenant-ID") req
            initialState))
  = req.
Proof.
  intros req.
  destruct (request_without_valid_id_is_rejected_untouched no_regexp
              (world true true true) (config "mysql" (Some true))
              (by_header "X-Tenant-ID") req initialState)
    as (error & _ & _ & Hreq & _).
  - intros tid [= <-] _. reflexivity.
  - exact Hreq.
Defined.

(** X13.  Off the preload routes the middleware never checks that the
    tenant exists.  When the path starts with neither [/api/] nor
    [/graphql], [use] does not touch the connection service, whatever the
    directory holds; a well-formed identifier is let through with
    [req.tenantId] set and no context. *)
Theorem off_preload_routes_nothing_is_looked_up :
  forall regexp env cfg ident req s,
    shouldPreloadContext req = false ->
    let d := fst (use regexp env cfg ident req s) in
    snd (use regexp env cfg ident req s) = s
    /\ req_tenantContext (det_request d) = req_tenantContext req
    /\ forall tid,
         fst (extractTenantId regexp ident req) = Some tid ->
         isValidTenantId tid = true ->
         det_next d = None /\ req_tenantId (det_request d) = Some tid.
Proof.
  intros regexp env cfg ident req s Hoff. cbn zeta.
  use_cases regexp ident req.
  destruct extracted as [[|a r]|]; cbn [string_or_null].
  - do 2 (split; [reflexivity|]). intros tid [= <-]. discriminate.
  - destruct (isValidTenantId (String a r)) eqn:Hv;
      cbn [negb].
    + change (shouldPreloadContext
                (with_tenantId (String a r) req))
        with (shouldPreloadContext req).
      rewrite Hoff. do 2 (split; [reflexivity|]).
      intros tid [= <-] _. split; reflexivity.
    + do 2 (split; [reflexivity|]). intros tid [= <-]. congruence.
  - do 2 (split; [reflexivity|]). intros tid [=].
Qed.

Lemma off_preload_routes_nothing_is_looked_up_witness :
  let unknown :=
    {| findOne := fun _ => DirRow None;
       initialize := fun _ => None; createConnection := fun _ _ => None;
       destroy := fun _ => None; close := fun _ => None |} in
  use no_regexp unknown
    (config "mysql" (Some true)) (by_header "X-Tenant-ID")
    (request_with "x-tenant-id" "nobody" "/health") initialState
  = (fst (use no_regexp unknown
            (config "mysql" (Some true)) (by_header "X-Tenant-ID")
            (request_with "x-tenant-id" "nobody" "/health") initialState),
     initialState).
Proof.
  intros unknown.
  destruct (off_preload_routes_nothing_is_looked_up no_regexp unknown
              (config "mysql" (Some true)) (by_header "X-Tenant-ID")
              (request_with "x-tenant-id" "nobody" "/health") initialState
              eq_refl) as (Hs & _).
  rewrite <- Hs at 3. apply surjective_pairing.
Defined.

Ltac reqsimpl :=
  cbn [detected detection_failed det_next det_request with_tenantContext
       with_tenantId req_tenantContext req_tenantId req_headers req_query
       req_path].

Lemma valid_id_is_not_empty tid :
  isValidTenantId tid = true -> string_or_null (Some tid) = Some tid.
Proof.
  destruct tid; [discriminate | reflexivity].
Qed.

(** [use] for a well-formed identifier on a preload route. *)
Lemma use_preloads regexp env cfg ident req s tid :
  fst (extractTenantId regexp ident req) = Some tid ->
  isValidTenantId tid = true ->
  shouldPreloadContext req = true ->
  use regexp env cfg ident req s =
  let logged := snd (extractTenantId regexp ident req) in
  match getTenantContext env cfg tid s with
  | (Rejected e, s1) =>
      (detection_failed (with_tenantId tid req) logged (Thrown_Http e), s1)
  | (Resolved ctx, s1) =>
      (detected (with_tenantContext ctx (with_tenantId tid req)) logged tid, s1)
  end.
Proof.
  intros Hx Hv Hp. unfold use.
  destruct (extractTenantId regexp ident req) as [extracted logged].
  cbn [fst snd] in *. subst extracted.
  rewrite (valid_id_is_not_empty tid Hv), Hv. cbn [negb].
  change (shouldPreloadContext (with_tenantId tid req))
    with (shouldPreloadContext req).
  now rewrite Hp.
Qed.

(** X14.  On a preload route the middleware answers for a tenant the
    directory does not have (no row, or the lookup throws) with
    [TenantNotFoundException], status 404, whether or not a connection for
    the key is cached.  [req.tenantId] is set all the same, no context is
    stored, the directory was read once and neither the connector nor the
    cache was touched. *)
Theorem preload_route_rejects_unknown_tenant :
  forall regexp env cfg ident req s tid,
    fst (extractTenantId regexp ident req) = Some tid ->
    isValidTenantId tid = true ->
    shouldPreloadContext req = true ->
    (findOne env tid = DirRow None \/ exists e, findOne env tid = DirThrows e) ->
    let d := fst (use regexp env cfg ident req s) in
    let s1 := snd (use regexp env cfg ident req s) in
    det_next d = Some (Thrown_Http (TenantNotFoundException tid))
    /\ option_map thrown_statusCode (det_next d) = Some (Some 404%Z)
    /\ req_tenantId (det_request d) = Some tid
    /\ req_tenantContext (det_request d) = req_tenantContext req
    /\ findOneCalls s1 = findOneCalls s ++ [tid]
    /\ openCalls s1 = openCalls s
    /\ connectionCache s1 = connectionCache s
    /\ timeouts s1 = timeouts s.
Proof.
  intros regexp env cfg ident req s tid Hx Hv Hp Hdir.
  rewrite (use_preloads regexp env cfg ident req s tid Hx Hv Hp). cbn zeta.
  unfold getTenantContext, getTenantInfo, getTenantInfo_settled.
  destruct Hdir as [-> | [e ->]]; cbn; repeat split.
Qed.

Lemma preload_route_rejects_unknown_tenant_witness :
  let unknown :=
    {| findOne := fun _ => DirRow None;
       initialize := fun _ => None; createConnection := fun _ _ => None;
       destroy := fun _ => None; close := fun _ => None |} in
  det_next
    (fst (use no_regexp unknown (config "mysql" (Some true))
            (by_header "X-Tenant-ID")
            (request_with "x-tenant-id" "nobody" "/api/users") initialState))
  = Some (Thrown_Http (TenantNotFoundException "nobody")).
Proof.
  intros unknown.
  apply (preload_route_rejects_unknown_tenant no_regexp unknown
           (config "mysql" (Some true)) (by_header "X-Tenant-ID")
           (request_with "x-tenant-id" "nobody" "/api/users") initialState
           "nobody" eq_refl eq_refl eq_refl (or_introl eq_refl)).
Defined.

(** * The parameter decorators behind the middleware *)

(** X15.  What the middleware preloads, the decorators hand out.  With
    caching on, after [use] has connected a tenant on a preload route:
    [InjectTenantId] gives the identifier, [InjectTenantContext] and
    [InjectTenantInfo] give the stored context and its row without touching
    the service (in any state, even without the service), and
    [InjectTenantConnection] gives the very connection of the context, from
    the cache, without calling the connector or the directory. *)
Theorem preloaded_context_serves_the_decorators :
  forall regexp env cfg ident req s tid row c,
    fst (extractTenantId regexp ident req) = Some tid ->
    isValidTenantId tid = true ->
    shouldPreloadContext req = true ->
    truthy (cacheConnections cfg) = true ->
    JsMap.get tid (connectionCache s) = None ->
    findOne env tid = DirRow (Some row) ->
    isActive row = true ->
    new_connection cfg row (nextOid s) = Some c ->
    opens env c = None ->
    let d := fst (use regexp env cfg ident req s) in
    let s1 := snd (use regexp env cfg ident req s) in
    let ctx := {| tenantId := tid; tenantInfo := row; connection := c |} in
    det_next d = None
    /\ req_tenantContext (det_request d) = Some ctx
    /\ InjectTenantId (det_request d) = Returned tid
    /\ (forall provided env2 cfg2 s2,
          InjectTenantContext provided env2 cfg2 (det_request d) s2
          = (Returned ctx, s2))
    /\ (forall provided env2 cfg2 s2,
          InjectTenantInfo provided env2 cfg2 (det_request d) s2
          = (Returned row, s2))
    /\ (forall env2,
          let r := InjectTenantConnection true env2 cfg (det_request d) s1 in
          fst r = Returned c
          /\ openCalls (snd r) = openCalls s1
          /\ findOneCalls (snd r) = findOneCalls s1).
Proof.
  intros regexp env cfg ident req s tid row c Hx Hv Hp Hon Hmiss Hd Ha Hn Ho.
  rewrite (use_preloads regexp env cfg ident req s tid Hx Hv Hp). cbn zeta.
  assert (Hctx : getTenantContext env cfg tid s =
    match getTenantConnection env cfg tid (record_findOne tid s) with
    | (Rejected e, s2) => (Rejected e, s2)
    | (Resolved c', s2) =>
        (Resolved {| tenantId := tid; tenantInfo := row; connection := c' |}, s2)
    end).
  { unfold getTenantContext, getTenantInfo, getTenantInfo_settled.
    now rewrite Hd. }
  rewrite Hctx.
  rewrite (getTenantConnection_stores env cfg tid (record_findOne tid s) row c
             Hon Hmiss Hd Ha Hn Ho).
  cbn [fst snd]. set (s1 := logger Debug _ None _).
  reqsimpl.
  pose proof (valid_id_is_not_empty tid Hv) as Hne.
  split; [reflexivity|]. split; [reflexivity|].
  split; [unfold InjectTenantId; reqsimpl; now rewrite Hne|].
  split; [intros; unfold InjectTenantContext; reqsimpl; now rewrite Hne|].
  split; [intros; unfold InjectTenantInfo; reqsimpl; now rewrite Hne|].
  intros env2. cbn zeta. unfold InjectTenantConnection.
  reqsimpl. cbn [negb]. rewrite Hne. cbv iota.
  assert (Hhit : cached cfg tid s1 = Some c).
  { unfold cached. rewrite Hon. unfold s1. cbn.
    apply JsMapFacts.get_set_same. }
  rewrite (getTenantConnection_hit env2 _ _ _ _ Hhit). cbn [fst snd of_settled].
  now rewrite resetConnectionTimer_openCalls, resetConnectionTimer_findOneCalls.
Qed.

Lemma preloaded_context_serves_the_decorators_witness :
  let cfg := config "mysql" (Some true) in
  let req := request_with "x-tenant-id" "t1" "/api/users" in
  let d := fst (use no_regexp (world true true true) cfg
                  (by_header "X-Tenant-ID") req initialState) in
  InjectTenantId (det_request d) = Returned "t1".
Proof.
  intros cfg req d.
  apply (preloaded_context_serves_the_decorators no_regexp
           (world true true true) cfg (by_header "X-Tenant-ID") req
           initialState "t1" (acme "t1" true)
           (DataSource 0 (sqlOptions cfg (acme "t1" true)))
           eq_refl eq_refl eq_refl eq_refl eq_refl eq_refl eq_refl eq_refl
           eq_refl).
Defined.

(** X16.  With caching off the preloaded context and
    [InjectTenantConnection] do not share a connection.  After [use] has
    connected a tenant on a preload route, [InjectTenantConnection] for the
    same request reads the directory again, calls the connector again and
    returns a second connection object, different from the one in
    [req.tenantContext]; neither is kept in the cache. *)
Theorem uncached_injection_opens_a_second_connection :
  forall regexp env cfg ident req s tid row c c2,
    fst (extractTenantId regexp ident req) = Some tid ->
    isValidTenantId tid = true ->
    shouldPreloadContext req = true ->
    truthy (cacheConnections cfg) = false ->
    findOne env tid = DirRow (Some row) ->
    isActive row = true ->
    new_connection cfg row (nextOid s) = Some c ->
    new_connection cfg row (S (nextOid s)) = Some c2 ->
    (forall x, opens env x = None) ->
    let d := fst (use regexp env cfg ident req s) in
    let s1 := snd (use regexp env cfg ident req s) in
    let r := InjectTenantConnection true env cfg (det_request d) s1 in
    det_next d = None
    /\ option_map connection (req_tenantContext (det_request d)) = Some c
    /\ fst r = Returned c2
    /\ c2 <> c
    /\ openCalls (snd r) = openCalls s ++ [c; c2]
    /\ findOneCalls (snd r) = findOneCalls s ++ [tid; tid; tid]
    /\ connectionCache (snd r) = connectionCache s.
Proof.
  intros regexp env cfg ident req s tid row c c2 Hx Hv Hp Hoff Hd Ha Hn Hn2 Ho.
  rewrite (use_preloads regexp env cfg ident req s tid Hx Hv Hp). cbn zeta.
  assert (Hctx : getTenantContext env cfg tid s =
    match getTenantConnection env cfg tid (record_findOne tid s) with
    | (Rejected e, s2) => (Rejected e, s2)
    | (Resolved c', s2) =>
        (Resolved {| tenantId := tid; tenantInfo := row; connection := c' |}, s2)
    end).
  { unfold getTenantContext, getTenantInfo, getTenantInfo_settled.
    now rewrite Hd. }
  rewrite Hctx.
  assert (Hc0 : cached cfg tid (record_findOne tid s) = None)
    by (unfold cached; now rewrite Hoff).
  rewrite (getTenantConnection_connects env cfg tid (record_findOne tid s)
             row c Hc0 Hd Ha Hn).
  rewrite getTenantConnection_opened_success by apply Ho.
  cbn [ao_connection ao_tenantInfo ao_tenantId]. cbn zeta. rewrite Hoff.
  cbn [fst snd]. set (s1 := logger Log _ None _).
  reqsimpl. cbn [option_map connection].
  split; [reflexivity|]. split; [reflexivity|].
  unfold InjectTenantConnection. reqsimpl. cbn [negb].
  rewrite (valid_id_is_not_empty tid Hv). cbv iota.
  assert (Hc1 : cached cfg tid s1 = None)
    by (unfold cached; now rewrite Hoff).
  assert (Hn2' : new_connection cfg row (nextOid s1) = Some c2) by exact Hn2.
  rewrite (getTenantConnection_connects env cfg tid s1 row c2 Hc1 Hd Ha Hn2').
  rewrite getTenantConnection_opened_success by apply Ho.
  cbn [ao_connection ao_tenantInfo ao_tenantId]. cbn zeta. rewrite Hoff.
  cbn [fst snd of_settled].
  split; [reflexivity|].
  split.
  { intros ->. apply new_connection_oid in Hn, Hn2. rewrite Hn in Hn2. lia. }
  unfold s1. ssimpl. rewrite <- !app_assoc. repeat split.
Qed.

Lemma uncached_injection_opens_a_second_connection_witness :
  let cfg := config "mysql" None in
  let req := request_with "x-tenant-id" "t1" "/api/users" in
  let env := world true true true in
  let d := fst (use no_regexp env cfg (by_header "X-Tenant-ID") req
                  initialState) in
  let s1 := snd (use no_regexp env cfg (by_header "X-Tenant-ID") req
                   initialState) in
  fst (InjectTenantConnection true env cfg (det_request d) s1)
  = Returned (DataSource 1 (sqlOptions cfg (acme "t1" true))).
Proof.
  intros cfg req env d s1.
  apply (uncached_injection_opens_a_second_connection no_regexp env cfg
           (by_header "X-Tenant-ID") req initialState "t1" (acme "t1" true)
           (DataSource 0 (sqlOptions cfg (acme "t1" true)))
           (DataSource 1 (sqlOptions cfg (acme "t1" true)))
           eq_refl eq_refl eq_refl eq_refl eq_refl eq_refl eq_refl eq_refl
           (fun x => match x with
                     | DataSource _ _ => eq_refl
                     | MongoConnection _ _ _ => eq_refl
                     end)).
Defined.

(** X17.  The decorators agree with each other.  [InjectTenantInfo] is
    [InjectTenantContext] followed by [.tenantInfo], with the same effect on
    the service; and when the request has no tenant id, so that
    [InjectTenantId] throws, the other three throw the same error and leave
    the service alone. *)
Theorem decorators_agree :
  forall provided env cfg request s,
    InjectTenantInfo provided env cfg request s
    = (match fst (InjectTenantContext provided env cfg request s) with
       | Returned ctx => Returned (tenantInfo ctx)
       | Threw t => Threw t
       end,
       snd (InjectTenantContext provided env cfg request s))
    /\ match InjectTenantId request with
       | Returned _ => True
       | Threw t =>
           InjectTenantConnection provided env cfg request s = (Threw t, s)
           /\ InjectTenantContext provided env cfg request s = (Threw t, s)
           /\ InjectTenantInfo provided env cfg request s = (Threw t, s)
       end.
Proof.
  intros provided env cfg request s.
  unfold InjectTenantInfo, InjectTenantContext, InjectTenantConnection,
    InjectTenantId.
  destruct (string_or_null (req_tenantId request)) as [tid|];
    [|now repeat split].
  split; [|exact I].
  destruct (req_tenantContext request) as [ctx|]; [reflexivity|].
  destruct provided; cbn [negb]; [|reflexivity].
  destruct (getTenantContext env cfg tid s) as [[ctx|e] s1]; reflexivity.
Qed.

(** * The central database service *)

Lemma getDatabaseType_unsupported cfg :
  driver cfg <> TenancyDriver.MYSQL ->
  driver cfg <> TenancyDriver.POSTGRESQL ->
  CentralDatabaseService.getDatabaseType cfg
  = inl {| message :=
             ("Unsupported driver for central database: " ++ driver cfg)%string |}.
Proof.
  intros H1 H2. unfold CentralDatabaseService.getDatabaseType.
  apply String.eqb_neq in H1, H2. now rewrite H1, H2.
Qed.

(** X18.  The central database takes fewer drivers than the tenants do.
    For a driver other than [mysql] and [postgresql] (so also for [mongodb],
    which the tenant connections support), [onModuleInit] fails with
    [CentralDatabaseConnectionException] carrying the message of
    [getDatabaseType], before any [DataSource] is built: the field stays
    unset, nothing is run on the database and [getConnection] throws. *)
Theorem central_database_rejects_other_drivers :
  forall w cfg config,
    driver cfg <> TenancyDriver.MYSQL ->
    driver cfg <> TenancyDriver.POSTGRESQL ->
    let r := CentralDatabaseService.onModuleInit w cfg config central_start in
    fst r = Threw (CentralDatabaseConnectionException
                     ("Unsupported driver for central database: " ++ driver cfg)%string)
    /\ dataSource (snd r) = None
    /\ statements (snd r) = []
    /\ CentralDatabaseService.getConnection (snd r)
       = Threw (Thrown_Error CentralDatabaseService.not_established)
    /\ (driver cfg = TenancyDriver.MONGODB -> supported (driver cfg) = true).
Proof.
  intros w cfg config H1 H2. cbn zeta.
  unfold CentralDatabaseService.onModuleInit,
    CentralDatabaseService.createCentralConnection.
  rewrite (getDatabaseType_unsupported cfg H1 H2).
  unfold CentralDatabaseService.connection_failed. cbn [fst snd message].
  do 4 (split; [reflexivity|]).
  intros ->. reflexivity.
Qed.

Lemma central_database_rejects_other_drivers_witness :
  CentralDatabaseService.getConnection
    (snd (CentralDatabaseService.onModuleInit
            (central_world true (inr true) true true true)
            (config "mongodb" (Some true)) central_config central_start))
  = Threw (Thrown_Error CentralDatabaseService.not_established).
Proof.
  apply (central_database_rejects_other_drivers
           (central_world true (inr true) true true true)
           (config "mongodb" (Some true)) central_config).
  - discriminate.
  - discriminate.
Defined.

(** X19.  The two services name the PostgreSQL driver differently.  A
    tenant [DataSource] gets the configured driver string as its [type],
    the central one gets what [getDatabaseType] returns; for a configuration
    that both accept the two are equal exactly when the driver is [mysql],
    and for [postgresql] the tenant type is [postgresql] where the central
    type is [postgres]. *)
Theorem tenant_and_central_types_differ_for_postgresql :
  forall cfg row n c type,
    new_connection cfg row n = Some c ->
    CentralDatabaseService.getDatabaseType cfg = inr type ->
    (exists options, c = DataSource n options /\ ds_type options = driver cfg)
    /\ (type = driver cfg <-> driver cfg = TenancyDriver.MYSQL)
    /\ (driver cfg = TenancyDriver.POSTGRESQL -> type = "postgres").
Proof.
  intros cfg row n c type Hn Ht.
  unfold CentralDatabaseService.getDatabaseType in Ht. unfold new_connection in Hn.
  destruct (String.eqb_spec (driver cfg) TenancyDriver.MYSQL) as [Hm|Hm].
  - injection Ht as <-. cbn [orb] in Hn. injection Hn as <-.
    split; [eexists; split; reflexivity|].
    split; [now rewrite Hm|]. rewrite Hm. discriminate.
  - destruct (String.eqb_spec (driver cfg) TenancyDriver.POSTGRESQL) as [Hp|Hp];
      [|discriminate].
    injection Ht as <-. cbn [orb] in Hn. injection Hn as <-.
    split; [eexists; split; reflexivity|].
    split; [|reflexivity].
    split; [intros H; rewrite Hp in H; discriminate | contradiction].
Qed.

Lemma tenant_and_central_types_differ_for_postgresql_witness :
  exists options,
    DataSource 0 (sqlOptions (config "postgresql" None) (acme "t1" true))
    = DataSource 0 options
    /\ ds_type options = "postgresql".
Proof.
  apply (tenant_and_central_types_differ_for_postgresql
           (config "postgresql" None) (acme "t1" true) 0
           (DataSource 0 (sqlOptions (config "postgresql" None) (acme "t1" true)))
           "postgres" eq_refl eq_refl).
Defined.

Ltac csimpl :=
  cbn [fst snd dataSource central_logs statements releases destroys
       CentralDatabaseService.central_log CentralDatabaseService.set_dataSource
       CentralDatabaseService.run_statement
       CentralDatabaseService.connection_failed
       CentralDatabaseService.ensure_failed isInitialized cds_options co_type].

(** X20.  A failed [initialize()] leaves a half-made connection behind.
    When the driver is accepted and [initialize()] rejects,
    [onModuleInit] fails with [CentralDatabaseConnectionException] carrying
    the cause and never looks at the tenants table; but the [dataSource]
    field was assigned before, so [getConnection] does not throw: it returns
    the data source that is not initialized, and [closeConnection] does
    nothing with it. *)
Theorem failed_initialize_leaves_an_uninitialized_data_source :
  forall w w2 cfg config st type error,
    CentralDatabaseService.getDatabaseType cfg = inr type ->
    (forall options, central_initialize w options = Some error) ->
    let r := CentralDatabaseService.onModuleInit w cfg config st in
    fst r = Threw (CentralDatabaseConnectionException (message error))
    /\ statements (snd r) = statements st
    /\ releases (snd r) = releases st
    /\ (exists ds,
          CentralDatabaseService.getConnection (snd r) = Returned ds
          /\ isInitialized ds = false
          /\ co_type (cds_options ds) = type
          /\ co_database (cds_options ds) = central_database config)
    /\ CentralDatabaseService.closeConnection w2 (snd r) = (Returned tt, snd r).
Proof.
  intros w w2 cfg config st type error Ht Hinit. cbn zeta.
  unfold CentralDatabaseService.onModuleInit,
    CentralDatabaseService.createCentralConnection.
  rewrite Ht. cbn zeta. rewrite Hinit. csimpl.
  do 3 (split; [reflexivity|]).
  split; [eexists; repeat split|reflexivity].
Qed.

Lemma failed_initialize_leaves_an_uninitialized_data_source_witness :
  fst (CentralDatabaseService.onModuleInit
         (central_world false (inr true) true true true)
         (config "mysql" (Some true)) central_config central_start)
  = Threw (CentralDatabaseConnectionException "ECONNREFUSED").
Proof.
  apply (failed_initialize_leaves_an_uninitialized_data_source
           (central_world false (inr true) true true true)
           (central_world false (inr true) true true true)
           (config "mysql" (Some true)) central_config central_start "mysql"
           {| message := "ECONNREFUSED" |} eq_refl (fun _ => eq_refl)).
Defined.

(** X21.  What a successful start of the central service has done.  When
    [onModuleInit] returns, the data source is set and initialized with the
    pool size and timeout defaults, exactly one query runner was used and
    released, and the table was created only if [hasTable] said it was
    missing: then the one statement run is the MySQL script for [mysql] and
    the PostgreSQL script otherwise; if the table was there, no statement
    was run. *)
Theorem central_start_creates_the_table_only_when_missing :
  forall w cfg config,
    let r := CentralDatabaseService.onModuleInit w cfg config central_start in
    fst r = Returned tt ->
    (exists ds,
       dataSource (snd r) = Some ds
       /\ isInitialized ds = true
       /\ co_poolSize (cds_options ds) = DEFAULT_CONNECTION_POOL_SIZE
       /\ co_connectTimeoutMS (cds_options ds) = DEFAULT_CONNECTION_TIMEOUT
       /\ co_entities (cds_options ds) = [CentralDatabaseService.getTenantEntity])
    /\ releases (snd r) = 1
    /\ central_release w = None
    /\ ((central_hasTable w "tenants" = inr true /\ statements (snd r) = [])
        \/ (central_hasTable w "tenants" = inr false
            /\ statements (snd r) =
               [if String.eqb (driver cfg) TenancyDriver.MYSQL
                then mysql_create_table else postgres_create_table])).
Proof.
  intros w cfg config. cbn zeta.
  unfold CentralDatabaseService.onModuleInit,
    CentralDatabaseService.createCentralConnection.
  destruct (CentralDatabaseService.getDatabaseType cfg) as [e|type] eqn:Ht;
    [cbn; discriminate|].
  cbn zeta.
  destruct (central_initialize w _) as [e|]; [cbn; discriminate|].
  unfold CentralDatabaseService.ensureTenantsTable. csimpl.
  destruct (central_hasTable w "tenants") as [e|[|]] eqn:Hh;
    [cbn; discriminate| |].
  - unfold CentralDatabaseService.release_runner.
    destruct (central_release w) as [e|]; [cbn; discriminate|].
    csimpl. intros _.
    split; [eexists; repeat split|].
    split; [reflexivity|]. split; [reflexivity|]. left. now split.
  - unfold CentralDatabaseService.getCreateTableQuery. rewrite Ht.
    assert (Hq : (if String.eqb type "mysql" then inr mysql_create_table
                  else inr postgres_create_table : JsError + string)
                 = inr (if String.eqb (driver cfg) TenancyDriver.MYSQL
                        then mysql_create_table else postgres_create_table)).
    { unfold CentralDatabaseService.getDatabaseType in Ht.
      destruct (String.eqb (driver cfg) TenancyDriver.MYSQL).
      - injection Ht as <-. reflexivity.
      - destruct (String.eqb (driver cfg) TenancyDriver.POSTGRESQL);
          [|discriminate].
        injection Ht as <-. reflexivity. }
    rewrite Hq.
    destruct (central_query w _) as [e|]; [cbn; discriminate|].
    unfold CentralDatabaseService.release_runner.
    destruct (central_release w) as [e|]; [cbn; discriminate|].
    csimpl. intros _.
    split; [eexists; repeat split|].
    split; [reflexivity|]. split; [reflexivity|]. right. now split.
Qed.

Lemma central_start_creates_the_table_only_when_missing_witness :
  releases
    (snd (CentralDatabaseService.onModuleInit
            (central_world true (inr false) true true true)
            (config "postgresql" (Some true)) central_config central_start))
  = 1.
Proof.
  apply (central_start_creates_the_table_only_when_missing
           (central_world true (inr false) true true true)
           (config "postgresql" (Some true)) central_config eq_refl).
Defined.

(** X22.  An error while the tenants table is checked or created reaches
    the caller as it is, not wrapped in
    [CentralDatabaseConnectionException], and the query runner is not
    released.  This holds when [hasTable] fails and when the create
    statement fails; in both cases the data source stays set and
    initialized, so [getConnection] hands it out although [onModuleInit]
    failed. *)
Theorem failed_table_setup_keeps_the_query_runner :
  forall w cfg config type error,
    CentralDatabaseService.getDatabaseType cfg = inr type ->
    (forall options, central_initialize w options = None) ->
    (central_hasTable w "tenants" = inl error
     \/ (central_hasTable w "tenants" = inr false
         /\ forall q, central_query w q = Some error)) ->
    let r := CentralDatabaseService.onModuleInit w cfg config central_start in
    fst r = Threw (Thrown_Error error)
    /\ releases (snd r) = 0
    /\ List.length (statements (snd r))
       = match central_hasTable w "tenants" with inl _ => 0 | inr _ => 1 end
    /\ exists ds,
         CentralDatabaseService.getConnection (snd r) = Returned ds
         /\ isInitialized ds = true.
Proof.
  intros w cfg config type error Ht Hinit Hfail. cbn zeta.
  unfold CentralDatabaseService.onModuleInit,
    CentralDatabaseService.createCentralConnection.
  rewrite Ht. cbn zeta. rewrite Hinit.
  unfold CentralDatabaseService.ensureTenantsTable. csimpl.
  destruct Hfail as [Hh | [Hh Hq]]; rewrite Hh.
  - csimpl. do 3 (split; [reflexivity|]). eexists. split; reflexivity.
  - unfold CentralDatabaseService.getCreateTableQuery. rewrite Ht.
    destruct (String.eqb type "mysql"); rewrite Hq; csimpl;
      (do 3 (split; [reflexivity|]); eexists; split; reflexivity).
Qed.

Lemma failed_table_setup_keeps_the_query_runner_witness :
  fst (CentralDatabaseService.onModuleInit
         (central_world true (inr false) false true true)
         (config "mysql" (Some true)) central_config central_start)
  = Threw (Thrown_Error {| message := "ER_TABLEACCESS_DENIED" |}).
Proof.
  apply (failed_table_setup_keeps_the_query_runner
           (central_world true (inr false) false true true)
           (config "mysql" (Some true)) central_config "mysql"
           {| message := "ER_TABLEACCESS_DENIED" |} eq_refl
           (fun _ => eq_refl) (or_intror (conj eq_refl (fun _ => eq_refl)))).
Defined.

(** X23.  Closing the central connection.  After a successful start,
    [closeConnection] calls [destroy()] once; when that succeeds a second
    [closeConnection] does nothing at all, and [getConnection] still
    returns the data source, now not initialized, instead of throwing.
    When [destroy()] fails the error reaches the caller and the next
    [closeConnection] calls [destroy()] again. *)
Theorem central_close_is_done_once :
  forall w cfg config w2 w3,
    fst (CentralDatabaseService.onModuleInit w cfg config central_start)
    = Returned tt ->
    let st := snd (CentralDatabaseService.onModuleInit w cfg config central_start) in
    let r := CentralDatabaseService.closeConnection w2 st in
    destroys (snd r) = 1
    /\ match central_destroy w2 with
       | None =>
           fst r = Returned tt
           /\ CentralDatabaseService.closeConnection w3 (snd r)
              = (Returned tt, snd r)
           /\ exists ds,
                CentralDatabaseService.getConnection (snd r) = Returned ds
                /\ isInitialized ds = false
       | Some error =>
           fst r = Threw (Thrown_Error error)
           /\ destroys (snd (CentralDatabaseService.closeConnection w3 (snd r)))
              = 2
       end.
Proof.
  intros w cfg config w2 w3. cbn zeta.
  unfold CentralDatabaseService.onModuleInit,
    CentralDatabaseService.createCentralConnection.
  destruct (CentralDatabaseService.getDatabaseType cfg) as [e|type] eqn:Ht;
    [cbn; discriminate|].
  cbn zeta.
  destruct (central_initialize w _) as [e|]; [cbn; discriminate|].
  unfold CentralDatabaseService.ensureTenantsTable. csimpl.
  destruct (central_hasTable w "tenants") as [e|[|]]; [cbn; discriminate| |].
  - unfold CentralDatabaseService.release_runner.
    destruct (central_release w) as [e|]; [cbn; discriminate|].
    csimpl. intros _. unfold CentralDatabaseService.closeConnection. csimpl.
    destruct (central_destroy w2) as [e|]; csimpl.
    + split; [reflexivity|]. split; [reflexivity|].
      destruct (central_destroy w3); reflexivity.
    + split; [reflexivity|]. split; [reflexivity|]. split; [reflexivity|].
      eexists. split; reflexivity.
  - destruct (CentralDatabaseService.getCreateTableQuery cfg) as [e|q];
      [cbn; discriminate|].
    destruct (central_query w q) as [e|]; [cbn; discriminate|].
    unfold CentralDatabaseService.release_runner.
    destruct (central_release w) as [e|]; [cbn; discriminate|].
    csimpl. intros _. unfold CentralDatabaseService.closeConnection. csimpl.
    destruct (central_destroy w2) as [e|]; csimpl.
    + split; [reflexivity|]. split; [reflexivity|].
      destruct (central_destroy w3); reflexivity.
    + split; [reflexivity|]. split; [reflexivity|]. split; [reflexivity|].
      eexists. split; reflexivity.
Qed.

Lemma central_close_is_done_once_witness :
  destroys
    (snd (CentralDatabaseService.closeConnection
            (central_world true (inr true) true true true)
            (snd (CentralDatabaseService.onModuleInit
                    (central_world true (inr true) true true true)
                    (config "mysql" (Some true)) central_config
                    central_start))))
  = 1.
Proof.
  apply (central_close_is_done_once
           (central_world true (inr true) true true true)
           (config "mysql" (Some true)) central_config
           (central_world true (inr true) true true true)
           (central_world true (inr true) true true true) eq_refl).
Defined.
